(** * Room coordination and move validation of the multiplayer chess server

    A shallow embedding of the WebSocket message handlers of [registerRoutes]
    (server routes), of the [DatabaseStorage] class they call and of the
    tables of the shared schema.  The chess rules library (chess.js) is an
    interface the handlers are parameterised over.  Timestamps
    ([createdAt], [updatedAt]) are left out of the rows: no handler reads
    them. *)

From Stdlib Require Import ZArith List String Ascii Bool Lia.
Import ListNotations.

Local Open Scope string_scope.
Local Open Scope list_scope.

(** ** JavaScript values the handlers test *)

Module JS.

(** Truthiness of a string-valued field that may be absent
    ([undefined] or [null]): the empty string is falsy. *)
Definition truthy_string (v : option string) : bool :=
  match v with
  | Some s => negb (String.eqb s "")
  | None => false
  end.

(** Truthiness of a number that may be absent: [0] is falsy. *)
Definition truthy_number (v : option Z) : bool :=
  match v with
  | Some n => negb (Z.eqb n 0)
  | None => false
  end.

(** [v || d] on strings. *)
Definition or_else (v : option string) (d : string) : string :=
  match v with
  | Some s => if String.eqb s "" then d else s
  | None => d
  end.

Definition is_lower (c : ascii) : bool :=
  let n := nat_of_ascii c in (97 <=? n)%nat && (n <=? 122)%nat.

Definition is_upper (c : ascii) : bool :=
  let n := nat_of_ascii c in (65 <=? n)%nat && (n <=? 90)%nat.

Definition is_digit (c : ascii) : bool :=
  let n := nat_of_ascii c in (48 <=? n)%nat && (n <=? 57)%nat.

Definition upper_char (c : ascii) : ascii :=
  if is_lower c then ascii_of_nat (nat_of_ascii c - 32) else c.

(** [s.toUpperCase()] on ASCII text. *)
Fixpoint toUpperCase (s : string) : string :=
  match s with
  | EmptyString => EmptyString
  | String c r => String (upper_char c) (toUpperCase r)
  end.

(** [s.substring(i, j)] for [i <= j]: both ends are clamped to the
    length of [s]. *)
Definition substring (i j : nat) (s : string) : string :=
  String.substring i (j - i) s.

Fixpoint forallb_string (p : ascii -> bool) (s : string) : bool :=
  match s with
  | EmptyString => true
  | String c r => p c && forallb_string p r
  end.

End JS.

(** ** Enumerations of the schema and of the session *)

Inductive Color := white | black.

Inductive Status := waiting | active | checkmate | resigned | draw.

Definition Color_eqb (a c : Color) : bool :=
  match a, c with
  | white, white | black, black => true
  | _, _ => false
  end.

Definition Status_eqb (a c : Status) : bool :=
  match a, c with
  | waiting, waiting | active, active | checkmate, checkmate
  | resigned, resigned | draw, draw => true
  | _, _ => false
  end.

(** [client.color === game.currentTurn], the left side possibly
    [undefined]. *)
Definition color_is (c : option Color) (t : Color) : bool :=
  match c with
  | Some a => Color_eqb a t
  | None => false
  end.

(** ** The rules library (chess.js) as an interface *)

(** The two sides as chess.js names them. *)
Inductive Side := w | b.

Definition Side_eqb (x y : Side) : bool :=
  match x, y with
  | w, w | b, b => true
  | _, _ => false
  end.

Record Piece := { piece_type : string; piece_color : Side }.

(** The fields the handler reads of the object returned by [chess.move]. *)
Record Move := { san : string; piece : string; captured : option string }.

(** The argument of [chess.move({from, to, promotion})]; the first attempt
    of the handler passes no [promotion] key. *)
Record MoveRequest :=
  { from : option string; to : option string; promotion : option string }.

(** [chess.move] returns a move and changes the position, returns a falsy
    value, or throws; the handler distinguishes the three. *)
Inductive MoveOutcome (P : Type) :=
| Moved (m : Move) (p : P)
| MoveNull
| MoveThrows.
Arguments Moved {P} m p.
Arguments MoveNull {P}.
Arguments MoveThrows {P}.

Class RulesEngine := {
  Chess : Type;
  newChess : Chess;                    (* new Chess() *)
  loadFen : string -> option Chess;    (* new Chess(fen); None: it throws *)
  fen : Chess -> string;
  turn : Chess -> Side;
  get : Chess -> option string -> option Piece;
  move : Chess -> MoveRequest -> MoveOutcome Chess;
  moveSan : Chess -> string -> option Chess;   (* chess.move(san) *)
  isCheckmate : Chess -> bool;
  inCheck : Chess -> bool
}.

(** What the consistency property of the game record needs of a rules
    library: a position is recovered from its FEN, the notation of a move
    replays the move, sides alternate and white starts. *)
Class LawfulEngine (E : RulesEngine) : Prop := {
  load_fen : forall p : Chess, loadFen (fen p) = Some p;
  san_replays : forall (p p' : Chess) r m,
      move p r = Moved m p' -> moveSan p (san m) = Some p';
  move_alternates : forall (p p' : Chess) r m,
      move p r = Moved m p' -> turn p' = match turn p with w => b | b => w end;
  white_starts : turn newChess = w
}.

(** ** Rows of the schema *)

Module Room.
Record t := mk
  { id : Z; code : string; player1Id : option Z; player2Id : option Z;
    isActive : bool }.
End Room.

Module Game.
Record t := mk
  { id : Z; roomId : Z; currentTurn : Color; boardState : string;
    moveHistory : list string; status : Status; winner : option Color }.
End Game.

Module ChatMessage.
Record t := mk
  { id : Z; roomId : Z; playerId : option Z; playerName : string;
    message : string }.
End ChatMessage.

(** The database: the three tables in insertion order and the sequence
    behind each [serial] key (the last value handed out). *)
Record DB := mkDB
  { rooms : list Room.t;
    games : list Game.t;
    chatMessages : list ChatMessage.t;
    rooms_id_seq : Z;
    games_id_seq : Z;
    chat_messages_id_seq : Z }.

Definition emptyDB : DB := mkDB [] [] [] 0 0 0.

(** ** Connections, sessions and outbound events *)

(** A transport handle; two handles are the same connection when equal. *)
Definition WebSocket := nat.

Record ClientConnection := mkClient
  { roomId : option Z;
    playerId : option Z;
    playerName : option string;
    color : option Color }.

(** The value stored by [clients.set(ws, { ws })]. *)
Definition freshClient : ClientConnection := mkClient None None None None.

(** The [gameState] object of [room_created], [room_joined] and
    [game_started]. *)
Record GameStateBrief := mkBrief
  { brief_fen : string; brief_currentTurn : Color;
    brief_moveHistory : list string; brief_status : Status }.

(** The [move] object of [move_made]. *)
Record MoveInfo := mkMoveInfo
  { mi_from : option string; mi_to : option string;
    mi_promotion : option string; mi_san : string; mi_piece : string;
    mi_captured : option string }.

(** The [gameState] object of [move_made]. *)
Record GameStateFull := mkFull
  { gs_fen : string; gs_currentTurn : Color; gs_moveHistory : list string;
    gs_status : Status; gs_winner : option Color; gs_check : bool;
    gs_checkmate : bool; gs_draw : bool; gs_stalemate : bool;
    gs_turn : Side; gs_gameOver : bool }.

Inductive ServerEvent :=
| connected
| room_created (roomCode : string) (roomId : Z) (color : Color)
    (gameState : GameStateBrief)
| room_joined (roomCode : string) (roomId : Z) (color : Color)
    (gameState : GameStateBrief) (chat : list ChatMessage.t)
| game_started (gameState : GameStateBrief)
| move_made (move : MoveInfo) (gameState : GameStateFull)
| chat_message (id : Z) (playerName : string) (message : string)
| game_ended (winner : Color) (resignedPlayer : option Color)
| draw_offered (offeredBy : option Color)
| error (message : string).

(** One [ws.send(JSON.stringify(event))] call. *)
Definition Output := (WebSocket * ServerEvent)%type.

(** The fields the handlers read of a parsed message; a field is [None]
    when the key is missing or [null].  Field values are strings.  The
    handlers hand [message.message] to the store and do nothing else with
    it: [msg_message] is the text the database driver sends for the value,
    which for a string is the string. *)
Record Message := mkMessage
  { msg_type : option string;
    msg_playerName : option string;
    msg_roomCode : option string;
    msg_from : option string;
    msg_to : option string;
    msg_promotion : option string;
    msg_message : option string }.

(** What [JSON.parse(data.toString())] gives: it throws, or it returns
    [null] (reading [message.type] then throws), or it returns a value
    whose properties can be read. *)
Inductive Inbound :=
| Unparseable
| ParsedNull
| Parsed (m : Message).

(** The process state: the [clients] map in insertion order (the order
    [forEach] visits), the sockets whose [readyState] is [OPEN], and the
    database behind [storage]. *)
Record Server := mkServer
  { clients : list (WebSocket * ClientConnection);
    openSockets : list WebSocket;
    db : DB }.

(** ** The handlers' effects

    A handler reads and changes the process state, sends events and may
    throw.  What was changed and sent before a throw stays: nothing is
    rolled back. *)

Inductive Completion (A : Type) :=
| Normal (a : A)
| Thrown.
Arguments Normal {A} a.
Arguments Thrown {A}.

Definition M (A : Type) : Type :=
  Server -> Completion A * Server * list Output.

Definition ret {A} (a : A) : M A := fun s => (Normal a, s, []).

Definition bind {A B} (m : M A) (k : A -> M B) : M B := fun s =>
  match m s with
  | (Normal a, s1, o1) =>
      match k a s1 with (r, s2, o2) => (r, s2, o1 ++ o2) end
  | (Thrown, s1, o1) => (Thrown, s1, o1)
  end.

Definition throw {A} : M A := fun s => (Thrown, s, []).

(** [try { body } catch (e) { handler }] *)
Definition tryCatch {A} (body handler : M A) : M A := fun s =>
  match body s with
  | (Normal a, s1, o1) => (Normal a, s1, o1)
  | (Thrown, s1, o1) =>
      match handler s1 with (r, s2, o2) => (r, s2, o1 ++ o2) end
  end.

Notation "x <- m ;; k" := (bind m (fun x => k))
  (at level 61, m at next level, right associativity).
Notation "m ;;; k" := (bind m (fun _ => k))
  (at level 61, right associativity).

(** [ws.send(JSON.stringify(event))] *)
Definition send (ws : WebSocket) (e : ServerEvent) : M unit :=
  fun s => (Normal tt, s, [(ws, e)]).

Definition is_open (s : Server) (ws : WebSocket) : bool :=
  existsb (Nat.eqb ws) (openSockets s).

(** ** DatabaseStorage

    Each method takes the database and returns its result with the
    database after the statement; [None] is a rejected statement, which
    the method's promise turns into a throw.  The constraints are those of
    the schema: [rooms.code] is unique, [chat_messages.message] is not
    null.  An insert that a constraint rejects has already drawn its key
    from the sequence; a statement that is refused for one of its
    parameters has not run at all.  The store is taken to be reachable. *)

(** What a [select] by a text gives: the statement is refused, or it is
    run and no row or a row comes back. *)
Inductive Lookup (A : Type) : Type :=
| Refused
| Missing
| Found (a : A).

Arguments Refused {A}.
Arguments Missing {A}.
Arguments Found {A} a.

Module storage.

(** The texts PostgreSQL takes as a parameter of type [text]: those that do
    not hold the character U+0000.  A statement with another text is
    refused when its parameters are bound, before it runs.  The handlers
    pass a text of the client to two statements: the code of [join_room],
    and the name and the text of a chat message. *)
Definition accepts (text : string) : bool :=
  JS.forallb_string (fun c => negb (Ascii.eqb c Ascii.zero)) text.

(** The same for a parameter that may be [null]. *)
Definition accepts_field (text : option string) : bool :=
  match text with
  | Some t => accepts t
  | None => true
  end.

Definition createRoom (code : string) (d : DB) : option Room.t * DB :=
  let id := (rooms_id_seq d + 1)%Z in
  if existsb (fun r => String.eqb (Room.code r) code) (rooms d)
  then (None,
        mkDB (rooms d) (games d) (chatMessages d)
             id (games_id_seq d) (chat_messages_id_seq d))
  else
    let room := Room.mk id code None None true in
    (Some room,
     mkDB (rooms d ++ [room]) (games d) (chatMessages d)
          id (games_id_seq d) (chat_messages_id_seq d)).

Definition getRoomByCode (code : option string) (d : DB) : Lookup Room.t :=
  match code with
  | Some c =>
      if accepts c then
        match find (fun r => String.eqb (Room.code r) c) (rooms d) with
        | Some room => Found room
        | None => Missing
        end
      else Refused
  | None => Missing
  end.

Definition updateRoom (id : Z) (updates : Room.t -> Room.t) (d : DB) : DB :=
  mkDB (map (fun r => if Z.eqb (Room.id r) id then updates r else r) (rooms d))
       (games d) (chatMessages d)
       (rooms_id_seq d) (games_id_seq d) (chat_messages_id_seq d).

Definition createGame (roomId : Z) (currentTurn : Color) (boardState : string)
    (moveHistory : list string) (status : Status) (d : DB) : Game.t * DB :=
  let id := (games_id_seq d + 1)%Z in
  let game := Game.mk id roomId currentTurn boardState moveHistory status None in
  (game,
   mkDB (rooms d) (games d ++ [game]) (chatMessages d)
        (rooms_id_seq d) id (chat_messages_id_seq d)).

Definition getGameByRoomId (roomId : Z) (d : DB) : option Game.t :=
  find (fun g => Z.eqb (Game.roomId g) roomId) (games d).

Definition updateGame (id : Z) (updates : Game.t -> Game.t) (d : DB) : DB :=
  mkDB (rooms d)
       (map (fun g => if Z.eqb (Game.id g) id then updates g else g) (games d))
       (chatMessages d)
       (rooms_id_seq d) (games_id_seq d) (chat_messages_id_seq d).

Definition addChatMessage (roomId : Z) (playerId : option Z)
    (playerName : string) (message : option string) (d : DB)
  : option ChatMessage.t * DB :=
  let id := (chat_messages_id_seq d + 1)%Z in
  if accepts playerName && accepts_field message then
    match message with
    | None =>
        (None,
         mkDB (rooms d) (games d) (chatMessages d)
              (rooms_id_seq d) (games_id_seq d) id)
    | Some text =>
        let row := ChatMessage.mk id roomId playerId playerName text in
        (Some row,
         mkDB (rooms d) (games d) (chatMessages d ++ [row])
              (rooms_id_seq d) (games_id_seq d) id)
    end
  else (None, d).

Definition getChatMessages (roomId : Z) (d : DB) : list ChatMessage.t :=
  filter (fun c => Z.eqb (ChatMessage.roomId c) roomId) (chatMessages d).

End storage.

(** The partial updates the handlers pass to [updateRoom] and
    [updateGame]. *)
Definition set_player1Id (v : Z) (r : Room.t) : Room.t :=
  Room.mk (Room.id r) (Room.code r) (Some v) (Room.player2Id r)
          (Room.isActive r).

Definition set_player2Id (v : Z) (r : Room.t) : Room.t :=
  Room.mk (Room.id r) (Room.code r) (Room.player1Id r) (Some v)
          (Room.isActive r).

Definition set_status (st : Status) (g : Game.t) : Game.t :=
  Game.mk (Game.id g) (Game.roomId g) (Game.currentTurn g) (Game.boardState g)
          (Game.moveHistory g) st (Game.winner g).

Definition set_status_winner (st : Status) (win : option Color) (g : Game.t)
  : Game.t :=
  Game.mk (Game.id g) (Game.roomId g) (Game.currentTurn g) (Game.boardState g)
          (Game.moveHistory g) st win.

Definition set_position (boardState : string) (currentTurn : Color)
    (moveHistory : list string) (st : Status) (win : option Color)
    (g : Game.t) : Game.t :=
  Game.mk (Game.id g) (Game.roomId g) currentTurn boardState moveHistory st win.

(** Lifting of the storage methods to the handlers' effects. *)
Definition query {A} (f : DB -> A) : M A :=
  fun s => (Normal (f (db s)), s, []).

Definition execute (f : DB -> DB) : M unit :=
  fun s => (Normal tt, mkServer (clients s) (openSockets s) (f (db s)), []).

(** A [select] that the store may refuse: the promise is then rejected. *)
Definition select {A} (f : DB -> Lookup A) : M (option A) :=
  fun s => match f (db s) with
           | Refused => (Thrown, s, [])
           | Missing => (Normal None, s, [])
           | Found a => (Normal (Some a), s, [])
           end.

Definition insert {A} (f : DB -> A * DB) : M A :=
  fun s => match f (db s) with
           | (a, d) => (Normal a, mkServer (clients s) (openSockets s) d, [])
           end.

Definition insert_checked {A} (f : DB -> option A * DB) : M A :=
  fun s => match f (db s) with
           | (Some a, d) => (Normal a, mkServer (clients s) (openSockets s) d, [])
           | (None, d) => (Thrown, mkServer (clients s) (openSockets s) d, [])
           end.

(** ** The [clients] map *)

(** [clients.get(ws)] *)
Definition clients_get (ws : WebSocket)
    (cs : list (WebSocket * ClientConnection)) : option ClientConnection :=
  match find (fun e => Nat.eqb (fst e) ws) cs with
  | Some e => Some (snd e)
  | None => None
  end.

(** [clients.set(ws, c)]: an existing key keeps its place. *)
Fixpoint clients_set (ws : WebSocket) (c : ClientConnection)
    (cs : list (WebSocket * ClientConnection))
  : list (WebSocket * ClientConnection) :=
  match cs with
  | [] => [(ws, c)]
  | e :: r => if Nat.eqb (fst e) ws then (ws, c) :: r
              else e :: clients_set ws c r
  end.

(** [clients.delete(ws)] *)
Definition clients_delete (ws : WebSocket)
    (cs : list (WebSocket * ClientConnection))
  : list (WebSocket * ClientConnection) :=
  filter (fun e => negb (Nat.eqb (fst e) ws)) cs.

(** The assignments to the fields of the object [clients.get(ws)] returned:
    the entry of [ws] is changed where it stands. *)
Definition assign_client (ws : WebSocket) (c : ClientConnection)
    (cs : list (WebSocket * ClientConnection))
  : list (WebSocket * ClientConnection) :=
  map (fun e => if Nat.eqb (fst e) ws then (fst e, c) else e) cs.

Definition getClient (ws : WebSocket) : M (option ClientConnection) :=
  fun s => (Normal (clients_get ws (clients s)), s, []).

(** [const client = clients.get(ws); if (client) { client.roomId = ...;
    client.playerId = ...; client.playerName = ...; client.color = ... }] *)
Definition bindClient (ws : WebSocket) (c : ClientConnection) : M unit :=
  fun s =>
    match clients_get ws (clients s) with
    | Some _ =>
        (Normal tt,
         mkServer (assign_client ws c (clients s)) (openSockets s) (db s), [])
    | None => (Normal tt, s, [])
    end.

(** [client.roomId === roomId] *)
Definition in_room (c : ClientConnection) (rid : Z) : bool :=
  match roomId c with
  | Some r => Z.eqb r rid
  | None => false
  end.

Definition is_excluded (exclude : option WebSocket) (ws : WebSocket) : bool :=
  match exclude with
  | Some x => Nat.eqb ws x
  | None => false
  end.

(** The connections [broadcastToRoom] sends to, in the order of the map. *)
Definition recipients (s : Server) (rid : Z) (exclude : option WebSocket)
  : list WebSocket :=
  map fst
    (filter (fun e => in_room (snd e) rid
                      && negb (is_excluded exclude (fst e))
                      && is_open s (fst e))
            (clients s)).

Definition broadcastToRoom (rid : Z) (message : ServerEvent)
    (exclude : option WebSocket) : M unit :=
  fun s => (Normal tt, s, map (fun x => (x, message)) (recipients s rid exclude)).

(** ** Room codes *)

(** [Math.random().toString(36).substring(2, 8).toUpperCase()], as a
    function of the text [r] that [Math.random().toString(36)] gave. *)
Definition generateRoomCode (r : string) : string :=
  JS.toUpperCase (JS.substring 2 8 r).

Definition is_base36_digit (c : ascii) : bool :=
  JS.is_digit c || JS.is_lower c.

(** The texts [toString(36)] gives for a number in [[0, 1)]: ["0"], or
    ["0."] followed by at least one digit of base 36. *)
Definition is_unit_base36 (r : string) : bool :=
  match r with
  | "0" => true
  | String "0" (String "." (String c ds)) =>
      is_base36_digit c && JS.forallb_string is_base36_digit ds
  | _ => false
  end.

Definition is_code_char (c : ascii) : bool := JS.is_upper c || JS.is_digit c.

(** ** The message handlers *)

Section Handlers.

Context {E : RulesEngine}.

Definition color_of_side (x : Side) : Color :=
  match x with w => white | b => black end.

Definition side_of_color (c : Color) : Side :=
  match c with white => w | black => b end.

Definition opposite (c : Color) : Color :=
  match c with white => black | black => white end.

Definition handleCreateRoom (r : string) (ws : WebSocket) (message : Message)
  : M unit :=
  tryCatch
    (let code := generateRoomCode r in
     room <- insert_checked (storage.createRoom code) ;;
     let chess := newChess in
     game <- insert (storage.createGame (Room.id room) white (fen chess) []
                                        waiting) ;;
     bindClient ws
       (mkClient (Some (Room.id room)) (Some 1%Z)
                 (Some (JS.or_else (msg_playerName message) "Player 1"))
                 (Some white)) ;;;
     execute (storage.updateRoom (Room.id room) (set_player1Id 1)) ;;;
     send ws (room_created code (Room.id room) white
                           (mkBrief (fen chess) white [] waiting)))
    (send ws (error "Failed to create room")).

Definition handleJoinRoom (ws : WebSocket) (message : Message) : M unit :=
  tryCatch
    (room <- select (storage.getRoomByCode (msg_roomCode message)) ;;
     match room with
     | None => send ws (error "Room not found")
     | Some room =>
         if JS.truthy_number (Room.player2Id room)
         then send ws (error "Room is full")
         else
           execute (storage.updateRoom (Room.id room) (set_player2Id 2)) ;;;
           bindClient ws
             (mkClient (Some (Room.id room)) (Some 2%Z)
                       (Some (JS.or_else (msg_playerName message) "Player 2"))
                       (Some black)) ;;;
           game <- query (storage.getGameByRoomId (Room.id room)) ;;
           match game with
           | None => send ws (error "Game not found")
           | Some game =>
               execute (storage.updateGame (Game.id game) (set_status active)) ;;;
               chat <- query (storage.getChatMessages (Room.id room)) ;;
               let gameState :=
                 mkBrief (Game.boardState game) (Game.currentTurn game)
                         (Game.moveHistory game) active in
               send ws (room_joined (Room.code room) (Room.id room) black
                                    gameState chat) ;;;
               broadcastToRoom (Room.id room) (game_started gameState) None
           end
     end)
    (send ws (error "Failed to join room")).

(** The guard [!client || !client.roomId] of the handlers of a bound session:
    the room of a bound session. *)
Definition boundRoom (client : option ClientConnection) : option Z :=
  match client with
  | Some c => if JS.truthy_number (roomId c) then roomId c else None
  | None => None
  end.

(** One call [chess.move(request)]: the call made, and what it gave. *)
Definition callMove (chess : Chess) (request : MoveRequest)
  : list MoveRequest * MoveOutcome Chess :=
  ([request], move chess request).

(** The inner [try]/[catch] of [handleMakeMove]: the calls made to
    [chess.move], in order, and the move with the position after it when
    one of them returned a move. *)
Definition tryMove (chess : Chess) (message : Message)
  : list MoveRequest * option (Move * Chess) :=
  let first := Build_MoveRequest (msg_from message) (msg_to message) None in
  let (calls, outcome) := callMove chess first in
  match outcome with
  | Moved m p => (calls, Some (m, p))
  | MoveNull => (calls, None)
  | MoveThrows =>
      if JS.truthy_string (msg_promotion message) then
        let second :=
          Build_MoveRequest (msg_from message) (msg_to message)
                            (msg_promotion message) in
        let (retry, outcome) := callMove chess second in
        (calls ++ retry,
         match outcome with
         | Moved m p => Some (m, p)
         | MoveNull => None
         | MoveThrows => None
         end)
      else (calls, None)
  end.

(** [new Chess(game.boardState)] *)
Definition loadChess (boardState : string) : M Chess :=
  match loadFen boardState with
  | Some chess => ret chess
  | None => throw
  end.

Definition handleMakeMove (ws : WebSocket) (message : Message) : M unit :=
  tryCatch
    (client <- getClient ws ;;
     match client, boundRoom client with
     | Some client, Some rid =>
       game <- query (storage.getGameByRoomId rid) ;;
       match game with
       | None => send ws (error "Game not found")
       | Some game =>
         if negb (Status_eqb (Game.status game) active)
         then send ws (error "Game is not active")
         else if negb (color_is (color client) (Game.currentTurn game))
         then send ws (error "Not your turn")
         else
           chess <- loadChess (Game.boardState game) ;;
           match get chess (msg_from message) with
           | None => send ws (error "No piece at source square")
           | Some found =>
             let expectedColor := side_of_color (Game.currentTurn game) in
             if negb (Side_eqb (piece_color found) expectedColor)
             then send ws (error "Cannot move opponent's piece")
             else
               match snd (tryMove chess message) with
               | None => send ws (error "Invalid move")
               | Some (move, chess) =>
                 let newMoveHistory := Game.moveHistory game ++ [san move] in
                 let nextTurn := color_of_side (turn chess) in
                 let gameStatus :=
                   if isCheckmate chess then checkmate else active in
                 let winner :=
                   if isCheckmate chess then Some (Game.currentTurn game)
                   else None in
                 execute (storage.updateGame (Game.id game)
                            (set_position (fen chess) nextTurn
                               newMoveHistory gameStatus winner)) ;;;
                 broadcastToRoom rid
                   (move_made
                      (mkMoveInfo (msg_from message) (msg_to message)
                         (msg_promotion message) (san move)
                         (piece move) (captured move))
                      (mkFull (fen chess) nextTurn newMoveHistory
                         gameStatus winner (inCheck chess)
                         (isCheckmate chess) false false (turn chess)
                         (negb (Status_eqb gameStatus active))))
                   None
               end
           end
       end
     | _, _ => send ws (error "Not in a room")
     end)
    (send ws (error "Failed to make move")).

Definition handleSendChat (ws : WebSocket) (message : Message) : M unit :=
  tryCatch
    (client <- getClient ws ;;
     match client, boundRoom client with
     | Some client, Some rid =>
         chatMessage <-
           insert_checked
             (storage.addChatMessage rid
                (if JS.truthy_number (playerId client) then playerId client
                 else None)
                (JS.or_else (playerName client) "Anonymous")
                (msg_message message)) ;;
         broadcastToRoom rid
           (chat_message (ChatMessage.id chatMessage)
                         (ChatMessage.playerName chatMessage)
                         (ChatMessage.message chatMessage))
           None
     | _, _ => send ws (error "Not in a room")
     end)
    (send ws (error "Failed to send chat message")).

Definition handleResign (ws : WebSocket) : M unit :=
  tryCatch
    (client <- getClient ws ;;
     match client, boundRoom client with
     | Some client, Some rid =>
         game <- query (storage.getGameByRoomId rid) ;;
         match game with
         | None => send ws (error "Game not found")
         | Some game =>
             let winner := if color_is (color client) white then black
                           else white in
             execute (storage.updateGame (Game.id game)
                        (set_status_winner resigned (Some winner))) ;;;
             broadcastToRoom rid (game_ended winner (color client)) None
         end
     | _, _ => send ws (error "Not in a room")
     end)
    (send ws (error "Failed to resign")).

Definition handleOfferDraw (ws : WebSocket) : M unit :=
  tryCatch
    (client <- getClient ws ;;
     match client, boundRoom client with
     | Some client, Some rid =>
         broadcastToRoom rid (draw_offered (color client)) (Some ws)
     | _, _ => send ws (error "Not in a room")
     end)
    (send ws (error "Failed to offer draw")).

(** [message.type === t] *)
Definition type_is (message : Message) (t : string) : bool :=
  match msg_type message with
  | Some x => String.eqb x t
  | None => false
  end.

(** The [switch] on [message.type]: the cases are compared in order and
    there is no [default] case.  [r] is the text of the random number
    [handleCreateRoom] draws. *)
Definition handleWebSocketMessage (r : string) (ws : WebSocket)
    (message : Message) : M unit :=
  client <- getClient ws ;;
  match client with
  | None => ret tt
  | Some _ =>
      if type_is message "create_room" then handleCreateRoom r ws message
      else if type_is message "join_room" then handleJoinRoom ws message
      else if type_is message "make_move" then handleMakeMove ws message
      else if type_is message "send_chat" then handleSendChat ws message
      else if type_is message "resign" then handleResign ws
      else if type_is message "offer_draw" then handleOfferDraw ws
      else ret tt
  end.

(** The [catch] of the [message] listener. *)
Definition invalidFormat (ws : WebSocket) : M unit :=
  fun s => if is_open s ws
           then send ws (error "Invalid message format") s
           else ret tt s.

(** [ws.on('message', ...)] *)
Definition onMessage (r : string) (ws : WebSocket) (data : Inbound) : M unit :=
  tryCatch
    (match data with
     | Unparseable => throw
     | ParsedNull => throw
     | Parsed message => handleWebSocketMessage r ws message
     end)
    (invalidFormat ws).

(** [wss.on('connection', ...)]: the socket is open from here on. *)
Definition onConnection (ws : WebSocket) : M unit :=
  fun s =>
    (Normal tt,
     mkServer (clients_set ws freshClient (clients s))
              (ws :: openSockets s) (db s),
     [(ws, connected)]).

(** [ws.on('close', ...)] and [ws.on('error', ...)] *)
Definition onClose (ws : WebSocket) : M unit :=
  fun s =>
    (Normal tt,
     mkServer (clients_delete ws (clients s))
              (filter (fun x => negb (Nat.eqb x ws)) (openSockets s)) (db s),
     []).

(** The state and the sends of a run, whatever its completion. *)
Definition run (m : M unit) (s : Server) : Server * list Output :=
  match m s with (_, s', out) => (s', out) end.

(** What the server process reacts to. *)
Inductive Event :=
| Connection (ws : WebSocket)
| Received (r : string) (ws : WebSocket) (data : Inbound)
| Closed (ws : WebSocket).

Definition react (e : Event) : M unit :=
  match e with
  | Connection ws => onConnection ws
  | Received r ws data => onMessage r ws data
  | Closed ws => onClose ws
  end.

(** The process at start: no client, an empty database. *)
Definition initial : Server := mkServer [] [] emptyDB.

(** The state after a sequence of events, each handled to completion
    before the next is read: the runs in which no two handlers are in
    flight at once.  The listener does not wait for a handler, so these are
    not all the runs of the server. *)
Definition after (events : list Event) : Server :=
  fold_left (fun s e => fst (run (react e) s)) events initial.

(** The same from a state [s] on. *)
Definition continue (s : Server) (events : list Event) : Server :=
  fold_left (fun s e => fst (run (react e) s)) events s.

End Handlers.

(** ** Properties the statements below are phrased with *)

Section Properties.

Context {E : RulesEngine}.

(** Replaying a move history by its notations, [chess.move(san)] for each
    entry in order. *)
Fixpoint replay (chess : Chess) (history : list string) : option Chess :=
  match history with
  | [] => Some chess
  | s :: rest =>
      match moveSan chess s with
      | Some chess' => replay chess' rest
      | None => None
      end
  end.

(** The FEN reached by replaying a history from the start position. *)
Definition replayFen (history : list string) : option string :=
  match replay newChess history with
  | Some chess => Some (fen chess)
  | None => None
  end.

(** The consistency property of a game row. *)
Definition consistent (g : Game.t) : Prop :=
  replayFen (Game.moveHistory g) = Some (Game.boardState g).

(** Every game row of the database is consistent. *)
Definition games_consistent (s : Server) : Prop :=
  Forall consistent (games (db s)).

(** The turn of a game row is the side to move of its position. *)
Definition turn_agrees (g : Game.t) : Prop :=
  exists chess, loadFen (Game.boardState g) = Some chess /\
                Game.currentTurn g = color_of_side (turn chess).

(** The session of [ws] is bound to room [rid] and the room has the game
    row [game]. *)
Definition playing (s : Server) (ws : WebSocket) (client : ClientConnection)
    (rid : Z) (game : Game.t) : Prop :=
  clients_get ws (clients s) = Some client /\
  boundRoom (Some client) = Some rid /\
  storage.getGameByRoomId rid (db s) = Some game.

(** The failing preconditions of [make_move], in the order the handler
    checks them, each with the message of its error event. *)
Inductive MoveRejected (s : Server) (ws : WebSocket) (message : Message)
  : string -> Prop :=
| NotActive client rid game :
    playing s ws client rid game ->
    Game.status game <> active ->
    MoveRejected s ws message "Game is not active"
| OutOfTurn client rid game :
    playing s ws client rid game ->
    Game.status game = active ->
    color client <> Some (Game.currentTurn game) ->
    MoveRejected s ws message "Not your turn"
| NoPiece client rid game chess :
    playing s ws client rid game ->
    Game.status game = active ->
    color client = Some (Game.currentTurn game) ->
    loadFen (Game.boardState game) = Some chess ->
    get chess (msg_from message) = None ->
    MoveRejected s ws message "No piece at source square"
| WrongOwner client rid game chess found :
    playing s ws client rid game ->
    Game.status game = active ->
    color client = Some (Game.currentTurn game) ->
    loadFen (Game.boardState game) = Some chess ->
    get chess (msg_from message) = Some found ->
    piece_color found <> side_of_color (Game.currentTurn game) ->
    MoveRejected s ws message "Cannot move opponent's piece".

(** The preconditions of [make_move] all hold: the handler reaches the
    move attempt on the position [chess]. *)
Definition move_allowed (s : Server) (ws : WebSocket) (message : Message)
    (client : ClientConnection) (rid : Z) (game : Game.t) (chess : Chess)
  : Prop :=
  playing s ws client rid game /\
  Game.status game = active /\
  color client = Some (Game.currentTurn game) /\
  loadFen (Game.boardState game) = Some chess /\
  exists found, get chess (msg_from message) = Some found /\
                piece_color found = side_of_color (Game.currentTurn game).

(** What a played move leaves: the row of [game] holds the position
    [chess'] after the move [m], and [move_made] is sent to every open
    connection of the room. *)
Definition commits (s : Server) (rid : Z) (game : Game.t) (message : Message)
    (m : Move) (chess' : Chess) : Server * list Output :=
  let gameStatus := if isCheckmate chess' then checkmate else active in
  let won := if isCheckmate chess' then Some (Game.currentTurn game) else None in
  let history := (Game.moveHistory game ++ [san m])%list in
  let nextTurn := color_of_side (turn chess') in
  (mkServer (clients s) (openSockets s)
     (storage.updateGame (Game.id game)
        (set_position (fen chess') nextTurn history gameStatus won) (db s)),
   map (fun x =>
          (x, move_made
                (mkMoveInfo (msg_from message) (msg_to message)
                   (msg_promotion message) (san m) (piece m) (captured m))
                (mkFull (fen chess') nextTurn history gameStatus won
                   (inCheck chess') (isCheckmate chess') false false
                   (turn chess') (negb (Status_eqb gameStatus active)))))
       (recipients s rid None)).

End Properties.

(** The failures of [join_room], with the message of the error event. *)
Inductive JoinRejected (s : Server) (message : Message) : string -> Prop :=
| RoomNotFound :
    storage.getRoomByCode (msg_roomCode message) (db s) = Missing ->
    JoinRejected s message "Room not found"
| RoomFull room :
    storage.getRoomByCode (msg_roomCode message) (db s) = Found room ->
    JS.truthy_number (Room.player2Id room) = true ->
    JoinRejected s message "Room is full"
| CodeRefused :
    storage.getRoomByCode (msg_roomCode message) (db s) = Refused ->
    JoinRejected s message "Failed to join room".

(** The chat messages the store takes: a text is there, and neither it nor
    the player name holds the character U+0000. *)
Definition storable (name : string) (message : option string) : bool :=
  match message with
  | Some text => storage.accepts name && storage.accepts text
  | None => false
  end.

(** The six message types of the [switch]. *)
Definition recognized (type : option string) : bool :=
  match type with
  | Some t =>
      existsb (String.eqb t)
        ["create_room"; "join_room"; "make_move"; "send_chat"; "resign";
         "offer_draw"]
  | None => false
  end.

Definition room_codes (d : DB) : list string := map Room.code (rooms d).

(** ** A miniature rules engine

    An instance of the interface for the examples: a position is a text
    whose first character is the side to move, followed by the notations
    of the moves played.  White has pieces on e2, a7 and h5, Black on e7
    and d7; a7-a8 needs a promotion piece; a move whose notation ends in
    [#] mates. *)

Module Mini.

Definition flipSide (p : string) : string :=
  match p with
  | String "b" r => String "w" r
  | String _ r => String "b" r
  | EmptyString => "b"
  end.

Definition turn (p : string) : Side :=
  match p with
  | String "b" _ => b
  | _ => w
  end.

Definition get (p : string) (square : option string) : option Piece :=
  match square with
  | Some "e2" => Some (Build_Piece "p" w)
  | Some "a7" => Some (Build_Piece "p" w)
  | Some "h5" => Some (Build_Piece "q" w)
  | Some "e7" => Some (Build_Piece "p" b)
  | Some "d7" => Some (Build_Piece "p" b)
  | _ => None
  end.

Definition played (p : string) (m : Move) : MoveOutcome string :=
  Moved m (flipSide p ++ san m)%string.

Definition move (p : string) (r : MoveRequest) : MoveOutcome string :=
  match get p (from r), to r with
  | Some pc, Some target =>
      if String.eqb target "a8" then
        match promotion r with
        | Some pr =>
            if String.eqb pr "" then MoveThrows
            else played p (Build_Move ("a8=" ++ JS.toUpperCase pr)%string "p" None)
        | None => MoveThrows
        end
      else if String.eqb target "f7" then
        played p (Build_Move "Qxf7#" (piece_type pc) (Some "p"))
      else played p (Build_Move target (piece_type pc) None)
  | _, _ => MoveThrows
  end.

Definition moveSan (p : string) (s : string) : option string :=
  Some (flipSide p ++ s)%string.

Fixpoint endsWithHash (p : string) : bool :=
  match p with
  | EmptyString => false
  | String c EmptyString => Ascii.eqb c "#"
  | String _ r => endsWithHash r
  end.

#[export] Instance engine : RulesEngine :=
  Build_RulesEngine string "w" (fun s => Some s) (fun p => p) turn get move
                    moveSan endsWithHash endsWithHash.

End Mini.

(** ** Example states *)

Module Examples.

Definition room1 : Room.t := Room.mk 1 "I5K9QZ" (Some 1%Z) (Some 2%Z) true.

Definition game1 (st : Status) (win : option Color) : Game.t :=
  Game.mk 1 1 white "w" [] st win.

Definition whiteClient : ClientConnection :=
  mkClient (Some 1%Z) (Some 1%Z) (Some "Ann") (Some white).

Definition blackClient : ClientConnection :=
  mkClient (Some 1%Z) (Some 2%Z) (Some "Bob") (Some black).

(** Two players seated in room 1, a third connection not in a room; the
    game of room 1 has status [st] and winner [win]. *)
Definition seated (st : Status) (win : option Color) : Server :=
  mkServer [(1%nat, whiteClient); (2%nat, blackClient); (3%nat, freshClient)]
           [1%nat; 2%nat; 3%nat]
           (mkDB [room1] [game1 st win] [] 1 1 0).

(** Room 1 after [create_room] only: the second seat is free. *)
Definition waitingRoom : Server :=
  mkServer [(1%nat, whiteClient); (3%nat, freshClient)]
           [1%nat; 3%nat]
           (mkDB [Room.mk 1 "I5K9QZ" (Some 1%Z) None true]
                 [game1 waiting None] [] 1 1 0).

Definition msg (type : string) : Message :=
  mkMessage (Some type) None None None None None None.

Definition moveMsg (f t : string) (promo : option string) : Message :=
  mkMessage (Some "make_move") None None (Some f) (Some t) promo None.

Definition joinMsg (code : string) : Message :=
  mkMessage (Some "join_room") (Some "Cy") (Some code) None None None None.

Definition chatMsg (text : option string) : Message :=
  mkMessage (Some "send_chat") None None None None None text.

End Examples.

(** ** Further properties the statements are phrased with *)

Definition is_error (e : ServerEvent) : bool :=
  match e with
  | error _ => true
  | _ => false
  end.

(** The sessions of [ws] and of [x] are bound to one room. *)
Definition same_room (s : Server) (ws x : WebSocket) : Prop :=
  exists rid c cx,
    clients_get ws (clients s) = Some c /\ roomId c = Some rid /\
    In (x, cx) (clients s) /\ roomId cx = Some rid.

(** What one message of connection [ws] may do to the sessions and whom
    its events may reach: the open sockets and the connections of the map
    stay, only the session of [ws] may change, and an event that goes to
    another connection is not an error event and goes to an open
    connection of the room [ws] is bound to afterwards. *)
Record contained (ws : WebSocket) (s s' : Server) (out : list Output)
  : Prop := mkContained
  { keeps_sockets : openSockets s' = openSockets s;
    keeps_connections : map fst (clients s') = map fst (clients s);
    keeps_others :
      forall x, x <> ws ->
                clients_get x (clients s') = clients_get x (clients s);
    addressed :
      forall x e, In (x, e) out ->
                  x = ws \/
                  (is_error e = false /\ is_open s x = true /\
                   same_room s' ws x) }.

(** A room row and a later version of it: key and code stay, and a seat
    is as it was or has been taken, seat 1 by player 1 and seat 2 by
    player 2, so that a seat that is taken stays taken. *)
Definition room_extends (r r' : Room.t) : Prop :=
  Room.id r' = Room.id r /\ Room.code r' = Room.code r /\
  (Room.player1Id r' = Room.player1Id r \/ Room.player1Id r' = Some 1%Z) /\
  (Room.player2Id r' = Room.player2Id r \/ Room.player2Id r' = Some 2%Z).

(** A game row and a later version of it: key and room stay. *)
Definition game_extends (g g' : Game.t) : Prop :=
  Game.id g' = Game.id g /\ Game.roomId g' = Game.roomId g.

(** A database and a later state of it: every table keeps its rows in
    place, up to the changes above, and new rows come at the end; chat
    rows never change. *)
Definition db_extends (d d' : DB) : Prop :=
  (exists rs new, rooms d' = (rs ++ new)%list /\
                  Forall2 room_extends (rooms d) rs) /\
  (exists gs new, games d' = (gs ++ new)%list /\
                  Forall2 game_extends (games d) gs) /\
  (exists new, chatMessages d' = (chatMessages d ++ new)%list).

(** The statements by which the handlers change the store, with the
    partial updates they pass. *)
Inductive Statement :=
| InsertRoom (code : string)
| SeatPlayer1 (id : Z)
| SeatPlayer2 (id : Z)
| InsertGame (roomId : Z) (currentTurn : Color) (boardState : string)
    (moveHistory : list string) (status : Status)
| SetStatus (id : Z) (status : Status)
| SetPosition (id : Z) (boardState : string) (currentTurn : Color)
    (moveHistory : list string) (status : Status) (winner : option Color)
| SetResult (id : Z) (status : Status) (winner : option Color)
| InsertChat (roomId : Z) (playerId : option Z) (playerName : string)
    (message : option string).

Definition perform (q : Statement) (d : DB) : DB :=
  match q with
  | InsertRoom code => snd (storage.createRoom code d)
  | SeatPlayer1 id => storage.updateRoom id (set_player1Id 1) d
  | SeatPlayer2 id => storage.updateRoom id (set_player2Id 2) d
  | InsertGame roomId currentTurn boardState moveHistory status =>
      snd (storage.createGame roomId currentTurn boardState moveHistory
                              status d)
  | SetStatus id status => storage.updateGame id (set_status status) d
  | SetPosition id boardState currentTurn moveHistory status winner =>
      storage.updateGame id
        (set_position boardState currentTurn moveHistory status winner) d
  | SetResult id status winner =>
      storage.updateGame id (set_status_winner status winner) d
  | InsertChat roomId playerId playerName message =>
      snd (storage.addChatMessage roomId playerId playerName message d)
  end.

(** The store after the statements [qs], in this order. *)
Definition performAll (qs : list Statement) (d : DB) : DB :=
  fold_left (fun d q => perform q d) qs d.

(** The keys of the database: rooms and games were created in pairs, the
    keys are positive, distinct and drawn from the sequences, and no two
    rooms share a code. *)
Definition keys_ok (d : DB) : Prop :=
  map Game.roomId (games d) = map Room.id (rooms d) /\
  NoDup (map Room.id (rooms d)) /\
  (0 <= rooms_id_seq d)%Z /\
  Forall (fun r => (0 < Room.id r <= rooms_id_seq d)%Z) (rooms d) /\
  NoDup (map Game.id (games d)) /\
  Forall (fun g => (Game.id g <= games_id_seq d)%Z) (games d) /\
  NoDup (room_codes d).

(** A session is unbound, or bound to a stored room with seat 1 as white
    or seat 2 as black and a name that is not empty. *)
Definition session_ok (d : DB) (c : ClientConnection) : Prop :=
  match roomId c with
  | None => c = freshClient
  | Some rid =>
      In rid (map Room.id (rooms d)) /\
      ((playerId c = Some 1%Z /\ color c = Some white) \/
       (playerId c = Some 2%Z /\ color c = Some black)) /\
      JS.truthy_string (playerName c) = true
  end.

(** The status of a game row is never [draw], and a finished game has a
    winner. *)
Definition status_ok (g : Game.t) : Prop :=
  Game.status g <> draw /\
  (Game.status g = checkmate \/ Game.status g = resigned ->
   Game.winner g <> None).

(** The invariant of the process state. *)
Definition server_ok (s : Server) : Prop :=
  keys_ok (db s) /\
  NoDup (map fst (clients s)) /\
  Forall (fun e => session_ok (db s) (snd e)) (clients s) /\
  Forall status_ok (games (db s)).

(** A computation that never ends in a throw. *)
Definition completes (m : M unit) : Prop :=
  forall s, fst (fst (m s)) = Normal tt.

(** The error events a message of each type can be answered with. *)
Definition error_reasons (message : Message) : list string :=
  if type_is message "create_room" then ["Failed to create room"]
  else if type_is message "join_room"
  then ["Room not found"; "Room is full"; "Game not found";
        "Failed to join room"]
  else if type_is message "make_move"
  then ["Not in a room"; "Game not found"; "Game is not active";
        "Not your turn"; "No piece at source square";
        "Cannot move opponent's piece"; "Invalid move";
        "Failed to make move"]
  else if type_is message "send_chat"
  then ["Not in a room"; "Failed to send chat message"]
  else if type_is message "resign"
  then ["Not in a room"; "Game not found"; "Failed to resign"]
  else if type_is message "offer_draw"
  then ["Not in a room"; "Failed to offer draw"]
  else [].

(** Characters of ASCII text. *)
Definition is_ascii (c : ascii) : bool := (nat_of_ascii c <? 128)%nat.

(** ** The client

    The pure parts of the client: the helpers of [chess-utils], the room
    code field of [RoomModal], the reconnection decisions of
    [useWebSocket] and the reactions of the [ChessGame] page to the
    server's events.  Text is ASCII. *)

Module Client.

(** [isValidRoomCode]: [/^[A-Z0-9]{6}$/.test(code)] *)
Definition isValidRoomCode (code : string) : bool :=
  Nat.eqb (String.length code) 6 && JS.forallb_string is_code_char code.

(** [s.replace(/[^A-Z0-9]/g, '')] *)
Fixpoint keepCodeChars (s : string) : string :=
  match s with
  | EmptyString => EmptyString
  | String c r =>
      if is_code_char c then String c (keepCodeChars r) else keepCodeChars r
  end.

(** [handleRoomCodeChange]: the new content of the room code field for the
    typed [value],
    [value.toUpperCase().replace(/[^A-Z0-9]/g, '').slice(0, 6)]. *)
Definition handleRoomCodeChange (value : string) : string :=
  JS.substring 0 6 (keepCodeChars (JS.toUpperCase value)).

(** [n.toString()] for a natural number: its decimal digits.  The fuel,
    the number of binary digits, is at least the number of decimal
    ones. *)
Definition digit (d : N) : ascii := ascii_of_N (48 + d).

Fixpoint toStringFuel (fuel : nat) (n : N) : string :=
  match fuel with
  | O => EmptyString
  | S fuel' =>
      if (n <? 10)%N then String (digit n) EmptyString
      else (toStringFuel fuel' (n / 10)
            ++ String (digit (n mod 10)) EmptyString)%string
  end.

Definition toString (n : N) : string := toStringFuel (S (N.size_nat n)) n.

(** [s.padStart(2, '0')] *)
Definition padStart2 (s : string) : string :=
  match s with
  | EmptyString => "00"
  | String c EmptyString => String "0" s
  | _ => s
  end.

(** [formatMoveTime], for a whole number of seconds. *)
Definition formatMoveTime (seconds : N) : string :=
  let minutes := (seconds / 60)%N in
  let remainingSeconds := (seconds mod 60)%N in
  (padStart2 (toString minutes) ++ ":" ++ padStart2 (toString remainingSeconds))%string.

(** The rows of the move list: the [reduce] over [moveHistory] that
    pushes, at every even index, the move with the next one or [''].
    [index] counts the moves passed, [rest] are those still to visit. *)
Fixpoint reduceMoves (moveHistory : list string) (index : nat)
    (rest : list string) (acc : list (string * string))
  : list (string * string) :=
  match rest with
  | [] => acc
  | move :: rest' =>
      reduceMoves moveHistory (S index) rest'
        (if Nat.even index
         then (acc ++ [(move, JS.or_else (nth_error moveHistory (S index)) "")])%list
         else acc)
  end.

Definition moveRows (moveHistory : list string) : list (string * string) :=
  reduceMoves moveHistory 0 moveHistory [].

(** The rows read two moves at a time, with [''] for a missing second
    move: what [moveRows] is compared with. *)
Fixpoint pairs (l : list string) : list (string * string) :=
  match l with
  | [] => []
  | [a] => [(a, "")]
  | a :: c :: rest => (a, c) :: pairs rest
  end.

(** [Math.ceil(moveHistory.length / 2)], the move counter of the page. *)
Definition moveCounter (moveHistory : list string) : nat :=
  ((List.length moveHistory + 1) / 2)%nat.

(** *** Reconnection ([useWebSocket]) *)

Record Hook := mkHook
  { isConnected : bool;
    hasSocket : bool;
    reconnectAttempts : nat;
    isConnecting : bool }.

Definition maxReconnectAttempts : nat := 3.

(** What happens to the connection, as the hook sees it. *)
Inductive HookEvent :=
| Connect                 (* [connect()], by the timer or the caller *)
| Opened                  (* [ws.onopen] *)
| SocketClosed (code : Z) (* [ws.onclose] *)
| Failed.                 (* [ws.onerror] *)

(** What the hook does in return, besides changing its state. *)
Inductive HookAction :=
| OpenSocket              (* [new WebSocket(wsUrl)] *)
| Reconnect (delay : Z).  (* [setTimeout(connect, delay)] *)

Definition hookStep (e : HookEvent) (h : Hook) : Hook * list HookAction :=
  match e with
  | Connect =>
      if isConnecting h then (h, [])
      else (mkHook (isConnected h) (hasSocket h) (reconnectAttempts h) true,
            [OpenSocket])
  | Opened => (mkHook true true 0 false, [])
  | SocketClosed code =>
      if negb (Z.eqb code 1000)
         && (reconnectAttempts h <? maxReconnectAttempts)%nat
      then
        let attempts := S (reconnectAttempts h) in
        (mkHook false false attempts false,
         [Reconnect (2000 + Z.of_nat attempts * 1000)%Z])
      else (mkHook false false (reconnectAttempts h) false, [])
  | Failed =>
      (mkHook (isConnected h) (hasSocket h) (reconnectAttempts h) false, [])
  end.

Fixpoint hookRun (events : list HookEvent) (h : Hook)
  : Hook * list HookAction :=
  match events with
  | [] => (h, [])
  | e :: rest =>
      let (h1, a1) := hookStep e h in
      let (h2, a2) := hookRun rest h1 in
      (h2, (a1 ++ a2)%list)
  end.

Definition is_reconnect (a : HookAction) : bool :=
  match a with Reconnect _ => true | OpenSocket => false end.

Definition is_opened (e : HookEvent) : bool :=
  match e with Opened => true | _ => false end.

(** *** The [ChessGame] page *)

(** The [gameState] the page keeps: the fields of the event it came from,
    the optional ones absent for the short form. *)
Record GameState := mkGameState
  { fen : string;
    currentTurn : Color;
    moveHistory : list string;
    status : Status;
    winner : option Color;
    check : option bool;
    checkmate : option bool;
    draw : option bool }.

Definition ofBrief (g : GameStateBrief) : GameState :=
  mkGameState (brief_fen g) (brief_currentTurn g) (brief_moveHistory g)
              (brief_status g) None None None None.

Definition ofFull (g : GameStateFull) : GameState :=
  mkGameState (gs_fen g) (gs_currentTurn g) (gs_moveHistory g) (gs_status g)
              (gs_winner g) (Some (gs_check g)) (Some (gs_checkmate g))
              (Some (gs_draw g)).

Record Page := mkPage
  { showRoomModal : bool;
    showGameOverModal : bool;
    roomCode : string;
    playerColor : option Color;
    chatMessages : list (Z * string * string);
    gameState : GameState;
    gameResult : option (string * string) }.

Definition winnerName (won : option Color) : string :=
  match won with Some white => "White" | _ => "Black" end.

Definition truthy (v : option bool) : bool :=
  match v with Some true => true | _ => false end.

(** [handleGameEnd(gameStateData, endData)]; [endData] is the winner of a
    [game_ended] event, whose reason is always [resignation]. *)
Definition handleGameEnd (gameStateData : option GameState)
    (endData : option Color) (p : Page) : Page :=
  let isCheckmate :=
    match gameStateData with Some g => truthy (checkmate g) | None => false end in
  let isDraw :=
    match gameStateData with Some g => truthy (draw g) | None => false end in
  let result :=
    if isCheckmate
    then Some ("Checkmate!",
               (winnerName (match gameStateData with
                            | Some g => winner g
                            | None => None
                            end) ++ " wins by checkmate")%string)
    else if isDraw then Some ("Draw!", "Game ended in a draw")
    else match endData with
         | Some won =>
             Some ("Game Over!",
                   (winnerName (Some won) ++ " wins by resignation")%string)
         | None => gameResult p
         end in
  mkPage (showRoomModal p) true (roomCode p) (playerColor p) (chatMessages p)
         (gameState p) result.

Definition setGameState (g : GameState) (p : Page) : Page :=
  mkPage (showRoomModal p) (showGameOverModal p) (roomCode p) (playerColor p)
         (chatMessages p) g (gameResult p).

(** The [onMessage] callback of the page. *)
Definition onMessage (message : ServerEvent) (p : Page) : Page :=
  match message with
  | room_created code _ color g =>
      mkPage false (showGameOverModal p) code (Some color) (chatMessages p)
             (ofBrief g) (gameResult p)
  | room_joined code _ color g chat =>
      mkPage false (showGameOverModal p) code (Some color)
             (map (fun c => (ChatMessage.id c, ChatMessage.playerName c,
                             ChatMessage.message c)) chat)
             (ofBrief g) (gameResult p)
  | game_started g => setGameState (ofBrief g) p
  | move_made _ g =>
      let p1 := setGameState (ofFull g) p in
      if truthy (checkmate (ofFull g)) || truthy (draw (ofFull g))
      then handleGameEnd (Some (ofFull g)) None p1
      else p1
  | chat_message id name text =>
      mkPage (showRoomModal p) (showGameOverModal p) (roomCode p)
             (playerColor p) (chatMessages p ++ [(id, name, text)])%list
             (gameState p) (gameResult p)
  | game_ended won _ => handleGameEnd None (Some won) p
  | _ => p
  end.

(** [handleMove]: the message sent for a move on the board, if any. *)
Definition handleMove (from to : string) (promotion : option string)
    (p : Page) : option Message :=
  if color_is (playerColor p) (currentTurn (gameState p))
  then Some (mkMessage (Some "make_move") None None (Some from) (Some to)
                       (if JS.truthy_string promotion then promotion else None)
                       None)
  else None.

End Client.

(** ** An example run *)

Module Scenario.

Definition createMsg (name : string) : Message :=
  mkMessage (Some "create_room") (Some name) None None None None None.

Definition joinMsg (code name : string) : Message :=
  mkMessage (Some "join_room") (Some name) (Some code) None None None None.

(** Two clients connect; the first creates a room, whose code is
    [I5K9QZ], and the second joins it. *)
Definition opening : list Event :=
  [Connection 1%nat;
   Received "0.i5k9qzabc" 1%nat (Parsed (createMsg "Ann"));
   Connection 2%nat;
   Received "0.zzzzzzzzz" 2%nat (Parsed (joinMsg "I5K9QZ" "Bob"))].

(** The state after [opening], with the miniature engine. *)
Definition started : Server :=
  mkServer
    [(1%nat, mkClient (Some 1%Z) (Some 1%Z) (Some "Ann") (Some white));
     (2%nat, mkClient (Some 1%Z) (Some 2%Z) (Some "Bob") (Some black))]
    [2%nat; 1%nat]
    (mkDB [Room.mk 1 "I5K9QZ" (Some 1%Z) (Some 2%Z) true]
          [Game.mk 1 1 white "w" [] active None] [] 1 1 0).

(** A page of White in a game where White is to move. *)
Definition whitePage : Client.Page :=
  Client.mkPage false false "I5K9QZ" (Some white) []
    (Client.mkGameState "w" white [] active None None None None) None.

End Scenario.

(** * Properties of the handlers *)

(** ** Auxiliary facts *)

Lemma Status_eqb_eq (a c : Status) : Status_eqb a c = true <-> a = c.
Proof. destruct a, c; simpl; split; intros H; try reflexivity; discriminate H. Qed.

Lemma Color_eqb_eq (a c : Color) : Color_eqb a c = true <-> a = c.
Proof. destruct a, c; simpl; split; intros H; try reflexivity; discriminate H. Qed.

Lemma Side_eqb_eq (x y : Side) : Side_eqb x y = true <-> x = y.
Proof. destruct x, y; simpl; split; intros H; try reflexivity; discriminate H. Qed.

Lemma color_is_eq (c : option Color) (t : Color) :
  color_is c t = true <-> c = Some t.
Proof.
  destruct c as [a|]; simpl.
  - rewrite Color_eqb_eq. split; intros H; [now subst | now inversion H].
  - split; intros H; discriminate H.
Qed.

Lemma Status_eqb_neq (a c : Status) : a <> c -> Status_eqb a c = false.
Proof.
  intros H. destruct (Status_eqb a c) eqn:Heq; [|reflexivity].
  apply Status_eqb_eq in Heq. contradiction.
Qed.

Lemma color_is_neq (c : option Color) (t : Color) :
  c <> Some t -> color_is c t = false.
Proof.
  intros H. destruct (color_is c t) eqn:Heq; [|reflexivity].
  apply color_is_eq in Heq. contradiction.
Qed.

Lemma Side_eqb_neq (x y : Side) : x <> y -> Side_eqb x y = false.
Proof.
  intros H. destruct (Side_eqb x y) eqn:Heq; [|reflexivity].
  apply Side_eqb_eq in Heq. contradiction.
Qed.

(** A row update that keeps what a search tests commutes with the
    search. *)
Lemma find_map_keeps {A} (p : A -> bool) (f : A -> A) (l : list A) :
  (forall x, p (f x) = p x) ->
  find p (map f l) = option_map f (find p l).
Proof.
  intros Hp. induction l as [|x l IH]; simpl; [reflexivity|].
  rewrite Hp. destruct (p x); [reflexivity | exact IH].
Qed.

Lemma find_some_test {A} (p : A -> bool) (l : list A) (x : A) :
  find p l = Some x -> p x = true.
Proof. intros H. apply find_some in H. apply H. Qed.

Lemma getRoomByCode_found (code : option string) (d : DB) (room : Room.t) :
  storage.getRoomByCode code d = Found room <->
  exists c, code = Some c /\ storage.accepts c = true /\
            find (fun r => String.eqb (Room.code r) c) (rooms d) = Some room.
Proof.
  unfold storage.getRoomByCode. split.
  - destruct code as [c|]; [|discriminate].
    destruct (storage.accepts c) eqn:Hc; [|discriminate].
    destruct (find _ (rooms d)) as [r|] eqn:Hr; [|discriminate].
    intros H. inversion H; subst. exists c.
    split; [reflexivity|]. split; [exact Hc | exact Hr].
  - intros (c & -> & -> & ->). reflexivity.
Qed.

Ltac unfold_effects :=
  unfold run, tryCatch, bind, getClient, query, select, execute, insert,
    insert_checked, send, broadcastToRoom, bindClient, ret, throw.

Section HandlerFacts.

Context {E : RulesEngine}.

(** C2. A [make_move] whose precondition fails (the game is not active,
    it is not the mover's turn, the source square is empty, the piece is
    the opponent's) sends the error event of that precondition to the
    mover's connection and nothing else, and leaves the whole process
    state, the game row included, as it was. *)
Theorem make_move_rejected_frame (s : Server) (ws : WebSocket)
    (message : Message) (reason : string) :
  MoveRejected s ws message reason ->
  run (handleMakeMove ws message) s = (s, [(ws, error reason)]).
Proof.
  intros H.
  destruct H as [client rid game (Hc & Hb & Hg) Hst
                |client rid game (Hc & Hb & Hg) Hst Hturn
                |client rid game chess (Hc & Hb & Hg) Hst Hturn Hload Hget
                |client rid game chess found (Hc & Hb & Hg) Hst Hturn Hload
                   Hget Hown];
    unfold handleMakeMove, loadChess; unfold_effects;
    rewrite Hc, Hb, Hg.
  - rewrite (Status_eqb_neq _ _ Hst). reflexivity.
  - rewrite Hst. simpl. rewrite (color_is_neq _ _ Hturn). reflexivity.
  - rewrite Hst. simpl.
    rewrite (proj2 (color_is_eq _ _) Hturn). simpl.
    rewrite Hload, Hget. reflexivity.
  - rewrite Hst. simpl.
    rewrite (proj2 (color_is_eq _ _) Hturn). simpl.
    rewrite Hload, Hget. rewrite (Side_eqb_neq _ _ Hown). reflexivity.
Qed.

Lemma tryMove_moved (chess chess' : Chess) (message : Message) (m : Move) :
  snd (tryMove chess message) = Some (m, chess') ->
  exists r, move chess r = Moved m chess'.
Proof.
  unfold tryMove, callMove. cbv beta iota zeta.
  destruct (move chess (Build_MoveRequest (msg_from message) (msg_to message) None))
    as [m1 p1| |] eqn:H1; simpl.
  - intros H. inversion H; subst. eexists; exact H1.
  - discriminate.
  - destruct (JS.truthy_string (msg_promotion message)); simpl; [|discriminate].
    destruct (move chess (Build_MoveRequest (msg_from message) (msg_to message)
                                            (msg_promotion message)))
      as [m2 p2| |] eqn:H2; simpl; try discriminate.
    intros H. inversion H; subst. eexists; exact H2.
Qed.

Lemma replay_snoc (chess : Chess) (history : list string) (s : string) :
  replay chess (history ++ [s]) =
  match replay chess history with
  | Some p => moveSan p s
  | None => None
  end.
Proof.
  revert chess. induction history as [|x history IH]; intros chess; simpl.
  - destruct (moveSan chess s); reflexivity.
  - destruct (moveSan chess x) as [p|]; [apply IH | reflexivity].
Qed.

(** A move played on the position of a consistent row gives a consistent
    row, whichever row receives the new history and board. *)
Lemma consistent_after_move `{!LawfulEngine E} (g x : Game.t)
    (chess chess' : Chess) (r : MoveRequest) (m : Move) (t : Color)
    (st : Status) (win : option Color) :
  consistent g ->
  loadFen (Game.boardState g) = Some chess ->
  move chess r = Moved m chess' ->
  consistent (set_position (fen chess') t (Game.moveHistory g ++ [san m]) st
                           win x).
Proof.
  unfold consistent, replayFen. simpl. intros Hg Hload Hmove.
  destruct (replay newChess (Game.moveHistory g)) as [p0|] eqn:Hrep;
    [|discriminate].
  inversion Hg as [Hfen]. rewrite <- Hfen, load_fen in Hload.
  inversion Hload; subst p0.
  rewrite replay_snoc, Hrep, (san_replays _ _ _ _ Hmove). reflexivity.
Qed.

(** C3. A [make_move] that passes the preconditions and whose move the
    rules engine accepts leaves a game row whose history is the old one
    with the move's notation appended, whose board is the FEN after the
    move and whose turn is the side to move of the new position; the row
    is [checkmate] with the mover as winner exactly when the engine
    reports checkmate, otherwise [active] without winner, and never
    [draw].  With a lawful engine the board stays the FEN of the replayed
    history and the turn flips. *)
Theorem make_move_commits (s : Server) (ws : WebSocket) (message : Message)
    (client : ClientConnection) (rid : Z) (game : Game.t)
    (chess chess' : Chess) (m : Move) :
  move_allowed s ws message client rid game chess ->
  snd (tryMove chess message) = Some (m, chess') ->
  exists game',
    storage.getGameByRoomId rid
      (db (fst (run (handleMakeMove ws message) s))) = Some game' /\
    Game.moveHistory game' = Game.moveHistory game ++ [san m] /\
    Game.boardState game' = fen chess' /\
    Game.currentTurn game' = color_of_side (turn chess') /\
    (Game.status game' = checkmate <-> isCheckmate chess' = true) /\
    (isCheckmate chess' = true -> Game.winner game' = color client) /\
    (isCheckmate chess' = false ->
     Game.status game' = active /\ Game.winner game' = None) /\
    Game.status game' <> draw /\
    (LawfulEngine E ->
     (consistent game -> consistent game') /\
     (turn_agrees game ->
      turn_agrees game' /\
      Game.currentTurn game' = opposite (Game.currentTurn game))).
Proof.
  intros ((Hc & Hb & Hg) & Hst & Hturn & Hload & found & Hget & Hown) Htry.
  exists (set_position (fen chess') (color_of_side (turn chess'))
            (Game.moveHistory game ++ [san m])
            (if isCheckmate chess' then checkmate else active)
            (if isCheckmate chess' then Some (Game.currentTurn game) else None)
            game).
  split.
  - unfold handleMakeMove, loadChess; unfold_effects.
    rewrite Hc, Hb, Hg, Hst. simpl.
    rewrite (proj2 (color_is_eq _ _) Hturn). simpl.
    rewrite Hload, Hget, Hown.
    rewrite (proj2 (Side_eqb_eq _ _) eq_refl). simpl.
    rewrite Htry. simpl.
    unfold storage.getGameByRoomId, storage.updateGame. simpl.
    rewrite find_map_keeps.
    + unfold storage.getGameByRoomId in Hg. rewrite Hg. simpl.
      rewrite Z.eqb_refl. reflexivity.
    + intros x. destruct (Z.eqb (Game.id x) (Game.id game)); reflexivity.
  - simpl.
    split; [reflexivity|]. split; [reflexivity|]. split; [reflexivity|].
    split; [destruct (isCheckmate chess'); split; intros H;
            (reflexivity || discriminate H)|].
    split; [intros ->; symmetry; exact Hturn|].
    split; [intros ->; split; reflexivity|].
    split; [destruct (isCheckmate chess'); discriminate|].
    intros Hlaw. destruct (tryMove_moved _ _ _ _ Htry) as [r Hmove]. split.
    + intros Hcons. eapply consistent_after_move; eassumption.
    + intros (p & Hp & Ht). rewrite Hload in Hp. inversion Hp; subst p.
      split; [exists chess'; simpl; split; [apply load_fen | reflexivity]|].
      rewrite Ht, (move_alternates _ _ _ _ Hmove).
      destruct (turn chess); reflexivity.
Qed.

(** The run of [make_move] once the preconditions hold: the move the
    attempt gave is played, or the mover is told [Invalid move]. *)
Lemma make_move_attempt (s : Server) (ws : WebSocket) (message : Message)
    (client : ClientConnection) (rid : Z) (game : Game.t) (chess : Chess) :
  move_allowed s ws message client rid game chess ->
  run (handleMakeMove ws message) s =
  match snd (tryMove chess message) with
  | Some (m, chess') => commits s rid game message m chess'
  | None => (s, [(ws, error "Invalid move")])
  end.
Proof.
  intros ((Hc & Hb & Hg) & Hst & Hturn & Hload & found & Hget & Hown).
  unfold handleMakeMove, loadChess; unfold_effects.
  rewrite Hc, Hb, Hg, Hst. simpl.
  rewrite (proj2 (color_is_eq _ _) Hturn). simpl.
  rewrite Hload, Hget, Hown.
  rewrite (proj2 (Side_eqb_eq _ _) eq_refl). simpl.
  destruct (snd (tryMove chess message)) as [[m chess']|]; reflexivity.
Qed.

(** C7. The handler first calls [chess.move] without a promotion piece.
    It calls it a second time, with the caller's promotion piece, exactly
    when the first call threw and a promotion piece was supplied, and
    never a third time.  A move the first call returns is the one that is
    played: the game row and the [move_made] events are those of that
    move.  When the first call threw and a promotion piece was supplied,
    what the second call gives decides: a move it returns is the one
    played, and when it returns none or throws the mover is told
    [Invalid move] and nothing changes.  A first call that returns no move
    without throwing is not retried: [Invalid move].  A move the first call
    does not accept, sent without a promotion piece, is answered by the
    error event [Invalid move] and changes nothing. *)
Theorem promotion_retry (s : Server) (ws : WebSocket) (message : Message)
    (client : ClientConnection) (rid : Z) (game : Game.t) (chess : Chess) :
  move_allowed s ws message client rid game chess ->
  let first := Build_MoveRequest (msg_from message) (msg_to message) None in
  let second := Build_MoveRequest (msg_from message) (msg_to message)
                                  (msg_promotion message) in
  let calls := fst (tryMove chess message) in
  let answer := run (handleMakeMove ws message) s in
  let invalid := (s, [(ws, error "Invalid move")]) in
  hd_error calls = Some first /\
  (calls = [first] \/ calls = [first; second]) /\
  (calls = [first; second] <->
   move chess first = MoveThrows /\
   JS.truthy_string (msg_promotion message) = true) /\
  (forall m p, move chess first = Moved m p ->
               snd (tryMove chess message) = Some (m, p) /\
               answer = commits s rid game message m p) /\
  (move chess first = MoveNull -> answer = invalid) /\
  (move chess first = MoveThrows ->
   JS.truthy_string (msg_promotion message) = true ->
   match move chess second with
   | Moved m p => snd (tryMove chess message) = Some (m, p) /\
                  answer = commits s rid game message m p
   | MoveNull => snd (tryMove chess message) = None /\ answer = invalid
   | MoveThrows => snd (tryMove chess message) = None /\ answer = invalid
   end) /\
  ((forall m p, move chess first <> Moved m p) ->
   JS.truthy_string (msg_promotion message) = false ->
   answer = invalid).
Proof.
  intros Hallowed first second calls answer invalid.
  subst calls answer invalid.
  rewrite (make_move_attempt _ _ _ _ _ _ _ Hallowed).
  unfold tryMove, callMove. cbv beta iota zeta. fold first second.
  split; [|split; [|split; [|split; [|split; [|split]]]]].
  - destruct (move chess first); [reflexivity..|].
    destruct (JS.truthy_string (msg_promotion message)); [|reflexivity].
    destruct (move chess second); reflexivity.
  - destruct (move chess first); [left; reflexivity..|].
    destruct (JS.truthy_string (msg_promotion message)); [|left; reflexivity].
    destruct (move chess second); right; reflexivity.
  - destruct (move chess first) as [m1 p1| |]; simpl;
      [split; [discriminate | intros [H _]; discriminate H]..|].
    destruct (JS.truthy_string (msg_promotion message)); simpl.
    + destruct (move chess second); simpl; split; intros _;
        (reflexivity || (split; reflexivity)).
    + split; [discriminate | intros [_ H]; discriminate H].
  - intros m p H. rewrite H. split; reflexivity.
  - intros H. rewrite H. reflexivity.
  - intros H Hpromo. rewrite H, Hpromo.
    destruct (move chess second) as [m2 p2| |]; split; reflexivity.
  - intros Hfirst Hpromo. rewrite Hpromo.
    destruct (move chess first) as [m1 p1| |] eqn:H1;
      [exfalso; exact (Hfirst _ _ eq_refl) | reflexivity..].
Qed.

Lemma in_room_eq (c : ClientConnection) (rid : Z) :
  in_room c rid = true <-> roomId c = Some rid.
Proof.
  unfold in_room. destruct (roomId c) as [r0|].
  - rewrite Z.eqb_eq. split; intros H; [now subst | now inversion H].
  - split; intros H; discriminate H.
Qed.

Lemma recipients_spec (s : Server) (rid : Z) (exclude : option WebSocket)
    (x : WebSocket) :
  In x (recipients s rid exclude) <->
  is_excluded exclude x = false /\ is_open s x = true /\
  exists c, In (x, c) (clients s) /\ roomId c = Some rid.
Proof.
  unfold recipients. rewrite in_map_iff. split.
  - intros ([y c] & Hx & Hin). simpl in Hx. subst y.
    apply filter_In in Hin. destruct Hin as [Hin Htest]. simpl in Htest.
    apply andb_prop in Htest. destruct Htest as [Htest Hopen].
    apply andb_prop in Htest. destruct Htest as [Hroom Hex].
    apply negb_true_iff in Hex. apply in_room_eq in Hroom.
    split; [exact Hex|]. split; [exact Hopen|]. exists c. now split.
  - intros (Hex & Hopen & c & Hin & Hroom).
    exists (x, c). split; [reflexivity|].
    apply filter_In. split; [exact Hin|]. simpl.
    rewrite (proj2 (in_room_eq _ _) Hroom), Hex, Hopen. reflexivity.
Qed.

(** C9. [offer_draw] from a session bound to a room changes nothing in
    the process state and sends one [draw_offered] event, naming the
    sender's colour, to each open connection bound to that room other
    than the sender, and to no other connection. *)
Theorem offer_draw_frame (s : Server) (ws : WebSocket)
    (client : ClientConnection) (rid : Z) :
  clients_get ws (clients s) = Some client ->
  boundRoom (Some client) = Some rid ->
  run (handleOfferDraw ws) s =
    (s, map (fun x => (x, draw_offered (color client)))
            (recipients s rid (Some ws))) /\
  forall x, In x (recipients s rid (Some ws)) <->
            x <> ws /\ is_open s x = true /\
            exists c, In (x, c) (clients s) /\ roomId c = Some rid.
Proof.
  intros Hc Hb. split.
  - unfold handleOfferDraw; unfold_effects. rewrite Hc, Hb. reflexivity.
  - intros x. rewrite recipients_spec. simpl.
    rewrite Nat.eqb_neq. reflexivity.
Qed.

(** C6, as amended.  A [join_room] whose room has its second seat taken
    is answered by the error event [Room is full]; one whose code the store
    takes and no room has by [Room not found]; one whose code the store
    refuses, a text that holds the character U+0000, by
    [Failed to join room].  In each case the event goes to the joining
    connection only and the process state stays as it was: no seat of the
    room, no session and no game row changes. *)
Theorem join_room_rejected_frame (s : Server) (ws : WebSocket)
    (message : Message) (reason : string) :
  JoinRejected s message reason ->
  run (handleJoinRoom ws message) s = (s, [(ws, error reason)]).
Proof.
  intros [Hnone | room Hroom Hfull | Hrefused];
    unfold handleJoinRoom; unfold_effects.
  - rewrite Hnone. reflexivity.
  - rewrite Hroom. simpl. rewrite Hfull. reflexivity.
  - rewrite Hrefused. reflexivity.
Qed.

(** A resignation does not look at the status of the game: whatever it
    was, the row becomes [resigned] with the other colour as winner. *)
Lemma resign_overwrites (s : Server) (ws : WebSocket)
    (client : ClientConnection) (rid : Z) (game : Game.t) :
  playing s ws client rid game ->
  storage.getGameByRoomId rid (db (fst (run (handleResign ws) s))) =
    Some (set_status_winner resigned
            (Some (if color_is (color client) white then black else white))
            game).
Proof.
  intros (Hc & Hb & Hg). unfold handleResign; unfold_effects.
  rewrite Hc, Hb, Hg. simpl.
  unfold storage.getGameByRoomId, storage.updateGame. simpl.
  rewrite find_map_keeps.
  - unfold storage.getGameByRoomId in Hg. rewrite Hg. simpl.
    rewrite Z.eqb_refl. reflexivity.
  - intros x. destruct (Z.eqb (Game.id x) (Game.id game)); reflexivity.
Qed.

(** *** Room codes *)

Lemma upper_char_code (c : ascii) :
  is_base36_digit c = true -> is_code_char (JS.upper_char c) = true.
Proof.
  destruct c as [[] [] [] [] [] [] [] []]; vm_compute; intros H;
    (reflexivity || discriminate H).
Qed.

Lemma forallb_substring0 (p : ascii -> bool) (n : nat) (s : string) :
  JS.forallb_string p s = true ->
  JS.forallb_string p (String.substring 0 n s) = true.
Proof.
  revert s. induction n as [|n IH]; intros [|c s] H; simpl; try reflexivity.
  simpl in H. apply andb_prop in H. destruct H as [Hc Hs].
  rewrite Hc. simpl. apply IH. exact Hs.
Qed.

Lemma toUpperCase_code (s : string) :
  JS.forallb_string is_base36_digit s = true ->
  JS.forallb_string is_code_char (JS.toUpperCase s) = true.
Proof.
  induction s as [|c s IH]; simpl; [reflexivity|]. intros H.
  apply andb_prop in H. destruct H as [Hc Hs].
  rewrite (upper_char_code _ Hc). simpl. apply IH. exact Hs.
Qed.

Lemma toUpperCase_length (s : string) :
  String.length (JS.toUpperCase s) = String.length s.
Proof. induction s as [|c s IH]; simpl; [reflexivity | now rewrite IH]. Qed.

Lemma substring_length (n m : nat) (s : string) :
  (n + m <= String.length s)%nat ->
  String.length (String.substring n m s) = m.
Proof.
  revert m s. induction n as [|n IHn].
  - induction m as [|m IHm]; intros [|c s] H; simpl in *; try reflexivity;
      try lia.
    rewrite IHm; [reflexivity | lia].
  - intros m [|c s] H; simpl in *; [lia|]. apply IHn. lia.
Qed.

Lemma generateRoomCode_chars (r : string) :
  is_unit_base36 r = true ->
  JS.forallb_string is_code_char (generateRoomCode r) = true.
Proof.
  unfold generateRoomCode, JS.substring. intros H. apply toUpperCase_code.
  destruct r as [|c0 [|c1 [|c2 ds]]]; try reflexivity.
  assert (Hds : JS.forallb_string is_base36_digit (String c2 ds) = true).
  { unfold is_unit_base36 in H.
    destruct c0 as [[] [] [] [] [] [] [] []]; try discriminate H.
    destruct c1 as [[] [] [] [] [] [] [] []]; try discriminate H.
    exact H. }
  change (String.substring 2 (8 - 2) (String c0 (String c1 (String c2 ds))))
    with (String.substring 0 6 (String c2 ds)).
  apply forallb_substring0. exact Hds.
Qed.

Lemma generateRoomCode_length (r : string) :
  (8 <= String.length r)%nat -> String.length (generateRoomCode r) = 6%nat.
Proof.
  intros H. unfold generateRoomCode, JS.substring.
  rewrite toUpperCase_length. apply substring_length. simpl. lia.
Qed.

Lemma existsb_code (c : string) (l : list Room.t) :
  existsb (fun x => String.eqb (Room.code x) c) l = true <->
  In c (map Room.code l).
Proof.
  rewrite existsb_exists, in_map_iff. split.
  - intros (x & Hin & Heq). apply String.eqb_eq in Heq. exists x. now split.
  - intros (x & Heq & Hin). exists x. split; [exact Hin|].
    apply String.eqb_eq. exact Heq.
Qed.

Lemma map_code_update (id : Z) (f : Room.t -> Room.t) (l : list Room.t) :
  (forall x, Room.code (f x) = Room.code x) ->
  map Room.code (map (fun x => if Z.eqb (Room.id x) id then f x else x) l) =
  map Room.code l.
Proof.
  intros Hf. rewrite map_map. apply map_ext. intros x.
  destruct (Z.eqb (Room.id x) id); [apply Hf | reflexivity].
Qed.

Lemma NoDup_snoc {A} (l : list A) (x : A) :
  NoDup l -> ~ In x l -> NoDup (l ++ [x]).
Proof.
  intros Hl Hx. induction Hl as [|y l Hy Hl IH]; simpl.
  - constructor; [intros [] | constructor].
  - constructor.
    + rewrite in_app_iff. intros [H | [H | []]]; [contradiction|].
      subst y. apply Hx. now left.
    + apply IH. intros H. apply Hx. now right.
Qed.

(** What [create_room] leaves in the [rooms] table. *)
Lemma create_room_codes (r : string) (ws : WebSocket) (message : Message)
    (s : Server) :
  room_codes (db (fst (run (handleCreateRoom r ws message) s))) =
  if existsb (fun x => String.eqb (Room.code x) (generateRoomCode r))
             (rooms (db s))
  then room_codes (db s)
  else room_codes (db s) ++ [generateRoomCode r].
Proof.
  unfold handleCreateRoom, storage.createRoom; unfold_effects. simpl.
  destruct (existsb _ (rooms (db s))); simpl; [reflexivity|].
  destruct (clients_get ws (clients s)); simpl;
    unfold room_codes; simpl;
    (rewrite map_code_update; [|reflexivity]);
    rewrite map_app; reflexivity.
Qed.

(** C4, as amended.  A room code is made of characters of [A-Z0-9] and
    has exactly 6 of them when the base-36 text of the random number has
    at least six digits after the point.  The codes of the stored rooms
    stay pairwise distinct, through the unique constraint of the table:
    a generated code that is already stored is not replaced by a second
    draw; the creator gets the error event [Failed to create room] and no
    room, game or session changes. *)
Theorem room_code_format_and_collision (r : string) (ws : WebSocket)
    (message : Message) (s : Server) :
  is_unit_base36 r = true ->
  let code := generateRoomCode r in
  let s' := fst (run (handleCreateRoom r ws message) s) in
  JS.forallb_string is_code_char code = true /\
  ((8 <= String.length r)%nat -> String.length code = 6%nat) /\
  (NoDup (room_codes (db s)) -> NoDup (room_codes (db s'))) /\
  (In code (room_codes (db s)) ->
   snd (run (handleCreateRoom r ws message) s) =
     [(ws, error "Failed to create room")] /\
   rooms (db s') = rooms (db s) /\ games (db s') = games (db s) /\
   clients s' = clients s).
Proof.
  intros Hr code s'. subst code s'.
  split; [apply generateRoomCode_chars; exact Hr|].
  split; [apply generateRoomCode_length|].
  split.
  - intros Hnd. rewrite create_room_codes.
    destruct (existsb _ (rooms (db s))) eqn:Hex; [exact Hnd|].
    apply NoDup_snoc; [exact Hnd|]. intros Hin.
    apply existsb_code in Hin. unfold room_codes in Hin.
    rewrite Hin in Hex. discriminate Hex.
  - intros Hin. apply existsb_code in Hin.
    unfold handleCreateRoom, storage.createRoom; unfold_effects. simpl.
    rewrite Hin. simpl. repeat split.
Qed.

Lemma type_is_unrecognized (message : Message) (t : string) :
  recognized (msg_type message) = false ->
  In t ["create_room"; "join_room"; "make_move"; "send_chat"; "resign";
        "offer_draw"] ->
  type_is message t = false.
Proof.
  unfold recognized, type_is. destruct (msg_type message) as [x|];
    [|reflexivity].
  intros Hex Hin. destruct (String.eqb x t) eqn:Heq; [|reflexivity].
  rewrite <- Hex. symmetry. apply existsb_exists. exists t. now split.
Qed.

(** C5, as amended.  A message that cannot be parsed, or parses to
    [null], is answered by the error event [Invalid message format], sent
    to the originating connection only and only when its socket is open.
    A message whose type is not one of the six recognized types is not
    answered at all.  In both cases the process state is left as it was
    and nothing is broadcast. *)
Theorem unhandled_message_frame (r : string) (ws : WebSocket) (data : Inbound)
    (s : Server) :
  match data with
  | Parsed message => recognized (msg_type message) = false
  | _ => True
  end ->
  run (onMessage r ws data) s =
    (s, match data with
        | Parsed _ => []
        | _ => if is_open s ws then [(ws, error "Invalid message format")]
               else []
        end).
Proof.
  destruct data as [| |message]; intros H.
  - unfold onMessage, invalidFormat; unfold_effects.
    destruct (is_open s ws); reflexivity.
  - unfold onMessage, invalidFormat; unfold_effects.
    destruct (is_open s ws); reflexivity.
  - unfold onMessage, handleWebSocketMessage; unfold_effects.
    destruct (clients_get ws (clients s)); [|reflexivity].
    rewrite !(type_is_unrecognized message) by (exact H || (simpl; tauto)).
    reflexivity.
Qed.

Lemma clients_get_assign (ws : WebSocket) (c c0 : ClientConnection)
    (cs : list (WebSocket * ClientConnection)) :
  clients_get ws cs = Some c0 ->
  clients_get ws (assign_client ws c cs) = Some c.
Proof.
  unfold clients_get, assign_client.
  induction cs as [|[x cx] cs IH]; simpl; [discriminate|].
  destruct (Nat.eqb x ws) eqn:Hx; simpl.
  - rewrite Hx. reflexivity.
  - rewrite Hx. exact IH.
Qed.

(** C8, as amended.  A session that is already bound is bound anew by
    every later [create_room] that stores its room and by every later
    [join_room] to a room whose second seat is free: to the created room
    as seat 1 and white, to the joined room as seat 2 and black, whatever
    room, seat and colour it held before. *)
Theorem rebinding_overwrites (r : string) (s : Server) (ws : WebSocket)
    (message : Message) (client : ClientConnection) :
  clients_get ws (clients s) = Some client ->
  (~ In (generateRoomCode r) (room_codes (db s)) ->
   clients_get ws (clients (fst (run (handleCreateRoom r ws message) s))) =
     Some (mkClient (Some (rooms_id_seq (db s) + 1)%Z) (Some 1%Z)
             (Some (JS.or_else (msg_playerName message) "Player 1"))
             (Some white))) /\
  (forall room,
     storage.getRoomByCode (msg_roomCode message) (db s) = Found room ->
     JS.truthy_number (Room.player2Id room) = false ->
     clients_get ws (clients (fst (run (handleJoinRoom ws message) s))) =
       Some (mkClient (Some (Room.id room)) (Some 2%Z)
               (Some (JS.or_else (msg_playerName message) "Player 2"))
               (Some black))).
Proof.
  intros Hc. split.
  - intros Hfree.
    assert (Hex : existsb (fun x => String.eqb (Room.code x) (generateRoomCode r))
                          (rooms (db s)) = false).
    { destruct (existsb _ (rooms (db s))) eqn:Hex; [|reflexivity].
      apply existsb_code in Hex. contradiction. }
    unfold handleCreateRoom, storage.createRoom; unfold_effects. simpl.
    rewrite Hex. simpl. rewrite Hc. simpl.
    eapply clients_get_assign. exact Hc.
  - intros room Hroom Hfree.
    unfold handleJoinRoom; unfold_effects. simpl.
    rewrite Hroom. simpl. rewrite Hfree. simpl. rewrite Hc. simpl.
    destruct (storage.getGameByRoomId (Room.id room) _); simpl;
      eapply clients_get_assign; exact Hc.
Qed.

(** C10, as amended.  [send_chat] from a session bound to a room does not
    look at the content of the message itself: every text the store takes,
    the empty one included, is stored as a new row and broadcast to every
    open connection of the room, the sender included; the stored and
    broadcast player name is [Anonymous] when the session has none.  What
    the store does not take is not stored: for a message without a text,
    and for a text or a player name that holds the character U+0000, the
    sender gets the error event [Failed to send chat message], nothing is
    broadcast and the chat rows stay as they were. *)
Theorem send_chat_behaviour (s : Server) (ws : WebSocket) (message : Message)
    (client : ClientConnection) (rid : Z) :
  clients_get ws (clients s) = Some client ->
  boundRoom (Some client) = Some rid ->
  let name := JS.or_else (playerName client) "Anonymous" in
  let id := (chat_messages_id_seq (db s) + 1)%Z in
  let s' := fst (run (handleSendChat ws message) s) in
  let out := snd (run (handleSendChat ws message) s) in
  (forall text,
     msg_message message = Some text ->
     storage.accepts name = true ->
     storage.accepts text = true ->
     chatMessages (db s') =
       chatMessages (db s) ++
       [ChatMessage.mk id rid
          (if JS.truthy_number (playerId client) then playerId client else None)
          name text] /\
     out = map (fun x => (x, chat_message id name text))
               (recipients s rid None)) /\
  (storable name (msg_message message) = false ->
   chatMessages (db s') = chatMessages (db s) /\
   out = [(ws, error "Failed to send chat message")]) /\
  (JS.truthy_string (playerName client) = false -> name = "Anonymous").
Proof.
  intros Hc Hb name id s' out. subst id s' out.
  split; [|split].
  - intros text Htext Hname Haccepts.
    unfold handleSendChat, storage.addChatMessage; unfold_effects.
    rewrite Hc, Hb, Htext. fold name. simpl.
    rewrite Hname, Haccepts. simpl. split; reflexivity.
  - unfold storable. intros Hnot.
    unfold handleSendChat, storage.addChatMessage; unfold_effects.
    rewrite Hc, Hb. fold name.
    destruct (msg_message message) as [text|]; simpl;
      [rewrite Hnot | destruct (storage.accepts name)]; simpl;
      split; reflexivity.
  - subst name. unfold JS.truthy_string, JS.or_else.
    destruct (playerName client) as [n|]; [|reflexivity].
    destruct (String.eqb n ""); [reflexivity | discriminate].
Qed.

(** *** Consistency of every game row, along any run *)

Lemma Forall_update {A} (P : A -> Prop) (test : A -> bool) (f : A -> A)
    (l : list A) :
  (forall x, P x -> test x = true -> P (f x)) ->
  Forall P l -> Forall P (map (fun x => if test x then f x else x) l).
Proof.
  intros Hf Hl. induction Hl as [|x l Hx Hl IH]; simpl; constructor.
  - destruct (test x) eqn:Ht; [now apply Hf | exact Hx].
  - exact IH.
Qed.

Lemma create_room_consistent (r : string) (ws : WebSocket)
    (message : Message) (s : Server) :
  games_consistent s ->
  games_consistent (fst (run (handleCreateRoom r ws message) s)).
Proof.
  unfold games_consistent. intros H.
  unfold handleCreateRoom, storage.createRoom; unfold_effects. simpl.
  destruct (existsb _ (rooms (db s))); simpl; [exact H|].
  destruct (clients_get ws (clients s)); simpl;
    (apply Forall_app; split; [exact H|]);
    constructor; constructor || reflexivity.
Qed.

Lemma join_room_consistent (ws : WebSocket) (message : Message) (s : Server) :
  games_consistent s ->
  games_consistent (fst (run (handleJoinRoom ws message) s)).
Proof.
  unfold games_consistent. intros H.
  unfold handleJoinRoom; unfold_effects. simpl.
  destruct (storage.getRoomByCode _ (db s)) as [| |room]; simpl;
    [exact H..|].
  destruct (JS.truthy_number (Room.player2Id room)); simpl; [exact H|].
  destruct (clients_get ws (clients s)); simpl;
    (destruct (storage.getGameByRoomId (Room.id room) _) as [game|]; simpl;
     [|exact H]);
    (apply (Forall_update consistent (fun x => Z.eqb (Game.id x) (Game.id game)));
     [intros x Hx _; exact Hx | exact H]).
Qed.

Lemma resign_consistent (ws : WebSocket) (s : Server) :
  games_consistent s -> games_consistent (fst (run (handleResign ws) s)).
Proof.
  unfold games_consistent. intros H.
  unfold handleResign; unfold_effects.
  destruct (clients_get ws (clients s)) as [client|]; simpl; [|exact H].
  destruct (JS.truthy_number (roomId client)); simpl; [|exact H].
  destruct (roomId client) as [rid|]; simpl; [|exact H].
  destruct (storage.getGameByRoomId rid (db s)) as [game|]; simpl; [|exact H].
  apply (Forall_update consistent (fun x => Z.eqb (Game.id x) (Game.id game)));
    [intros x Hx _; exact Hx | exact H].
Qed.

Lemma send_chat_consistent (ws : WebSocket) (message : Message) (s : Server) :
  games_consistent s ->
  games_consistent (fst (run (handleSendChat ws message) s)).
Proof.
  unfold games_consistent. intros H.
  unfold handleSendChat, storage.addChatMessage; unfold_effects.
  destruct (clients_get ws (clients s)) as [client|]; simpl; [|exact H].
  destruct (JS.truthy_number (roomId client)); simpl; [|exact H].
  destruct (roomId client) as [rid|]; simpl; [|exact H].
  destruct (msg_message message);
    destruct (storage.accepts _ && storage.accepts_field _); simpl; exact H.
Qed.

Lemma offer_draw_consistent (ws : WebSocket) (s : Server) :
  games_consistent s -> games_consistent (fst (run (handleOfferDraw ws) s)).
Proof.
  unfold games_consistent. intros H.
  unfold handleOfferDraw; unfold_effects.
  destruct (clients_get ws (clients s)) as [client|]; simpl; [|exact H].
  destruct (JS.truthy_number (roomId client)); simpl; [|exact H].
  destruct (roomId client) as [rid|]; simpl; exact H.
Qed.

Lemma make_move_consistent `{!LawfulEngine E} (ws : WebSocket)
    (message : Message) (s : Server) :
  games_consistent s ->
  games_consistent (fst (run (handleMakeMove ws message) s)).
Proof.
  unfold games_consistent. intros H.
  unfold handleMakeMove, loadChess; unfold_effects.
  destruct (clients_get ws (clients s)) as [client|]; simpl; [|exact H].
  destruct (JS.truthy_number (roomId client)); simpl; [|exact H].
  destruct (roomId client) as [rid|]; simpl; [|exact H].
  destruct (storage.getGameByRoomId rid (db s)) as [game|] eqn:Hg; simpl;
    [|exact H].
  destruct (Status_eqb (Game.status game) active); simpl; [|exact H].
  destruct (color_is (color client) (Game.currentTurn game)); simpl;
    [|exact H].
  destruct (loadFen (Game.boardState game)) as [chess|] eqn:Hload; simpl;
    [|exact H].
  destruct (get chess (msg_from message)) as [found|]; simpl; [|exact H].
  destruct (Side_eqb (piece_color found) (side_of_color (Game.currentTurn game)));
    simpl; [|exact H].
  destruct (snd (tryMove chess message)) as [[m chess']|] eqn:Htry; simpl;
    [|exact H].
  destruct (tryMove_moved _ _ _ _ Htry) as [rq Hmove].
  assert (Hgame : consistent game).
  { apply find_some in Hg. destruct Hg as [Hin _].
    rewrite Forall_forall in H. apply H. exact Hin. }
  apply (Forall_update consistent (fun x => Z.eqb (Game.id x) (Game.id game)));
    [|exact H].
  intros x _ _.
  exact (consistent_after_move game x chess chess' rq m _ _ _ Hgame Hload Hmove).
Qed.

Lemma run_catch_invalidFormat (body : M unit) (ws : WebSocket) (s : Server) :
  fst (run (tryCatch body (invalidFormat ws)) s) = fst (run body s).
Proof.
  unfold run, tryCatch. destruct (body s) as [[[a|] s1] o1]; simpl;
    [reflexivity|].
  unfold invalidFormat, send, ret. destruct (is_open s1 ws); reflexivity.
Qed.

Lemma run_getClient (ws : WebSocket) (k : option ClientConnection -> M unit)
    (s : Server) :
  fst (run (bind (getClient ws) k) s) =
  fst (run (k (clients_get ws (clients s))) s).
Proof.
  unfold run, bind, getClient.
  destruct (k (clients_get ws (clients s)) s) as [[c s2] o2]. reflexivity.
Qed.

(** With a lawful engine, whatever message arrives on whatever
    connection, the board of every game row stays the FEN of its replayed
    history. *)
Theorem games_stay_consistent `{!LawfulEngine E} (r : string) (ws : WebSocket)
    (data : Inbound) (s : Server) :
  games_consistent s ->
  games_consistent (fst (run (onMessage r ws data) s)).
Proof.
  intros H. unfold onMessage. rewrite run_catch_invalidFormat.
  destruct data as [| |message]; [exact H..|].
  unfold handleWebSocketMessage. rewrite run_getClient.
  destruct (clients_get ws (clients s)); [|exact H].
  destruct (type_is message "create_room");
    [now apply create_room_consistent|].
  destruct (type_is message "join_room"); [now apply join_room_consistent|].
  destruct (type_is message "make_move"); [now apply make_move_consistent|].
  destruct (type_is message "send_chat"); [now apply send_chat_consistent|].
  destruct (type_is message "resign"); [now apply resign_consistent|].
  destruct (type_is message "offer_draw"); [now apply offer_draw_consistent|].
  exact H.
Qed.

(** The same, for every state the process can reach. *)
Corollary reachable_games_consistent `{!LawfulEngine E} (events : list Event) :
  games_consistent (after events).
Proof.
  unfold after.
  assert (Hinit : games_consistent initial) by constructor.
  revert Hinit. generalize initial as s.
  induction events as [|e events IH]; intros s Hs; simpl; [exact Hs|].
  apply IH. destruct e as [ws | r ws data | ws].
  - exact Hs.
  - apply games_stay_consistent. exact Hs.
  - exact Hs.
Qed.

End HandlerFacts.

(** ** The miniature engine is lawful *)

Lemma mini_move_result (p p' : string) (r : MoveRequest) (m : Move) :
  Mini.move p r = Moved m p' -> p' = (Mini.flipSide p ++ san m)%string.
Proof.
  unfold Mini.move, Mini.played.
  destruct (Mini.get p (from r)) as [pc|]; [|discriminate].
  destruct (to r) as [target|]; [|discriminate].
  destruct (String.eqb target "a8").
  - destruct (promotion r) as [pr|]; [|discriminate].
    destruct (String.eqb pr ""); [discriminate|].
    intros H. inversion H. reflexivity.
  - destruct (String.eqb target "f7"); intros H; inversion H; reflexivity.
Qed.

Lemma mini_turn_flips (p s : string) :
  Mini.turn (Mini.flipSide p ++ s) =
  match Mini.turn p with w => b | b => w end.
Proof.
  destruct p as [|c p]; [reflexivity|].
  destruct c as [[] [] [] [] [] [] [] []]; reflexivity.
Qed.

#[export] Instance mini_lawful : LawfulEngine Mini.engine.
Proof.
  split.
  - intros p. reflexivity.
  - intros p p' r m H. simpl in *. apply mini_move_result in H.
    subst p'. reflexivity.
  - intros p p' r m H. simpl in *. apply mini_move_result in H.
    subst p'. apply mini_turn_flips.
  - reflexivity.
Qed.

(** ** The statements at concrete inputs *)

Section Concrete.

Import Examples.

#[local] Existing Instance Mini.engine.

(** C1. After White has mated, [resign] from White's connection is not
    rejected: the row that was [checkmate] with winner [white] becomes
    [resigned] with winner [black], and [game_ended] is broadcast. *)
Theorem resign_after_checkmate_changes_winner :
  storage.getGameByRoomId 1 (db (seated checkmate (Some white))) =
    Some (game1 checkmate (Some white)) /\
  run (handleResign 1%nat) (seated checkmate (Some white)) =
    (seated resigned (Some black),
     [(1%nat, game_ended black (Some white));
      (2%nat, game_ended black (Some white))]).
Proof. split; reflexivity. Qed.

Lemma make_move_rejected_frame_witness :
  run (handleMakeMove 1%nat (moveMsg "e2" "e4" None))
      (seated checkmate (Some white)) =
    (seated checkmate (Some white), [(1%nat, error "Game is not active")]) /\
  run (handleMakeMove 2%nat (moveMsg "e7" "e5" None)) (seated active None) =
    (seated active None, [(2%nat, error "Not your turn")]) /\
  run (handleMakeMove 1%nat (moveMsg "c3" "c4" None)) (seated active None) =
    (seated active None, [(1%nat, error "No piece at source square")]) /\
  run (handleMakeMove 1%nat (moveMsg "e7" "e5" None)) (seated active None) =
    (seated active None, [(1%nat, error "Cannot move opponent's piece")]).
Proof.
  split; [|split; [|split]]; apply make_move_rejected_frame.
  - apply NotActive with whiteClient 1%Z (game1 checkmate (Some white));
      [repeat split | discriminate].
  - apply OutOfTurn with blackClient 1%Z (game1 active None);
      [repeat split | reflexivity | discriminate].
  - apply NoPiece with whiteClient 1%Z (game1 active None) "w";
      solve [repeat split].
  - apply WrongOwner with whiteClient 1%Z (game1 active None) "w"
                          (Build_Piece "p" b);
      solve [repeat split | discriminate].
Defined.

Lemma make_move_commits_witness :
  move_allowed (seated active None) 1%nat (moveMsg "h5" "f7" None)
               whiteClient 1 (game1 active None) ("w" : Chess) /\
  exists game',
    storage.getGameByRoomId 1
      (db (fst (run (handleMakeMove 1%nat (moveMsg "h5" "f7" None))
                    (seated active None)))) = Some game' /\
    Game.moveHistory game' = ["Qxf7#"] /\
    Game.boardState game' = "bQxf7#" /\
    Game.currentTurn game' = black /\
    Game.status game' = checkmate /\
    Game.winner game' = Some white /\
    consistent game'.
Proof.
  assert (Hallowed : move_allowed (seated active None) 1%nat
                       (moveMsg "h5" "f7" None) whiteClient 1
                       (game1 active None) ("w" : Chess)).
  { repeat split. exists (Build_Piece "q" w). split; reflexivity. }
  split; [exact Hallowed|].
  destruct (make_move_commits (E:=Mini.engine) (seated active None) 1%nat
              (moveMsg "h5" "f7" None) whiteClient 1 (game1 active None)
              "w" "bQxf7#"
              (Build_Move "Qxf7#" "q" (Some "p")) Hallowed eq_refl)
    as (game' & Hfound & Hhist & Hboard & Hturn & Hmate & Hwin & _ & _ & Hlaw).
  exists game'.
  split; [exact Hfound|]. split; [exact Hhist|]. split; [exact Hboard|].
  split; [exact Hturn|]. split; [apply Hmate; reflexivity|].
  split; [apply Hwin; reflexivity|].
  apply (Hlaw mini_lawful). reflexivity.
Defined.

(** C6, the claim as stated fails.  No room has the code of this
    [join_room], which holds the character U+0000, and the joiner is not
    told [Room not found]: the store refuses the lookup and the handler
    answers [Failed to join room]. *)
Lemma refused_code_counterexample :
  let code := String Ascii.zero "ABCDE" in
  ~ In code (room_codes (db (seated active None))) /\
  run (handleJoinRoom 3%nat (joinMsg code)) (seated active None) =
    (seated active None, [(3%nat, error "Failed to join room")]).
Proof.
  split; [|reflexivity].
  simpl. intros [H|[]]. discriminate H.
Qed.

Lemma join_room_rejected_frame_witness :
  run (handleJoinRoom 3%nat (joinMsg "I5K9QZ")) (seated active None) =
    (seated active None, [(3%nat, error "Room is full")]) /\
  run (handleJoinRoom 3%nat (joinMsg "NOROOM")) (seated active None) =
    (seated active None, [(3%nat, error "Room not found")]) /\
  run (handleJoinRoom 3%nat (joinMsg (String Ascii.zero "ABCDE")))
      (seated active None) =
    (seated active None, [(3%nat, error "Failed to join room")]).
Proof.
  split; [|split]; apply join_room_rejected_frame.
  - apply RoomFull with room1; reflexivity.
  - apply RoomNotFound. reflexivity.
  - apply CodeRefused. reflexivity.
Defined.

Lemma promotion_retry_witness :
  move_allowed (seated active None) 1%nat (moveMsg "a7" "a8" (Some "q"))
               whiteClient 1 (game1 active None) ("w" : Chess) /\
  fst (tryMove ("w" : Chess) (moveMsg "a7" "a8" (Some "q"))) =
    [Build_MoveRequest (Some "a7") (Some "a8") None;
     Build_MoveRequest (Some "a7") (Some "a8") (Some "q")] /\
  run (handleMakeMove 1%nat (moveMsg "a7" "a8" (Some "q")))
      (seated active None) =
    commits (seated active None) 1 (game1 active None)
            (moveMsg "a7" "a8" (Some "q"))
            (Build_Move "a8=Q" "p" None) ("ba8=Q" : Chess) /\
  snd (tryMove ("w" : Chess) (moveMsg "e2" "e4" (Some "q"))) =
    Some (Build_Move "e4" "p" None, ("be4" : Chess)) /\
  run (handleMakeMove 1%nat (moveMsg "a7" "a8" None)) (seated active None) =
    (seated active None, [(1%nat, error "Invalid move")]).
Proof.
  assert (Hallowed : forall f t promo,
             Mini.get "w" (Some f) = Some (Build_Piece "p" w) ->
             move_allowed (seated active None) 1%nat (moveMsg f t promo)
                          whiteClient 1 (game1 active None) ("w" : Chess)).
  { intros f t promo Hget. repeat split.
    exists (Build_Piece "p" w). split; [exact Hget | reflexivity]. }
  split; [apply Hallowed; reflexivity|].
  split; [|split; [|split]].
  - pose proof (promotion_retry (E:=Mini.engine) (seated active None) 1%nat
                  (moveMsg "a7" "a8" (Some "q")) whiteClient 1
                  (game1 active None) "w"
                  (Hallowed "a7" "a8" (Some "q") eq_refl)) as H.
    cbv zeta in H. destruct H as (_ & _ & Hiff & _).
    apply Hiff. split; reflexivity.
  - pose proof (promotion_retry (E:=Mini.engine) (seated active None) 1%nat
                  (moveMsg "a7" "a8" (Some "q")) whiteClient 1
                  (game1 active None) "w"
                  (Hallowed "a7" "a8" (Some "q") eq_refl)) as H.
    cbv zeta in H. destruct H as (_ & _ & _ & _ & _ & Hretry & _).
    exact (proj2 (Hretry eq_refl eq_refl)).
  - pose proof (promotion_retry (E:=Mini.engine) (seated active None) 1%nat
                  (moveMsg "e2" "e4" (Some "q")) whiteClient 1
                  (game1 active None) "w"
                  (Hallowed "e2" "e4" (Some "q") eq_refl)) as H.
    cbv zeta in H. destruct H as (_ & _ & _ & Hfirst & _).
    apply Hfirst. reflexivity.
  - pose proof (promotion_retry (E:=Mini.engine) (seated active None) 1%nat
                  (moveMsg "a7" "a8" None) whiteClient 1
                  (game1 active None) "w"
                  (Hallowed "a7" "a8" None eq_refl)) as H.
    cbv zeta in H. destruct H as (_ & _ & _ & _ & _ & _ & Hinvalid).
    apply Hinvalid; [intros m p; discriminate | reflexivity].
Defined.

Lemma offer_draw_frame_witness :
  clients_get 1%nat (clients (seated active None)) = Some whiteClient /\
  run (handleOfferDraw 1%nat) (seated active None) =
    (seated active None, [(2%nat, draw_offered (Some white))]).
Proof.
  split; [reflexivity|].
  exact (proj1 (offer_draw_frame (seated active None) 1%nat whiteClient 1
                                 eq_refl eq_refl)).
Defined.

(** C4, the claim as stated fails.  The text of the random number 0.5 is
    ["0.i"] and gives the one-character code ["I"].  A code that the
    [rooms] table already holds is not drawn again: [create_room] ends
    with the error event and no new room. *)
Lemma room_code_counterexample :
  is_unit_base36 "0.i" = true /\
  generateRoomCode "0.i" = "I" /\
  In (generateRoomCode "0.i5k9qzabc") (room_codes (db (seated active None))) /\
  run (handleCreateRoom "0.i5k9qzabc" 3%nat (msg "create_room"))
      (seated active None) =
    (mkServer (clients (seated active None))
              (openSockets (seated active None))
              (mkDB [room1] [game1 active None] [] 2 1 0),
     [(3%nat, error "Failed to create room")]).
Proof.
  split; [reflexivity|]. split; [reflexivity|].
  split; [left; reflexivity | reflexivity].
Qed.

Lemma room_code_format_and_collision_witness :
  is_unit_base36 "0.i5k9qzabc" = true /\
  String.length (generateRoomCode "0.i5k9qzabc") = 6%nat /\
  snd (run (handleCreateRoom "0.i5k9qzabc" 3%nat (msg "create_room"))
           (seated active None)) =
    [(3%nat, error "Failed to create room")] /\
  NoDup (room_codes
           (db (fst (run (handleCreateRoom "0.abcdefgh" 3%nat
                                           (msg "create_room"))
                         (seated active None))))).
Proof.
  split; [reflexivity|].
  pose proof (room_code_format_and_collision "0.i5k9qzabc" 3%nat
                (msg "create_room") (seated active None) eq_refl) as H.
  cbv zeta in H. destruct H as (_ & Hlen & _ & Hcollide).
  split; [apply Hlen; simpl; lia|].
  split; [apply Hcollide; left; reflexivity|].
  pose proof (room_code_format_and_collision "0.abcdefgh" 3%nat
                (msg "create_room") (seated active None) eq_refl) as H.
  cbv zeta in H. destruct H as (_ & _ & Hnodup & _).
  apply Hnodup. constructor; [intros [] | constructor].
Defined.

(** C5, the claim as stated fails.  A message of the unknown type [ping]
    from a connected client gets no answer: no event at all is sent. *)
Lemma unknown_type_counterexample :
  recognized (msg_type (msg "ping")) = false /\
  run (onMessage "0.i5k9qzabc" 3%nat (Parsed (msg "ping"))) (seated active None) =
    (seated active None, []).
Proof. split; reflexivity. Qed.

Lemma unhandled_message_frame_witness :
  run (onMessage "0.i5k9qzabc" 3%nat (Parsed (msg "ping"))) (seated active None) =
    (seated active None, []) /\
  run (onMessage "0.i5k9qzabc" 3%nat Unparseable) (seated active None) =
    (seated active None, [(3%nat, error "Invalid message format")]).
Proof.
  split.
  - exact (unhandled_message_frame "0.i5k9qzabc" 3%nat (Parsed (msg "ping"))
                                   (seated active None) eq_refl).
  - exact (unhandled_message_frame "0.i5k9qzabc" 3%nat Unparseable
                                   (seated active None) I).
Defined.

(** C8, the claim as stated fails.  White's connection, bound to room 1,
    sends [create_room]: it is now bound to the new room 2 and no error is
    sent.  The creator of a room with a free second seat sends [join_room]
    for its own room: its seat and colour change from 1 and white to 2
    and black. *)
Lemma rebinding_counterexample :
  clients_get 1%nat (clients (seated active None)) = Some whiteClient /\
  clients_get 1%nat
    (clients (fst (run (handleCreateRoom "0.abcdefgh" 1%nat (msg "create_room"))
                       (seated active None)))) =
    Some (mkClient (Some 2%Z) (Some 1%Z) (Some "Player 1") (Some white)) /\
  snd (run (handleCreateRoom "0.abcdefgh" 1%nat (msg "create_room"))
           (seated active None)) =
    [(1%nat, room_created "ABCDEF" 2 white (mkBrief "w" white [] waiting))] /\
  clients_get 1%nat (clients waitingRoom) = Some whiteClient /\
  clients_get 1%nat
    (clients (fst (run (handleJoinRoom 1%nat (joinMsg "I5K9QZ")) waitingRoom))) =
    Some (mkClient (Some 1%Z) (Some 2%Z) (Some "Cy") (Some black)).
Proof. repeat split. Qed.

Lemma rebinding_overwrites_witness :
  clients_get 1%nat (clients (seated active None)) = Some whiteClient /\
  clients_get 1%nat
    (clients (fst (run (handleCreateRoom "0.abcdefgh" 1%nat (msg "create_room"))
                       (seated active None)))) =
    Some (mkClient (Some 2%Z) (Some 1%Z) (Some "Player 1") (Some white)) /\
  clients_get 1%nat
    (clients (fst (run (handleJoinRoom 1%nat (joinMsg "I5K9QZ")) waitingRoom))) =
    Some (mkClient (Some 1%Z) (Some 2%Z) (Some "Cy") (Some black)).
Proof.
  split; [reflexivity|]. split.
  - apply (proj1 (rebinding_overwrites "0.abcdefgh" (seated active None) 1%nat
                    (msg "create_room") whiteClient eq_refl)).
    simpl. intros [H | []]. discriminate H.
  - exact (proj2 (rebinding_overwrites "0.abcdefgh" waitingRoom 1%nat
                    (joinMsg "I5K9QZ") whiteClient eq_refl)
                 (Room.mk 1 "I5K9QZ" (Some 1%Z) None true) eq_refl eq_refl).
Defined.

(** C10, the claim as stated fails.  A [send_chat] without a [message]
    field is not stored and not broadcast: the sender gets the error
    event.  Nor is every text stored: one that holds the character U+0000
    is answered in the same way. *)
Lemma missing_chat_text_counterexample :
  run (handleSendChat 1%nat (chatMsg None)) (seated active None) =
    (mkServer (clients (seated active None))
              (openSockets (seated active None))
              (mkDB [room1] [game1 active None] [] 1 1 1),
     [(1%nat, error "Failed to send chat message")]) /\
  run (handleSendChat 1%nat (chatMsg (Some (String Ascii.zero "hi"))))
      (seated active None) =
    (seated active None, [(1%nat, error "Failed to send chat message")]).
Proof. split; reflexivity. Qed.

Lemma send_chat_behaviour_witness :
  clients_get 3%nat
    [(3%nat, mkClient (Some 1%Z) None None None); (2%nat, blackClient)] =
    Some (mkClient (Some 1%Z) None None None) /\
  (let r := run (handleSendChat 3%nat (chatMsg (Some "")))
                (mkServer [(3%nat, mkClient (Some 1%Z) None None None);
                           (2%nat, blackClient)]
                          [2%nat; 3%nat] emptyDB) in
   chatMessages (db (fst r)) = [ChatMessage.mk 1 1 None "Anonymous" ""] /\
   snd r = [(3%nat, chat_message 1 "Anonymous" "");
            (2%nat, chat_message 1 "Anonymous" "")]) /\
  snd (run (handleSendChat 1%nat (chatMsg None)) (seated active None)) =
    [(1%nat, error "Failed to send chat message")] /\
  snd (run (handleSendChat 1%nat (chatMsg (Some (String Ascii.zero "hi"))))
           (seated active None)) =
    [(1%nat, error "Failed to send chat message")].
Proof.
  split; [reflexivity|]. split; [|split].
  - pose proof (send_chat_behaviour
                  (mkServer [(3%nat, mkClient (Some 1%Z) None None None);
                             (2%nat, blackClient)]
                            [2%nat; 3%nat] emptyDB)
                  3%nat (chatMsg (Some ""))
                  (mkClient (Some 1%Z) None None None) 1 eq_refl eq_refl) as H.
    cbv zeta in H. destruct H as (Hstored & _ & _).
    exact (Hstored "" eq_refl eq_refl eq_refl).
  - pose proof (send_chat_behaviour (seated active None) 1%nat (chatMsg None)
                  whiteClient 1 eq_refl eq_refl) as H.
    cbv zeta in H. destruct H as (_ & Hnone & _).
    exact (proj2 (Hnone eq_refl)).
  - pose proof (send_chat_behaviour (seated active None) 1%nat
                  (chatMsg (Some (String Ascii.zero "hi")))
                  whiteClient 1 eq_refl eq_refl) as H.
    cbv zeta in H. destruct H as (_ & Hnone & _).
    exact (proj2 (Hnone eq_refl)).
Defined.

End Concrete.

(** * Further properties of the handlers *)

Lemma clients_get_assign_other (ws x : WebSocket) (c : ClientConnection)
    (cs : list (WebSocket * ClientConnection)) :
  x <> ws -> clients_get x (assign_client ws c cs) = clients_get x cs.
Proof.
  intros Hx. unfold clients_get, assign_client.
  induction cs as [|[y cy] cs IH]; simpl; [reflexivity|].
  destruct (Nat.eqb y ws) eqn:Hy; simpl.
  - apply Nat.eqb_eq in Hy. subst y.
    destruct (Nat.eqb ws x) eqn:Hwx; [|exact IH].
    apply Nat.eqb_eq in Hwx. subst x. contradiction.
  - destruct (Nat.eqb y x); [reflexivity | exact IH].
Qed.

Lemma map_fst_assign (ws : WebSocket) (c : ClientConnection)
    (cs : list (WebSocket * ClientConnection)) :
  map fst (assign_client ws c cs) = map fst cs.
Proof.
  unfold assign_client. rewrite map_map. apply map_ext.
  intros [y cy]. simpl. destruct (Nat.eqb y ws); reflexivity.
Qed.

Lemma boundRoom_roomId (c : ClientConnection) (rid : Z) :
  boundRoom (Some c) = Some rid -> roomId c = Some rid /\ rid <> 0%Z.
Proof.
  unfold boundRoom, JS.truthy_number.
  destruct (roomId c) as [r0|]; [|discriminate].
  destruct (Z.eqb r0 0) eqn:Hz; simpl; [discriminate|].
  intros H. inversion H; subst. split; [reflexivity|].
  apply Z.eqb_neq. exact Hz.
Qed.

Lemma or_else_truthy (v : option string) (d : string) :
  d <> "" -> JS.truthy_string (Some (JS.or_else v d)) = true.
Proof.
  intros Hd. unfold JS.or_else, JS.truthy_string.
  assert (Hdq : String.eqb d "" = false) by (now apply String.eqb_neq).
  destruct v as [x|]; [|now rewrite Hdq].
  destruct (String.eqb x "") eqn:Hx; [now rewrite Hdq | now rewrite Hx].
Qed.

(** A run that answers the sender only and leaves the sessions alone. *)
Lemma contained_reply (ws : WebSocket) (s s' : Server) (e : ServerEvent) :
  openSockets s' = openSockets s -> clients s' = clients s ->
  contained ws s s' [(ws, e)].
Proof.
  intros Ho Hc. split; [exact Ho | now rewrite Hc | now rewrite Hc |].
  intros x e0 [H | []]. inversion H. now left.
Qed.

Lemma contained_silent (ws : WebSocket) (s s' : Server) :
  openSockets s' = openSockets s -> clients s' = clients s ->
  contained ws s s' [].
Proof.
  intros Ho Hc. split; [exact Ho | now rewrite Hc | now rewrite Hc |].
  intros x e0 [].
Qed.

(** A run that sends to the sender and broadcasts to the room the sender
    is bound to afterwards. *)
Lemma contained_broadcast (ws : WebSocket) (s s' : Server) (c : ClientConnection)
    (rid : Z) (msg : ServerEvent) (exclude : option WebSocket)
    (direct : list Output) :
  openSockets s' = openSockets s ->
  map fst (clients s') = map fst (clients s) ->
  (forall x, x <> ws -> clients_get x (clients s') = clients_get x (clients s)) ->
  clients_get ws (clients s') = Some c -> roomId c = Some rid ->
  is_error msg = false ->
  (forall o, In o direct -> fst o = ws) ->
  contained ws s s'
    (direct ++ map (fun x => (x, msg)) (recipients s' rid exclude)).
Proof.
  intros Ho Hk Hoth Hc Hr Hmsg Hdirect.
  split; [exact Ho | exact Hk | exact Hoth |].
  intros x e Hin. apply in_app_or in Hin. destruct Hin as [Hin | Hin].
  - left. exact (Hdirect _ Hin).
  - right. apply in_map_iff in Hin. destruct Hin as (y & Heq & Hin).
    inversion Heq; subst y e.
    apply recipients_spec in Hin. destruct Hin as (_ & Hopen & cx & Hcx & Hrx).
    split; [exact Hmsg|]. split.
    + unfold is_open in *. rewrite <- Ho. exact Hopen.
    + exists rid, c, cx. repeat split; assumption.
Qed.

Section Coverage.

Context {E : RulesEngine}.

Lemma offer_draw_contained (ws : WebSocket) (s : Server) :
  contained ws s (fst (run (handleOfferDraw ws) s))
            (snd (run (handleOfferDraw ws) s)).
Proof.
  unfold handleOfferDraw; unfold_effects.
  destruct (clients_get ws (clients s)) as [client|] eqn:Hc;
    [|now apply contained_reply].
  destruct (boundRoom (Some client)) as [rid|] eqn:Hb;
    [|now apply contained_reply].
  simpl. apply boundRoom_roomId in Hb. destruct Hb as [Hb _].
  apply (contained_broadcast ws s s client rid _ (Some ws) []);
    try reflexivity; try assumption.
  intros o [].
Qed.

Lemma send_chat_contained (ws : WebSocket) (message : Message) (s : Server) :
  contained ws s (fst (run (handleSendChat ws message) s))
            (snd (run (handleSendChat ws message) s)).
Proof.
  unfold handleSendChat, storage.addChatMessage; unfold_effects.
  destruct (clients_get ws (clients s)) as [client|] eqn:Hc;
    [|now apply contained_reply].
  destruct (boundRoom (Some client)) as [rid|] eqn:Hb;
    [|now apply contained_reply].
  apply boundRoom_roomId in Hb. destruct Hb as [Hb _].
  destruct (storage.accepts _ && storage.accepts_field _); simpl;
    [|now apply contained_reply].
  destruct (msg_message message) as [text|]; simpl;
    [|now apply contained_reply].
  eapply (contained_broadcast ws s _ client rid _ None []);
    try reflexivity; try assumption.
  intros o [].
Qed.

Lemma resign_contained (ws : WebSocket) (s : Server) :
  contained ws s (fst (run (handleResign ws) s))
            (snd (run (handleResign ws) s)).
Proof.
  unfold handleResign; unfold_effects.
  destruct (clients_get ws (clients s)) as [client|] eqn:Hc;
    [|now apply contained_reply].
  destruct (boundRoom (Some client)) as [rid|] eqn:Hb;
    [|now apply contained_reply].
  apply boundRoom_roomId in Hb. destruct Hb as [Hb _].
  destruct (storage.getGameByRoomId rid (db s)) as [game|]; simpl;
    [|now apply contained_reply].
  eapply (contained_broadcast ws s _ client rid _ None []);
    try reflexivity; try assumption.
  intros o [].
Qed.

Lemma make_move_contained (ws : WebSocket) (message : Message) (s : Server) :
  contained ws s (fst (run (handleMakeMove ws message) s))
            (snd (run (handleMakeMove ws message) s)).
Proof.
  unfold handleMakeMove, loadChess; unfold_effects.
  destruct (clients_get ws (clients s)) as [client|] eqn:Hc;
    [|now apply contained_reply].
  destruct (boundRoom (Some client)) as [rid|] eqn:Hb;
    [|now apply contained_reply].
  apply boundRoom_roomId in Hb. destruct Hb as [Hb _].
  destruct (storage.getGameByRoomId rid (db s)) as [game|]; simpl;
    [|now apply contained_reply].
  destruct (Status_eqb (Game.status game) active); simpl;
    [|now apply contained_reply].
  destruct (color_is (color client) (Game.currentTurn game)); simpl;
    [|now apply contained_reply].
  destruct (loadFen (Game.boardState game)) as [chess|]; simpl;
    [|now apply contained_reply].
  destruct (get chess (msg_from message)) as [found|]; simpl;
    [|now apply contained_reply].
  destruct (Side_eqb (piece_color found) (side_of_color (Game.currentTurn game)));
    simpl; [|now apply contained_reply].
  destruct (snd (tryMove chess message)) as [[m chess']|]; simpl;
    [|now apply contained_reply].
  eapply (contained_broadcast ws s _ client rid _ None []);
    try reflexivity; try assumption.
  intros o [].
Qed.

Lemma create_room_contained (r : string) (ws : WebSocket) (message : Message)
    (s : Server) :
  contained ws s (fst (run (handleCreateRoom r ws message) s))
            (snd (run (handleCreateRoom r ws message) s)).
Proof.
  unfold handleCreateRoom, storage.createRoom; unfold_effects. simpl.
  destruct (existsb _ (rooms (db s))); simpl; [now apply contained_reply|].
  destruct (clients_get ws (clients s)) as [client|] eqn:Hc; simpl;
    [|now apply contained_reply].
  split; simpl.
  - reflexivity.
  - apply map_fst_assign.
  - intros x Hx. now apply clients_get_assign_other.
  - intros x e [H | []]. inversion H. now left.
Qed.

Lemma join_room_contained (ws : WebSocket) (message : Message) (s : Server) :
  clients_get ws (clients s) <> None ->
  contained ws s (fst (run (handleJoinRoom ws message) s))
            (snd (run (handleJoinRoom ws message) s)).
Proof.
  intros Hsome.
  unfold handleJoinRoom; unfold_effects. simpl.
  destruct (storage.getRoomByCode _ (db s)) as [| |room]; simpl;
    [now apply contained_reply..|].
  destruct (JS.truthy_number (Room.player2Id room)); simpl;
    [now apply contained_reply|].
  destruct (clients_get ws (clients s)) as [client|] eqn:Hc; simpl;
    [|contradiction].
  destruct (storage.getGameByRoomId (Room.id room) _) as [game|]; simpl.
  - match goal with
    | |- contained _ _ ?s1 (?o :: ?rest) =>
        change (contained ws s s1 ([o] ++ rest))
    end.
    eapply contained_broadcast; simpl.
    + reflexivity.
    + apply map_fst_assign.
    + intros x Hx. now apply clients_get_assign_other.
    + eapply clients_get_assign. exact Hc.
    + reflexivity.
    + reflexivity.
    + intros o [H | []]. subst o. reflexivity.
  - split; simpl.
    + reflexivity.
    + apply map_fst_assign.
    + intros x Hx. now apply clients_get_assign_other.
    + intros x e [H | []]. inversion H. now left.
Qed.

Lemma tryCatch_completes (body handler : M unit) :
  completes handler -> completes (tryCatch body handler).
Proof.
  intros Hh s. unfold tryCatch.
  destruct (body s) as [[[[]|] s1] o1]; simpl; [reflexivity|].
  specialize (Hh s1). destruct (handler s1) as [[c s2] o2]. exact Hh.
Qed.

Lemma send_completes (ws : WebSocket) (e : ServerEvent) :
  completes (send ws e).
Proof. intros s. reflexivity. Qed.

Lemma invalidFormat_completes (ws : WebSocket) : completes (invalidFormat ws).
Proof. intros s. unfold invalidFormat. destruct (is_open s ws); reflexivity. Qed.

Lemma dispatch_completes (r : string) (ws : WebSocket) (message : Message) :
  completes (handleWebSocketMessage r ws message).
Proof.
  intros s. unfold handleWebSocketMessage, bind, getClient.
  assert (H : forall h : M unit, completes h ->
            fst (fst (let '(c, s2, o2) := h s in (c, s2, ([] ++ o2)%list)))
            = Normal tt).
  { intros h Hh. specialize (Hh s). destruct (h s) as [[c s2] o2]. exact Hh. }
  destruct (clients_get ws (clients s)); [|reflexivity].
  repeat match goal with
         | |- context [if ?c then _ else _] => destruct c
         end;
    first [apply H; apply tryCatch_completes, send_completes | reflexivity].
Qed.

Lemma run_completes (h : M unit) (ws : WebSocket) (s : Server) :
  completes h -> run (tryCatch h (invalidFormat ws)) s = run h s.
Proof.
  intros Hh. unfold run, tryCatch. specialize (Hh s).
  destruct (h s) as [[[[]|] s1] o1]; simpl in *; [reflexivity | discriminate].
Qed.

Lemma run_dispatch (r : string) (ws : WebSocket) (message : Message)
    (s : Server) :
  run (handleWebSocketMessage r ws message) s =
  match clients_get ws (clients s) with
  | None => (s, [])
  | Some _ =>
      if type_is message "create_room" then run (handleCreateRoom r ws message) s
      else if type_is message "join_room" then run (handleJoinRoom ws message) s
      else if type_is message "make_move" then run (handleMakeMove ws message) s
      else if type_is message "send_chat" then run (handleSendChat ws message) s
      else if type_is message "resign" then run (handleResign ws) s
      else if type_is message "offer_draw" then run (handleOfferDraw ws) s
      else (s, [])
  end.
Proof.
  unfold handleWebSocketMessage, run at 1, bind, getClient.
  assert (H : forall h : M unit,
            (let '(_, s', out) :=
               let '(c, s2, o2) := h s in (c, s2, ([] ++ o2)%list) in (s', out))
            = run h s).
  { intros h. unfold run. destruct (h s) as [[c s2] o2]. reflexivity. }
  destruct (clients_get ws (clients s)); [|reflexivity].
  repeat match goal with
         | |- context [if ?c then _ else _] => destruct c
         end; apply H.
Qed.

(** The run of the [message] listener on a parsed message of a connected
    client is the run of the handler of its type. *)
Lemma run_onMessage (r : string) (ws : WebSocket) (message : Message)
    (s : Server) :
  run (onMessage r ws (Parsed message)) s =
  run (handleWebSocketMessage r ws message) s.
Proof. unfold onMessage. apply run_completes, dispatch_completes. Qed.

Lemma handler_contained (r : string) (ws : WebSocket) (data : Inbound)
    (s : Server) :
  contained ws s (fst (run (onMessage r ws data) s))
            (snd (run (onMessage r ws data) s)).
Proof.
  destruct data as [| |message].
  - unfold onMessage, invalidFormat; unfold_effects.
    destruct (is_open s ws); simpl;
      [now apply contained_reply | now apply contained_silent].
  - unfold onMessage, invalidFormat; unfold_effects.
    destruct (is_open s ws); simpl;
      [now apply contained_reply | now apply contained_silent].
  - rewrite run_onMessage, run_dispatch.
    destruct (clients_get ws (clients s)) as [client|] eqn:Hc;
      [|now apply contained_silent].
    destruct (type_is message "create_room"); [apply create_room_contained|].
    destruct (type_is message "join_room");
      [apply join_room_contained; now rewrite Hc|].
    destruct (type_is message "make_move"); [apply make_move_contained|].
    destruct (type_is message "send_chat"); [apply send_chat_contained|].
    destruct (type_is message "resign"); [apply resign_contained|].
    destruct (type_is message "offer_draw"); [apply offer_draw_contained|].
    now apply contained_silent.
Qed.

(** *** The invariant of the process state *)

Lemma map_update_keeps {A B} (key : A -> B) (test : A -> bool) (f : A -> A)
    (l : list A) :
  (forall x, key (f x) = key x) ->
  map key (map (fun x => if test x then f x else x) l) = map key l.
Proof.
  intros Hf. rewrite map_map. apply map_ext. intros x.
  destruct (test x); [apply Hf | reflexivity].
Qed.

Lemma NoDup_snoc_fresh (l : list Z) (n : Z) :
  NoDup l -> Forall (fun x => (x <= n)%Z) l -> NoDup (l ++ [(n + 1)%Z]).
Proof.
  intros Hl Hb. apply NoDup_snoc; [exact Hl|]. intros Hin.
  rewrite Forall_forall in Hb. specialize (Hb _ Hin). lia.
Qed.

Lemma session_ok_grows (d d' : DB) (c : ClientConnection) :
  (forall rid, In rid (map Room.id (rooms d)) ->
               In rid (map Room.id (rooms d'))) ->
  session_ok d c -> session_ok d' c.
Proof.
  unfold session_ok. intros Hids. destruct (roomId c) as [rid|]; [|tauto].
  intros (Hin & Hseat & Hname). auto.
Qed.

Lemma sessions_ok_grow (d d' : DB) (cs : list (WebSocket * ClientConnection)) :
  map Room.id (rooms d') = map Room.id (rooms d) ->
  Forall (fun e => session_ok d (snd e)) cs ->
  Forall (fun e => session_ok d' (snd e)) cs.
Proof.
  intros Hids. apply Forall_impl. intros e.
  apply session_ok_grows. intros rid. now rewrite Hids.
Qed.

Lemma sessions_ok_assign (d : DB) (ws : WebSocket) (c : ClientConnection)
    (cs : list (WebSocket * ClientConnection)) :
  session_ok d c ->
  Forall (fun e => session_ok d (snd e)) cs ->
  Forall (fun e => session_ok d (snd e)) (assign_client ws c cs).
Proof.
  intros Hc Hcs. unfold assign_client. apply Forall_map.
  revert Hcs. apply Forall_impl. intros [x cx] Hx. simpl in *.
  destruct (Nat.eqb x ws); simpl; assumption.
Qed.

Lemma status_ok_update (test : Game.t -> bool) (f : Game.t -> Game.t)
    (l : list Game.t) :
  (forall x, status_ok (f x)) ->
  Forall status_ok l ->
  Forall status_ok (map (fun x => if test x then f x else x) l).
Proof.
  intros Hf. apply Forall_update. intros x _ _. apply Hf.
Qed.

Lemma Forall_bound_update {A} (key : A -> Z) (n : Z) (test : A -> bool)
    (f : A -> A) (l : list A) (P : Z -> Prop) :
  (forall x, key (f x) = key x) ->
  Forall (fun x => P (key x)) l ->
  Forall (fun x => P (key x)) (map (fun x => if test x then f x else x) l).
Proof.
  intros Hf. apply Forall_update. intros x Hx _. now rewrite Hf.
Qed.

Lemma keys_ok_updateGame (d : DB) (gid : Z) (f : Game.t -> Game.t) :
  (forall x, Game.id (f x) = Game.id x) ->
  (forall x, Game.roomId (f x) = Game.roomId x) ->
  keys_ok d -> keys_ok (storage.updateGame gid f d).
Proof.
  intros Hid Hroom (Hpair & Hrn & Hrq & Hrb & Hgn & Hgb & Hcodes).
  unfold keys_ok, storage.updateGame, room_codes. simpl.
  rewrite !map_update_keeps by assumption.
  do 5 (split; [assumption|]). split; [|exact Hcodes].
  exact (Forall_bound_update Game.id 0 _ f (games d)
           (fun k => (k <= games_id_seq d)%Z) Hid Hgb).
Qed.

Lemma keys_ok_updateRoom (d : DB) (rid : Z) (f : Room.t -> Room.t) :
  (forall x, Room.id (f x) = Room.id x) ->
  (forall x, Room.code (f x) = Room.code x) ->
  keys_ok d -> keys_ok (storage.updateRoom rid f d).
Proof.
  intros Hid Hcode (Hpair & Hrn & Hrq & Hrb & Hgn & Hgb & Hcodes).
  unfold keys_ok, storage.updateRoom, room_codes. simpl.
  rewrite !map_update_keeps by assumption.
  do 3 (split; [assumption|]). split; [|repeat split; assumption].
  exact (Forall_bound_update Room.id 0 _ f (rooms d)
           (fun k => (0 < k <= rooms_id_seq d)%Z) Hid Hrb).
Qed.

Lemma keys_ok_same_rows (d d' : DB) :
  rooms d' = rooms d -> games d' = games d ->
  (rooms_id_seq d <= rooms_id_seq d')%Z ->
  (games_id_seq d <= games_id_seq d')%Z ->
  keys_ok d -> keys_ok d'.
Proof.
  intros Hr Hgs Hrs Hgq (Hpair & Hrn & Hrq & Hrb & Hgn & Hgb & Hcodes).
  unfold keys_ok, room_codes. rewrite Hr, Hgs.
  do 2 (split; [assumption|]). split; [lia|]. split.
  { revert Hrb. apply Forall_impl. intros x Hx. lia. }
  split; [assumption|]. split; [|exact Hcodes].
  revert Hgb. apply Forall_impl. intros x Hx. lia.
Qed.

Lemma keys_ok_created (d : DB) (code boardState : string) :
  ~ In code (room_codes d) ->
  keys_ok d ->
  keys_ok
    (mkDB (rooms d ++ [Room.mk (rooms_id_seq d + 1) code None None true])
          (games d ++ [Game.mk (games_id_seq d + 1) (rooms_id_seq d + 1)
                               white boardState [] waiting None])
          (chatMessages d) (rooms_id_seq d + 1) (games_id_seq d + 1)
          (chat_messages_id_seq d)).
Proof.
  intros Hfresh (Hpair & Hrn & Hrq & Hrb & Hgn & Hgb & Hcodes).
  unfold keys_ok, room_codes. simpl. rewrite !map_app. simpl.
  split; [now rewrite Hpair|]. split.
  { apply NoDup_snoc_fresh; [exact Hrn|]. apply Forall_map.
    revert Hrb. apply Forall_impl. intros x Hx. lia. }
  split; [lia|]. split.
  { apply Forall_app. split.
    - revert Hrb. apply Forall_impl. intros x Hx. lia.
    - constructor; [simpl; lia | constructor]. }
  split.
  { apply NoDup_snoc_fresh; [exact Hgn|]. apply Forall_map. exact Hgb. }
  split.
  { apply Forall_app. split.
    - revert Hgb. apply Forall_impl. intros x Hx. lia.
    - constructor; [simpl; lia | constructor]. }
  apply NoDup_snoc; assumption.
Qed.

Lemma set_player_keeps_id (v : Z) (x : Room.t) :
  Room.id (set_player1Id v x) = Room.id x /\
  Room.id (set_player2Id v x) = Room.id x /\
  Room.code (set_player1Id v x) = Room.code x /\
  Room.code (set_player2Id v x) = Room.code x.
Proof. repeat split. Qed.

Lemma ids_updateRoom (rid : Z) (f : Room.t -> Room.t) (d : DB) :
  (forall x, Room.id (f x) = Room.id x) ->
  map Room.id (rooms (storage.updateRoom rid f d)) = map Room.id (rooms d).
Proof. intros Hf. unfold storage.updateRoom. simpl. now apply map_update_keeps. Qed.

Lemma server_ok_updateGame (cs : list (WebSocket * ClientConnection))
    (os : list WebSocket) (d : DB) (gid : Z) (f : Game.t -> Game.t) :
  (forall x, Game.id (f x) = Game.id x) ->
  (forall x, Game.roomId (f x) = Game.roomId x) ->
  (forall x, status_ok (f x)) ->
  server_ok (mkServer cs os d) ->
  server_ok (mkServer cs os (storage.updateGame gid f d)).
Proof.
  intros Hid Hroom Hst (Hkeys & Hk & Hs & Hg). simpl in *.
  split; [now apply keys_ok_updateGame|]. simpl.
  split; [exact Hk|]. split; [exact Hs|]. now apply status_ok_update.
Qed.

Lemma server_ok_updateRoom (cs : list (WebSocket * ClientConnection))
    (os : list WebSocket) (d : DB) (rid : Z) (f : Room.t -> Room.t) :
  (forall x, Room.id (f x) = Room.id x) ->
  (forall x, Room.code (f x) = Room.code x) ->
  server_ok (mkServer cs os d) ->
  server_ok (mkServer cs os (storage.updateRoom rid f d)).
Proof.
  intros Hid Hcode (Hkeys & Hk & Hs & Hg). simpl in *.
  split; [now apply keys_ok_updateRoom|]. simpl.
  split; [exact Hk|]. split; [|exact Hg].
  revert Hs. apply sessions_ok_grow. now apply ids_updateRoom.
Qed.

Lemma server_ok_assign (cs : list (WebSocket * ClientConnection))
    (os : list WebSocket) (d : DB) (ws : WebSocket) (c : ClientConnection) :
  session_ok d c ->
  server_ok (mkServer cs os d) ->
  server_ok (mkServer (assign_client ws c cs) os d).
Proof.
  intros Hc (Hkeys & Hk & Hs & Hg). simpl in *.
  split; [exact Hkeys|]. simpl. split; [now rewrite map_fst_assign|].
  split; [now apply sessions_ok_assign | exact Hg].
Qed.

Lemma create_room_ok (r : string) (ws : WebSocket) (message : Message)
    (s : Server) :
  server_ok s -> server_ok (fst (run (handleCreateRoom r ws message) s)).
Proof.
  destruct s as [cs os d]. intros Hok.
  unfold handleCreateRoom, storage.createRoom; unfold_effects. simpl.
  destruct (existsb _ (rooms d)) eqn:Hex; simpl.
  - destruct Hok as (Hkeys & Hk & Hs & Hg). simpl in *.
    split; [|split; [exact Hk | split; [|exact Hg]]]; simpl.
    + apply (keys_ok_same_rows d); simpl; try reflexivity; try lia.
      exact Hkeys.
    + revert Hs. now apply sessions_ok_grow.
  - assert (Hfresh : ~ In (generateRoomCode r) (room_codes d)).
    { intros Hin. apply existsb_code in Hin. unfold room_codes in Hin.
      rewrite Hin in Hex. discriminate Hex. }
    destruct Hok as (Hkeys & Hk & Hs & Hg). simpl in *.
    pose proof (keys_ok_created d _ (fen newChess) Hfresh Hkeys) as Hkeys'.
    apply (keys_ok_updateRoom _ (rooms_id_seq d + 1) (set_player1Id 1))
      in Hkeys'; [|reflexivity..].
    assert (Hgames : Forall status_ok
              (games d ++ [Game.mk (games_id_seq d + 1) (rooms_id_seq d + 1)
                                   white (fen newChess) [] waiting None])).
    { apply Forall_app. split; [exact Hg|]. constructor; [|constructor].
      split; simpl; [discriminate | intros [H | H]; discriminate H]. }
    assert (Hids : forall rid, In rid (map Room.id (rooms d)) ->
              In rid (map Room.id
                (map (fun x => if Z.eqb (Room.id x) (rooms_id_seq d + 1)
                               then set_player1Id 1 x else x)
                     (rooms d ++ [Room.mk (rooms_id_seq d + 1)
                                    (generateRoomCode r) None None true])))).
    { intros rid Hin. rewrite map_update_keeps by reflexivity.
      rewrite map_app. apply in_or_app. now left. }
    assert (Hs' : Forall (fun e => session_ok
              (storage.updateRoom (rooms_id_seq d + 1) (set_player1Id 1)
                 (mkDB (rooms d ++ [Room.mk (rooms_id_seq d + 1)
                                      (generateRoomCode r) None None true])
                       (games d ++ [Game.mk (games_id_seq d + 1)
                                      (rooms_id_seq d + 1) white
                                      (fen newChess) [] waiting None])
                       (chatMessages d) (rooms_id_seq d + 1)
                       (games_id_seq d + 1) (chat_messages_id_seq d)))
              (snd e)) cs).
    { revert Hs. apply Forall_impl. intros e. apply session_ok_grows.
      exact Hids. }
    destruct (clients_get ws cs) as [client|]; simpl.
    + split; [exact Hkeys'|]. simpl.
      split; [now rewrite map_fst_assign|].
      split; [|exact Hgames].
      apply sessions_ok_assign; [|exact Hs'].
      unfold session_ok. simpl. split.
      * rewrite map_update_keeps by reflexivity. rewrite map_app.
        apply in_or_app. right. now left.
      * split; [left; split; reflexivity|].
        apply or_else_truthy. discriminate.
    + split; [exact Hkeys'|]. simpl.
      split; [exact Hk|]. split; [exact Hs' | exact Hgames].
Qed.

Lemma join_room_ok (ws : WebSocket) (message : Message) (s : Server) :
  server_ok s -> server_ok (fst (run (handleJoinRoom ws message) s)).
Proof.
  destruct s as [cs os d]. intros Hok.
  unfold handleJoinRoom; unfold_effects. simpl.
  destruct (storage.getRoomByCode _ d) as [| |room] eqn:Hroom; simpl;
    [exact Hok..|].
  destruct (JS.truthy_number (Room.player2Id room)); simpl; [exact Hok|].
  assert (Hin : In (Room.id room) (map Room.id (rooms d))).
  { apply getRoomByCode_found in Hroom.
    destruct Hroom as (c & _ & _ & Hroom).
    apply find_some in Hroom. apply in_map. apply Hroom. }
  apply (server_ok_updateRoom cs os d (Room.id room) (set_player2Id 2))
    in Hok; [|reflexivity..].
  assert (Hbound : session_ok
            (storage.updateRoom (Room.id room) (set_player2Id 2) d)
            (mkClient (Some (Room.id room)) (Some 2%Z)
               (Some (JS.or_else (msg_playerName message) "Player 2"))
               (Some black))).
  { unfold session_ok. simpl. split.
    - rewrite map_update_keeps by reflexivity. exact Hin.
    - split; [right; split; reflexivity|].
      apply or_else_truthy. discriminate. }
  destruct (clients_get ws cs) as [client|]; simpl.
  - apply (server_ok_assign _ _ _ ws _ Hbound) in Hok.
    destruct (storage.getGameByRoomId (Room.id room) _) as [game|]; simpl;
      [|exact Hok].
    apply server_ok_updateGame; try reflexivity; [|exact Hok].
    intros x. split; simpl; [discriminate | intros [H | H]; discriminate H].
  - destruct (storage.getGameByRoomId (Room.id room) _) as [game|]; simpl;
      [|exact Hok].
    apply server_ok_updateGame; try reflexivity; [|exact Hok].
    intros x. split; simpl; [discriminate | intros [H | H]; discriminate H].
Qed.

Lemma make_move_ok (ws : WebSocket) (message : Message) (s : Server) :
  server_ok s -> server_ok (fst (run (handleMakeMove ws message) s)).
Proof.
  destruct s as [cs os d]. intros Hok.
  unfold handleMakeMove, loadChess; unfold_effects;
    cbn [clients openSockets db].
  destruct (clients_get ws cs) as [client|]; [|exact Hok].
  destruct (boundRoom (Some client)) as [rid|]; [|exact Hok]. simpl.
  destruct (storage.getGameByRoomId rid d) as [game|]; simpl; [|exact Hok].
  destruct (Status_eqb (Game.status game) active); simpl; [|exact Hok].
  destruct (color_is (color client) (Game.currentTurn game)); simpl;
    [|exact Hok].
  destruct (loadFen (Game.boardState game)) as [chess|]; simpl; [|exact Hok].
  destruct (get chess (msg_from message)) as [found|]; simpl; [|exact Hok].
  destruct (Side_eqb (piece_color found) (side_of_color (Game.currentTurn game)));
    simpl; [|exact Hok].
  destruct (snd (tryMove chess message)) as [[m chess']|]; simpl; [|exact Hok].
  apply server_ok_updateGame; try reflexivity; [|exact Hok].
  intros x. split; simpl.
  - destruct (isCheckmate chess'); discriminate.
  - destruct (isCheckmate chess'); [discriminate|].
    intros [H | H]; discriminate H.
Qed.

Lemma resign_ok (ws : WebSocket) (s : Server) :
  server_ok s -> server_ok (fst (run (handleResign ws) s)).
Proof.
  destruct s as [cs os d]. intros Hok.
  unfold handleResign; unfold_effects;
    cbn [clients openSockets db].
  destruct (clients_get ws cs) as [client|]; [|exact Hok].
  destruct (boundRoom (Some client)) as [rid|]; [|exact Hok]. simpl.
  destruct (storage.getGameByRoomId rid d) as [game|]; simpl; [|exact Hok].
  apply server_ok_updateGame; try reflexivity; [|exact Hok].
  intros x. split; simpl; discriminate.
Qed.

Lemma send_chat_ok (ws : WebSocket) (message : Message) (s : Server) :
  server_ok s -> server_ok (fst (run (handleSendChat ws message) s)).
Proof.
  destruct s as [cs os d]. intros Hok.
  unfold handleSendChat, storage.addChatMessage; unfold_effects;
    cbn [clients openSockets db].
  destruct (clients_get ws cs) as [client|]; [|exact Hok].
  destruct (boundRoom (Some client)) as [rid|]; [|exact Hok]. simpl.
  destruct Hok as (Hkeys & Hk & Hs & Hg). simpl in *.
  destruct (msg_message message) as [text|];
    destruct (storage.accepts _ && storage.accepts_field _); simpl;
    (split; [|split; [exact Hk | split; [|exact Hg]]]; simpl;
     [apply (keys_ok_same_rows d); simpl; try reflexivity; try lia;
      exact Hkeys
     |revert Hs; now apply sessions_ok_grow]).
Qed.

Lemma offer_draw_ok (ws : WebSocket) (s : Server) :
  server_ok s -> server_ok (fst (run (handleOfferDraw ws) s)).
Proof.
  destruct s as [cs os d]. intros Hok.
  unfold handleOfferDraw; unfold_effects;
    cbn [clients openSockets db].
  destruct (clients_get ws cs) as [client|]; [|exact Hok].
  destruct (boundRoom (Some client)) as [rid|]; exact Hok.
Qed.

Lemma message_ok (r : string) (ws : WebSocket) (data : Inbound) (s : Server) :
  server_ok s -> server_ok (fst (run (onMessage r ws data) s)).
Proof.
  intros Hok. destruct data as [| |message].
  - unfold onMessage, invalidFormat; unfold_effects.
    destruct (is_open s ws); exact Hok.
  - unfold onMessage, invalidFormat; unfold_effects.
    destruct (is_open s ws); exact Hok.
  - rewrite run_onMessage, run_dispatch.
    destruct (clients_get ws (clients s)); [|exact Hok].
    destruct (type_is message "create_room"); [now apply create_room_ok|].
    destruct (type_is message "join_room"); [now apply join_room_ok|].
    destruct (type_is message "make_move"); [now apply make_move_ok|].
    destruct (type_is message "send_chat"); [now apply send_chat_ok|].
    destruct (type_is message "resign"); [now apply resign_ok|].
    destruct (type_is message "offer_draw"); [now apply offer_draw_ok|].
    exact Hok.
Qed.

Lemma clients_set_keys (ws : WebSocket) (c : ClientConnection)
    (cs : list (WebSocket * ClientConnection)) :
  NoDup (map fst cs) -> NoDup (map fst (clients_set ws c cs)).
Proof.
  induction cs as [|[x cx] cs IH]; simpl; intros Hnd.
  - constructor; [intros [] | constructor].
  - inversion Hnd as [|y l Hnotin Hrest]; subst.
    destruct (Nat.eqb x ws) eqn:Hx; simpl.
    + apply Nat.eqb_eq in Hx. subst x. constructor; assumption.
    + constructor; [|now apply IH].
      intros Hin. apply Hnotin. clear IH Hnd Hnotin Hrest.
      induction cs as [|[y cy] cs IH]; simpl in *.
      * destruct Hin as [H | []]. subst x. now rewrite Nat.eqb_refl in Hx.
      * destruct (Nat.eqb y ws); simpl in *.
        -- destruct Hin as [H | H]; [|now right].
           subst x. now rewrite Nat.eqb_refl in Hx.
        -- destruct Hin as [H | H]; [now left | right; now apply IH].
Qed.

Lemma clients_set_sessions (d : DB) (ws : WebSocket) (c : ClientConnection)
    (cs : list (WebSocket * ClientConnection)) :
  session_ok d c ->
  Forall (fun e => session_ok d (snd e)) cs ->
  Forall (fun e => session_ok d (snd e)) (clients_set ws c cs).
Proof.
  intros Hc. induction cs as [|[x cx] cs IH]; simpl; intros Hcs.
  - constructor; [exact Hc | constructor].
  - inversion Hcs; subst. destruct (Nat.eqb x ws); constructor; auto.
Qed.

(** The invariant holds at start and is kept by every event. *)
Lemma event_ok (e : Event) (s : Server) :
  server_ok s -> server_ok (fst (run (react e) s)).
Proof.
  intros Hok. destruct e as [ws | r ws data | ws]; simpl.
  - destruct Hok as (Hkeys & Hk & Hs & Hg).
    split; [exact Hkeys|]. simpl.
    split; [now apply clients_set_keys|].
    split; [|exact Hg].
    apply clients_set_sessions; [reflexivity | exact Hs].
  - now apply message_ok.
  - destruct Hok as (Hkeys & Hk & Hs & Hg).
    split; [exact Hkeys|]. simpl. unfold clients_delete.
    split; [|split; [|exact Hg]].
    + clear Hs. induction (clients s) as [|[x cx] cs IH]; simpl;
        [constructor|].
      inversion Hk; subst.
      destruct (Nat.eqb x ws); simpl; [now apply IH|].
      constructor; [|now apply IH].
      intros Hin. apply in_map_iff in Hin. destruct Hin as (y & Hy & Hin).
      apply filter_In in Hin. destruct Hin as [Hin _].
      match goal with H : ~ In _ _ |- _ => apply H end.
      rewrite <- Hy. now apply in_map.
    + apply Forall_forall. intros y Hy. apply filter_In in Hy.
      rewrite Forall_forall in Hs. apply Hs. apply Hy.
Qed.

Lemma reachable_ok (events : list Event) : server_ok (after events).
Proof.
  unfold after.
  assert (Hinit : server_ok initial).
  { unfold server_ok, keys_ok, initial, emptyDB, room_codes. simpl.
    repeat split; try constructor; try lia. }
  revert Hinit. generalize initial as s.
  induction events as [|e events IH]; intros s Hs; simpl; [exact Hs|].
  apply IH. now apply event_ok.
Qed.

(** X1. Whatever arrives on a connection, an error event is only ever
    sent to that connection: no other connection sees an error. *)
Theorem errors_reach_sender_only (r : string) (ws x : WebSocket)
    (data : Inbound) (s : Server) (reason : string) :
  In (x, error reason) (snd (run (onMessage r ws data) s)) -> x = ws.
Proof.
  intros Hin.
  destruct (addressed _ _ _ _ (handler_contained r ws data s) _ _ Hin)
    as [Hx | (Herr & _)]; [exact Hx | discriminate Herr].
Qed.

(** X2. An event that a message of [ws] causes to be sent to another
    connection goes to a connection whose socket is open and whose
    session is bound to the room the session of [ws] is bound to after
    the message: no event crosses into another room. *)
Theorem events_stay_in_room (r : string) (ws x : WebSocket) (data : Inbound)
    (s : Server) (e : ServerEvent) :
  In (x, e) (snd (run (onMessage r ws data) s)) ->
  x <> ws ->
  is_open s x = true /\
  same_room (fst (run (onMessage r ws data) s)) ws x.
Proof.
  intros Hin Hx.
  destruct (addressed _ _ _ _ (handler_contained r ws data s) _ _ Hin)
    as [Heq | (_ & Hopen & Hroom)]; [contradiction | now split].
Qed.

(** X3. A message changes no session but the sender's: the connections
    of the map and their order, the open sockets, and the session of every
    other connection are as before. *)
Theorem message_changes_own_session_only (r : string) (ws : WebSocket)
    (data : Inbound) (s : Server) :
  let s' := fst (run (onMessage r ws data) s) in
  openSockets s' = openSockets s /\
  map fst (clients s') = map fst (clients s) /\
  forall x, x <> ws -> clients_get x (clients s') = clients_get x (clients s).
Proof.
  destruct (handler_contained r ws data s) as [Ho Hk Hoth _].
  split; [exact Ho|]. split; [exact Hk | exact Hoth].
Qed.

Ltac pick_reason :=
  simpl; repeat (first [left; reflexivity | right]).

Ltac sort_errors H :=
  simpl in H;
  repeat match type of H with
         | _ \/ _ => destruct H as [H | H]
         | False => contradiction
         | (_, _) = (_, error _) => inversion H; subst; clear H; pick_reason
         | In (_, error _) (map _ _) =>
             apply in_map_iff in H; destruct H as (? & H & _); discriminate H
         end.

Lemma create_room_errors (r : string) (ws x : WebSocket) (message : Message)
    (s : Server) (reason : string) :
  In (x, error reason) (snd (run (handleCreateRoom r ws message) s)) ->
  In reason ["Failed to create room"].
Proof.
  unfold handleCreateRoom, storage.createRoom; unfold_effects. simpl.
  destruct (existsb _ (rooms (db s))); simpl.
  - intros H. sort_errors H.
  - destruct (clients_get ws (clients s)); simpl; intros H; sort_errors H.
Qed.

Lemma join_room_errors (ws x : WebSocket) (message : Message) (s : Server)
    (reason : string) :
  In (x, error reason) (snd (run (handleJoinRoom ws message) s)) ->
  In reason ["Room not found"; "Room is full"; "Game not found";
             "Failed to join room"].
Proof.
  unfold handleJoinRoom; unfold_effects. simpl.
  destruct (storage.getRoomByCode _ (db s)) as [| |room]; simpl;
    [intros H; sort_errors H..|].
  destruct (JS.truthy_number (Room.player2Id room)); simpl;
    [intros H; sort_errors H|].
  destruct (clients_get ws (clients s)); simpl;
    (destruct (storage.getGameByRoomId (Room.id room) _); simpl;
     intros H; sort_errors H).
Qed.

Lemma make_move_errors (ws x : WebSocket) (message : Message) (s : Server)
    (reason : string) :
  In (x, error reason) (snd (run (handleMakeMove ws message) s)) ->
  In reason ["Not in a room"; "Game not found"; "Game is not active";
             "Not your turn"; "No piece at source square";
             "Cannot move opponent's piece"; "Invalid move";
             "Failed to make move"].
Proof.
  unfold handleMakeMove, loadChess; unfold_effects.
  destruct (clients_get ws (clients s)) as [client|];
    [|intros H; sort_errors H].
  destruct (boundRoom (Some client)) as [rid|]; [|intros H; sort_errors H].
  destruct (storage.getGameByRoomId rid (db s)) as [game|]; simpl;
    [|intros H; sort_errors H].
  destruct (Status_eqb (Game.status game) active); simpl;
    [|intros H; sort_errors H].
  destruct (color_is (color client) (Game.currentTurn game)); simpl;
    [|intros H; sort_errors H].
  destruct (loadFen (Game.boardState game)) as [chess|]; simpl;
    [|intros H; sort_errors H].
  destruct (get chess (msg_from message)) as [found|]; simpl;
    [|intros H; sort_errors H].
  destruct (Side_eqb (piece_color found) (side_of_color (Game.currentTurn game)));
    simpl; [|intros H; sort_errors H].
  destruct (snd (tryMove chess message)) as [[m chess']|]; simpl;
    intros H; sort_errors H.
Qed.

Lemma send_chat_errors (ws x : WebSocket) (message : Message) (s : Server)
    (reason : string) :
  In (x, error reason) (snd (run (handleSendChat ws message) s)) ->
  In reason ["Not in a room"; "Failed to send chat message"].
Proof.
  unfold handleSendChat, storage.addChatMessage; unfold_effects.
  destruct (clients_get ws (clients s)) as [client|];
    [|intros H; sort_errors H].
  destruct (boundRoom (Some client)) as [rid|]; [|intros H; sort_errors H].
  destruct (msg_message message);
    destruct (storage.accepts _ && storage.accepts_field _); simpl;
    intros H; sort_errors H.
Qed.

Lemma resign_errors (ws x : WebSocket) (s : Server) (reason : string) :
  In (x, error reason) (snd (run (handleResign ws) s)) ->
  In reason ["Not in a room"; "Game not found"; "Failed to resign"].
Proof.
  unfold handleResign; unfold_effects.
  destruct (clients_get ws (clients s)) as [client|];
    [|intros H; sort_errors H].
  destruct (boundRoom (Some client)) as [rid|]; [|intros H; sort_errors H].
  destruct (storage.getGameByRoomId rid (db s)) as [game|]; simpl;
    intros H; sort_errors H.
Qed.

Lemma offer_draw_errors (ws x : WebSocket) (s : Server) (reason : string) :
  In (x, error reason) (snd (run (handleOfferDraw ws) s)) ->
  In reason ["Not in a room"; "Failed to offer draw"].
Proof.
  unfold handleOfferDraw; unfold_effects.
  destruct (clients_get ws (clients s)) as [client|];
    [|intros H; sort_errors H].
  destruct (boundRoom (Some client)) as [rid|]; simpl;
    intros H; sort_errors H.
Qed.

(** X4. The error events of a parsed message are those of the handler of
    its type, each with one of that handler's own reasons; in particular
    [Invalid message format] answers only a payload that does not parse,
    and a message of an unknown type is answered by no error at all. *)
Theorem error_reasons_by_type (r : string) (ws x : WebSocket)
    (message : Message) (s : Server) (reason : string) :
  In (x, error reason) (snd (run (onMessage r ws (Parsed message)) s)) ->
  In reason (error_reasons message).
Proof.
  rewrite run_onMessage, run_dispatch. unfold error_reasons.
  destruct (clients_get ws (clients s)); [|intros []].
  destruct (type_is message "create_room"); [apply create_room_errors|].
  destruct (type_is message "join_room"); [apply join_room_errors|].
  destruct (type_is message "make_move"); [apply make_move_errors|].
  destruct (type_is message "send_chat"); [apply send_chat_errors|].
  destruct (type_is message "resign"); [apply resign_errors|].
  destruct (type_is message "offer_draw"); [apply offer_draw_errors|].
  intros [].
Qed.

(** *** What holds in every state the process reaches *)

Lemma clients_get_In (ws : WebSocket) (c : ClientConnection)
    (cs : list (WebSocket * ClientConnection)) :
  clients_get ws cs = Some c -> In (ws, c) cs.
Proof.
  unfold clients_get.
  destruct (find (fun e => Nat.eqb (fst e) ws) cs) as [[x cx]|] eqn:Hf;
    [|discriminate].
  intros H. inversion H; subst cx. apply find_some in Hf.
  destruct Hf as [Hin Hx]. simpl in Hx. apply Nat.eqb_eq in Hx. now subst x.
Qed.

Lemma NoDup_map_inj {A B} (f : A -> B) (l : list A) (x y : A) :
  NoDup (map f l) -> In x l -> In y l -> f x = f y -> x = y.
Proof.
  induction l as [|a l IH]; simpl; [intros _ []|].
  intros Hnd Hx Hy Hf. inversion Hnd as [|b l' Hnotin Hrest]; subst.
  destruct Hx as [Hx | Hx], Hy as [Hy | Hy]; subst.
  - reflexivity.
  - exfalso. apply Hnotin. rewrite Hf. now apply in_map.
  - exfalso. apply Hnotin. rewrite <- Hf. now apply in_map.
  - now apply IH.
Qed.

Lemma find_first_of_key {A B} (f : A -> B) (eqb : B -> B -> bool)
    (l : list A) (x : A) :
  (forall u v, eqb u v = true <-> u = v) ->
  NoDup (map f l) -> In x l ->
  find (fun y => eqb (f y) (f x)) l = Some x.
Proof.
  intros Heqb Hnd Hin.
  destruct (find (fun y => eqb (f y) (f x)) l) as [y|] eqn:Hf.
  - apply find_some in Hf. destruct Hf as [Hy Hk]. apply Heqb in Hk.
    f_equal. now apply (NoDup_map_inj f l).
  - exfalso. apply (find_none _ _ Hf) in Hin.
    rewrite (proj2 (Heqb _ _) eq_refl) in Hin. discriminate Hin.
Qed.

(** In a state that satisfies the invariant, every room has its game. *)
Lemma room_game (d : DB) (rid : Z) :
  keys_ok d -> In rid (map Room.id (rooms d)) ->
  exists game, storage.getGameByRoomId rid d = Some game.
Proof.
  intros (Hpair & _) Hin. rewrite <- Hpair in Hin.
  apply in_map_iff in Hin. destruct Hin as (g & Hg & Hin).
  unfold storage.getGameByRoomId.
  destruct (find (fun g0 => Z.eqb (Game.roomId g0) rid) (games d)) as [g0|] eqn:Hf;
    [now exists g0|].
  apply (find_none _ _ Hf) in Hin. rewrite Hg, Z.eqb_refl in Hin.
  discriminate Hin.
Qed.

(** X5. In every reachable state each stored room is the one its code
    resolves to (the lookup by a code is refused only for a text the store
    does not take, which no generated code is) and has exactly one game
    row, the one found by its key. *)
Theorem reachable_room_resolves (events : list Event) (room : Room.t) :
  let d := db (after events) in
  In room (rooms d) ->
  storage.getRoomByCode (Some (Room.code room)) d =
    (if storage.accepts (Room.code room) then Found room else Refused) /\
  exists game,
    storage.getGameByRoomId (Room.id room) d = Some game /\
    forall g, In g (games d) -> Game.roomId g = Room.id room -> g = game.
Proof.
  intros d Hin. subst d.
  destruct (reachable_ok events)
    as ((Hpair & Hrn & Hrq & Hrb & Hgn & Hgb & Hcodes) & _).
  split.
  - unfold storage.getRoomByCode.
    destruct (storage.accepts (Room.code room)); [|reflexivity].
    rewrite (find_first_of_key Room.code String.eqb
               (rooms (db (after events))) room);
      try assumption; try reflexivity.
    intros u v. apply String.eqb_eq.
  - rewrite <- Hpair in Hrn.
    unfold storage.getGameByRoomId.
    destruct (find (fun g => Z.eqb (Game.roomId g) (Room.id room))
                   (games (db (after events)))) as [game|] eqn:Hf.
    + exists game. split; [reflexivity|]. intros g Hg Hroom.
      apply find_some in Hf. destruct Hf as [Hgame Hk].
      apply Z.eqb_eq in Hk.
      apply (NoDup_map_inj Game.roomId (games (db (after events))));
        try assumption. now rewrite Hk.
    + exfalso. assert (Hid : In (Room.id room)
                               (map Game.roomId (games (db (after events))))).
      { rewrite Hpair. now apply in_map. }
      apply in_map_iff in Hid. destruct Hid as (g & Hg & Hgin).
      apply (find_none _ _ Hf) in Hgin. rewrite Hg, Z.eqb_refl in Hgin.
      discriminate Hgin.
Qed.

(** X6. In every reachable state a session is either unbound, with no
    seat, name or colour, or bound to a stored room as seat 1 and white or
    as seat 2 and black, with a name that is not empty. *)
Theorem reachable_sessions_seated (events : list Event) (ws : WebSocket)
    (c : ClientConnection) :
  clients_get ws (clients (after events)) = Some c ->
  match roomId c with
  | None => c = freshClient
  | Some rid =>
      In rid (map Room.id (rooms (db (after events)))) /\
      ((playerId c = Some 1%Z /\ color c = Some white) \/
       (playerId c = Some 2%Z /\ color c = Some black)) /\
      JS.truthy_string (playerName c) = true
  end.
Proof.
  intros Hc. destruct (reachable_ok events) as (_ & _ & Hs & _).
  rewrite Forall_forall in Hs. apply clients_get_In in Hc.
  exact (Hs _ Hc).
Qed.

(** X7. In every reachable state no game row has the status [draw], and
    a row that is [checkmate] or [resigned] names a winner. *)
Theorem reachable_status (events : list Event) (g : Game.t) :
  In g (games (db (after events))) ->
  Game.status g <> draw /\
  (Game.status g = checkmate \/ Game.status g = resigned ->
   Game.winner g <> None).
Proof.
  intros Hin. destruct (reachable_ok events) as (_ & _ & _ & Hg).
  rewrite Forall_forall in Hg. exact (Hg _ Hin).
Qed.

Ltac no_such_error H :=
  simpl in H;
  repeat match type of H with
         | _ \/ _ => destruct H as [H | H]
         | False => contradiction
         | _ = _ => discriminate H
         | In _ (map _ _) =>
             apply in_map_iff in H; destruct H as (? & H & _); discriminate H
         end.

Lemma bound_session_game (s : Server) (ws : WebSocket) (c : ClientConnection)
    (rid : Z) :
  server_ok s -> clients_get ws (clients s) = Some c ->
  boundRoom (Some c) = Some rid ->
  exists game, storage.getGameByRoomId rid (db s) = Some game.
Proof.
  intros (Hkeys & _ & Hs & _) Hc Hb.
  apply boundRoom_roomId in Hb. destruct Hb as [Hb _].
  apply clients_get_In in Hc. rewrite Forall_forall in Hs.
  specialize (Hs _ Hc). unfold session_ok in Hs. simpl in Hs.
  rewrite Hb in Hs. apply room_game; [exact Hkeys | apply Hs].
Qed.

(** X8. In every reachable state the game of a room is found whenever a
    handler looks for it: no message is ever answered by the error event
    [Game not found]. *)
Theorem game_always_found (events : list Event) (r : string)
    (ws x : WebSocket) (data : Inbound) :
  ~ In (x, error "Game not found")
       (snd (run (onMessage r ws data) (after events))).
Proof.
  pose proof (reachable_ok events) as Hok.
  generalize dependent (after events). intros s Hok Hin.
  destruct data as [| |message].
  - revert Hin. unfold onMessage, invalidFormat; unfold_effects.
    destruct (is_open s ws); intros Hin; no_such_error Hin.
  - revert Hin. unfold onMessage, invalidFormat; unfold_effects.
    destruct (is_open s ws); intros Hin; no_such_error Hin.
  - revert Hin. rewrite run_onMessage, run_dispatch.
    destruct (clients_get ws (clients s)) as [c0|] eqn:Hc0; [|intros []].
    destruct (type_is message "create_room").
    { intros Hin. apply create_room_errors in Hin. no_such_error Hin. }
    destruct (type_is message "join_room").
    { unfold handleJoinRoom; unfold_effects. simpl.
      destruct (storage.getRoomByCode _ (db s)) as [| |room] eqn:Hroom; simpl;
        [intros H; no_such_error H..|].
      destruct (JS.truthy_number (Room.player2Id room)); simpl;
        [intros H; no_such_error H|].
      assert (Hgame : exists game,
                 storage.getGameByRoomId (Room.id room) (db s) = Some game).
      { apply room_game; [apply Hok|].
        apply getRoomByCode_found in Hroom.
        destruct Hroom as (c & _ & _ & Hroom).
        apply find_some in Hroom. apply in_map. apply Hroom. }
      destruct Hgame as [game Hgame].
      unfold storage.getGameByRoomId in *. simpl.
      rewrite Hc0. simpl. rewrite Hgame. simpl.
      intros H. no_such_error H. }
    destruct (type_is message "make_move").
    { unfold handleMakeMove, loadChess; unfold_effects. rewrite Hc0.
      destruct (boundRoom (Some c0)) as [rid|] eqn:Hb;
        [|intros H; no_such_error H].
      destruct (bound_session_game s ws c0 rid Hok Hc0 Hb) as [game Hgame].
      rewrite Hgame. simpl.
      destruct (Status_eqb (Game.status game) active); simpl;
        [|intros H; no_such_error H].
      destruct (color_is (color c0) (Game.currentTurn game)); simpl;
        [|intros H; no_such_error H].
      destruct (loadFen (Game.boardState game)) as [chess|]; simpl;
        [|intros H; no_such_error H].
      destruct (get chess (msg_from message)) as [found|]; simpl;
        [|intros H; no_such_error H].
      destruct (Side_eqb (piece_color found)
                         (side_of_color (Game.currentTurn game)));
        simpl; [|intros H; no_such_error H].
      destruct (snd (tryMove chess message)) as [[m chess']|]; simpl;
        intros H; no_such_error H. }
    destruct (type_is message "send_chat").
    { intros Hin. apply send_chat_errors in Hin. no_such_error Hin. }
    destruct (type_is message "resign").
    { unfold handleResign; unfold_effects. rewrite Hc0.
      destruct (boundRoom (Some c0)) as [rid|] eqn:Hb;
        [|intros H; no_such_error H].
      destruct (bound_session_game s ws c0 rid Hok Hc0 Hb) as [game Hgame].
      rewrite Hgame. simpl. intros H. no_such_error H. }
    destruct (type_is message "offer_draw").
    { intros Hin. apply offer_draw_errors in Hin. no_such_error Hin. }
    intros [].
Qed.

(** *** Properties of the position of a game row, along any run *)

Section Rows.

Variable P : Game.t -> Prop.

Hypothesis P_position :
  forall g g', Game.boardState g' = Game.boardState g ->
               Game.currentTurn g' = Game.currentTurn g ->
               Game.moveHistory g' = Game.moveHistory g ->
               P g -> P g'.

Hypothesis P_start :
  forall id rid, P (Game.mk id rid white (fen newChess) [] waiting None).

Hypothesis P_move :
  forall g x chess chess' r m st win,
    P g -> loadFen (Game.boardState g) = Some chess ->
    move chess r = Moved m chess' ->
    P (set_position (fen chess') (color_of_side (turn chess'))
                    (Game.moveHistory g ++ [san m]) st win x).

Lemma rows_kept_by_message (r : string) (ws : WebSocket) (data : Inbound)
    (s : Server) :
  Forall P (games (db s)) ->
  Forall P (games (db (fst (run (onMessage r ws data) s)))).
Proof.
  intros H. destruct data as [| |message].
  - unfold onMessage, invalidFormat; unfold_effects.
    destruct (is_open s ws); exact H.
  - unfold onMessage, invalidFormat; unfold_effects.
    destruct (is_open s ws); exact H.
  - rewrite run_onMessage, run_dispatch.
    destruct (clients_get ws (clients s)) as [c0|] eqn:Hc0; [|exact H].
    destruct (type_is message "create_room").
    { unfold handleCreateRoom, storage.createRoom; unfold_effects. simpl.
      destruct (existsb _ (rooms (db s))); simpl; [exact H|].
      rewrite Hc0. simpl. apply Forall_app. split; [exact H|].
      constructor; [apply P_start | constructor]. }
    destruct (type_is message "join_room").
    { unfold handleJoinRoom; unfold_effects. simpl.
      destruct (storage.getRoomByCode _ (db s)) as [| |room]; simpl;
    [exact H..|].
      destruct (JS.truthy_number (Room.player2Id room)); simpl; [exact H|].
      rewrite Hc0. simpl.
      destruct (storage.getGameByRoomId (Room.id room) _) as [game|]; simpl;
        [|exact H].
      apply Forall_update; [|exact H].
      intros x Hx _. revert Hx. now apply P_position. }
    destruct (type_is message "make_move").
    { unfold handleMakeMove, loadChess; unfold_effects. rewrite Hc0.
      destruct (boundRoom (Some c0)) as [rid|]; [|exact H].
      destruct (storage.getGameByRoomId rid (db s)) as [game|] eqn:Hg; simpl;
        [|exact H].
      destruct (Status_eqb (Game.status game) active); simpl; [|exact H].
      destruct (color_is (color c0) (Game.currentTurn game)); simpl;
        [|exact H].
      destruct (loadFen (Game.boardState game)) as [chess|] eqn:Hload; simpl;
        [|exact H].
      destruct (get chess (msg_from message)) as [found|]; simpl; [|exact H].
      destruct (Side_eqb (piece_color found)
                         (side_of_color (Game.currentTurn game)));
        simpl; [|exact H].
      destruct (snd (tryMove chess message)) as [[m chess']|] eqn:Htry; simpl;
        [|exact H].
      destruct (tryMove_moved _ _ _ _ Htry) as [rq Hmove].
      assert (Hgame : P game).
      { apply find_some in Hg. destruct Hg as [Hin _].
        rewrite Forall_forall in H. now apply H. }
      apply Forall_update; [|exact H].
      intros x _ _. eapply P_move; eassumption. }
    destruct (type_is message "send_chat").
    { unfold handleSendChat, storage.addChatMessage; unfold_effects.
      rewrite Hc0. destruct (boundRoom (Some c0)) as [rid|]; [|exact H].
      destruct (msg_message message);
        destruct (storage.accepts _ && storage.accepts_field _); exact H. }
    destruct (type_is message "resign").
    { unfold handleResign; unfold_effects. rewrite Hc0.
      destruct (boundRoom (Some c0)) as [rid|]; [|exact H].
      destruct (storage.getGameByRoomId rid (db s)) as [game|]; simpl;
        [|exact H].
      apply Forall_update; [|exact H].
      intros x Hx _. revert Hx. now apply P_position. }
    destruct (type_is message "offer_draw").
    { unfold handleOfferDraw; unfold_effects. rewrite Hc0.
      destruct (boundRoom (Some c0)) as [rid|]; exact H. }
    exact H.
Qed.

Lemma rows_kept (events : list Event) : Forall P (games (db (after events))).
Proof.
  unfold after.
  assert (Hinit : Forall P (games (db initial))) by constructor.
  revert Hinit. generalize initial as s.
  induction events as [|e events IH]; intros s Hs; simpl; [exact Hs|].
  apply IH. destruct e as [ws | r ws data | ws]; simpl; try exact Hs.
  now apply rows_kept_by_message.
Qed.

End Rows.

(** X9. With a lawful engine, in every reachable state the turn of every
    game row is the side to move of its board, and the board is the FEN
    reached by replaying its move history from the start position. *)
Theorem reachable_position `{!LawfulEngine E} (events : list Event)
    (g : Game.t) :
  In g (games (db (after events))) ->
  turn_agrees g /\ consistent g.
Proof.
  intros Hin.
  assert (H : Forall (fun g => turn_agrees g /\ consistent g)
                     (games (db (after events)))).
  2: { rewrite Forall_forall in H. exact (H _ Hin). }
  apply rows_kept.
  - intros g0 g' Hb Ht Hh [(chess & Hload & Hturn) Hcons]. split.
    + exists chess. now rewrite Hb, Ht.
    + unfold consistent in *. now rewrite Hb, Hh.
  - intros id rid. split.
    + exists newChess. simpl. split; [apply load_fen|].
      now rewrite white_starts.
    + reflexivity.
  - intros g0 x chess chess' r m st win [_ Hcons] Hload Hmove. split.
    + exists chess'. simpl. split; [apply load_fen | reflexivity].
    + eapply consistent_after_move; eassumption.
Qed.

(** *** What each handler does when it succeeds *)

Lemma find_snoc_fresh {A} (p : A -> bool) (l : list A) (x : A) :
  existsb p l = false -> p x = true -> find p (l ++ [x]) = Some x.
Proof.
  induction l as [|y l IH]; simpl; intros Hl Hx.
  - now rewrite Hx.
  - apply orb_false_elim in Hl. destruct Hl as [Hy Hl].
    rewrite Hy. now apply IH.
Qed.

Lemma find_snoc_none {A} (p : A -> bool) (l : list A) (x : A) :
  find p l = None -> p x = true -> find p (l ++ [x]) = Some x.
Proof.
  induction l as [|y l IH]; simpl; intros Hl Hx.
  - now rewrite Hx.
  - destruct (p y); [discriminate | now apply IH].
Qed.

(** X10. A [create_room] whose code is not stored yet answers the creator
    with one [room_created] event carrying the code, the key of the new
    room, white and the waiting start position; afterwards the code
    resolves to the new room, seat 1 taken and seat 2 free (the lookup by
    a code is refused only for a text the store does not take, which no
    generated code is), and the games table ends with the room's game:
    waiting, at the start position, with an empty history. *)
Theorem create_room_stores (r : string) (ws : WebSocket) (message : Message)
    (s : Server) :
  ~ In (generateRoomCode r) (room_codes (db s)) ->
  let code := generateRoomCode r in
  let rid := (rooms_id_seq (db s) + 1)%Z in
  let game := Game.mk (games_id_seq (db s) + 1) rid white (fen newChess) []
                      waiting None in
  let s' := fst (run (handleCreateRoom r ws message) s) in
  snd (run (handleCreateRoom r ws message) s) =
    [(ws, room_created code rid white
            (mkBrief (fen newChess) white [] waiting))] /\
  storage.getRoomByCode (Some code) (db s') =
    (if storage.accepts code
     then Found (Room.mk rid code (Some 1%Z) None true) else Refused) /\
  games (db s') = (games (db s) ++ [game])%list /\
  (storage.getGameByRoomId rid (db s) = None ->
   storage.getGameByRoomId rid (db s') = Some game).
Proof.
  intros Hfresh code rid game s'. subst code rid game s'.
  assert (Hex : existsb (fun x => String.eqb (Room.code x) (generateRoomCode r))
                        (rooms (db s)) = false).
  { destruct (existsb _ (rooms (db s))) eqn:Hex; [|reflexivity].
    apply existsb_code in Hex. contradiction. }
  unfold handleCreateRoom, storage.createRoom; unfold_effects. simpl.
  rewrite Hex. simpl.
  assert (Hroom : find (fun x => String.eqb (Room.code x) (generateRoomCode r))
            (map (fun x => if Z.eqb (Room.id x) (rooms_id_seq (db s) + 1)
                           then set_player1Id 1 x else x)
                 (rooms (db s) ++
                  [Room.mk (rooms_id_seq (db s) + 1) (generateRoomCode r)
                           None None true])) =
            Some (Room.mk (rooms_id_seq (db s) + 1) (generateRoomCode r)
                          (Some 1%Z) None true)).
  { rewrite find_map_keeps.
    - rewrite find_snoc_fresh; [|exact Hex | simpl; apply String.eqb_refl].
      simpl. now rewrite Z.eqb_refl.
    - intros x. destruct (Z.eqb (Room.id x) _); reflexivity. }
  destruct (clients_get ws (clients s)); simpl;
    (split; [reflexivity|];
     split; [unfold storage.getRoomByCode; simpl;
             destruct (storage.accepts (generateRoomCode r));
             [rewrite Hroom|]; reflexivity|];
     split; [reflexivity|];
     intros Hnone; unfold storage.getGameByRoomId in *; simpl;
     apply find_snoc_none; [exact Hnone | simpl; apply Z.eqb_refl]).
Qed.

(** X11. A [join_room] by a connected client to a stored room whose second
    seat is free takes seat 2, sets the game of the room to [active]
    whatever its status was, answers the joiner with [room_joined] (the
    game as stored, shown as active, and the chat history of the room) and
    then sends [game_started] to every open connection bound to the room,
    the joiner included. *)
Theorem join_room_starts (s : Server) (ws : WebSocket) (message : Message)
    (client : ClientConnection) (room : Room.t) (game : Game.t) :
  clients_get ws (clients s) = Some client ->
  storage.getRoomByCode (msg_roomCode message) (db s) = Found room ->
  JS.truthy_number (Room.player2Id room) = false ->
  storage.getGameByRoomId (Room.id room) (db s) = Some game ->
  let s' := fst (run (handleJoinRoom ws message) s) in
  let gameState := mkBrief (Game.boardState game) (Game.currentTurn game)
                           (Game.moveHistory game) active in
  storage.getRoomByCode (msg_roomCode message) (db s') =
    Found (set_player2Id 2 room) /\
  storage.getGameByRoomId (Room.id room) (db s') =
    Some (set_status active game) /\
  snd (run (handleJoinRoom ws message) s) =
    (ws, room_joined (Room.code room) (Room.id room) black gameState
           (storage.getChatMessages (Room.id room) (db s)))
    :: map (fun x => (x, game_started gameState))
           (recipients s' (Room.id room) None) /\
  (is_open s ws = true -> In ws (recipients s' (Room.id room) None)).
Proof.
  intros Hc Hroom Hfree Hgame s' gameState. subst s' gameState.
  unfold handleJoinRoom; unfold_effects. simpl.
  rewrite Hroom. simpl. rewrite Hfree. simpl. rewrite Hc. simpl.
  assert (Hg : storage.getGameByRoomId (Room.id room)
                 (storage.updateRoom (Room.id room) (set_player2Id 2) (db s))
               = Some game) by exact Hgame.
  rewrite Hg. simpl.
  split; [|split; [|split; [reflexivity|]]].
  - apply getRoomByCode_found in Hroom.
    destruct Hroom as (code & Hcode & Haccepts & Hroom).
    apply getRoomByCode_found. exists code.
    split; [exact Hcode|]. split; [exact Haccepts|]. simpl.
    rewrite find_map_keeps.
    + rewrite Hroom. simpl. now rewrite Z.eqb_refl.
    + intros x. destruct (Z.eqb (Room.id x) (Room.id room)); reflexivity.
  - unfold storage.getGameByRoomId in *. simpl.
    rewrite find_map_keeps.
    + rewrite Hgame. simpl. now rewrite Z.eqb_refl.
    + intros x. destruct (Z.eqb (Game.id x) (Game.id game)); reflexivity.
  - intros Hopen. apply recipients_spec. simpl.
    split; [reflexivity|]. split; [exact Hopen|].
    exists (mkClient (Some (Room.id room)) (Some 2%Z)
              (Some (JS.or_else (msg_playerName message) "Player 2"))
              (Some black)).
    split; [|reflexivity].
    apply clients_get_In. eapply clients_get_assign. exact Hc.
Qed.

(** X13. [make_move], [send_chat], [resign] and [offer_draw] from a
    connection whose session is not bound to a room are answered by the
    error event [Not in a room], sent to that connection only, and change
    nothing. *)
Theorem unbound_session_rejected (s : Server) (ws : WebSocket)
    (message : Message) :
  boundRoom (clients_get ws (clients s)) = None ->
  run (handleMakeMove ws message) s = (s, [(ws, error "Not in a room")]) /\
  run (handleSendChat ws message) s = (s, [(ws, error "Not in a room")]) /\
  run (handleResign ws) s = (s, [(ws, error "Not in a room")]) /\
  run (handleOfferDraw ws) s = (s, [(ws, error "Not in a room")]).
Proof.
  intros Hb.
  unfold handleMakeMove, handleSendChat, handleResign, handleOfferDraw;
    unfold_effects.
  destruct (clients_get ws (clients s)) as [client|];
    [rewrite Hb|]; repeat split.
Qed.

(** X14. [resign] from a session bound to a room whose game is active
    makes the game [resigned] with the other colour as winner, whoever is
    to move, leaves board, turn and history as they were, and sends
    [game_ended] to every open connection bound to the room, the resigner
    included. *)
Theorem resign_ends_game (s : Server) (ws : WebSocket)
    (client : ClientConnection) (rid : Z) (game : Game.t) :
  playing s ws client rid game ->
  Game.status game = active ->
  let winner := if color_is (color client) white then black else white in
  let s' := fst (run (handleResign ws) s) in
  storage.getGameByRoomId rid (db s') =
    Some (Game.mk (Game.id game) (Game.roomId game) (Game.currentTurn game)
                  (Game.boardState game) (Game.moveHistory game) resigned
                  (Some winner)) /\
  snd (run (handleResign ws) s) =
    map (fun x => (x, game_ended winner (color client)))
        (recipients s rid None) /\
  clients s' = clients s /\ rooms (db s') = rooms (db s) /\
  chatMessages (db s') = chatMessages (db s) /\
  (color client = Some white -> winner = black) /\
  (color client = Some black -> winner = white).
Proof.
  intros Hplay _ winner s'. subst winner s'.
  split; [exact (resign_overwrites s ws client rid game Hplay)|].
  destruct Hplay as (Hc & Hb & Hg).
  unfold handleResign; unfold_effects. rewrite Hc, Hb, Hg. simpl.
  repeat (split; [reflexivity|]).
  split; intros ->; reflexivity.
Qed.

(** X15. A [make_move] either changes nothing and answers the mover with
    exactly one error event, or all its preconditions hold, the rules
    engine returned a move and the run is the whole of the played move:
    the game row holds the position after the move and [move_made] goes to
    the room.  There is no partial update and the turn never advances on a
    failed attempt. *)
Theorem make_move_all_or_nothing (s : Server) (ws : WebSocket)
    (message : Message) :
  (exists reason,
     run (handleMakeMove ws message) s = (s, [(ws, error reason)])) \/
  (exists client rid game chess m chess',
     move_allowed s ws message client rid game chess /\
     snd (tryMove chess message) = Some (m, chess') /\
     run (handleMakeMove ws message) s = commits s rid game message m chess').
Proof.
  unfold handleMakeMove, loadChess; unfold_effects.
  destruct (clients_get ws (clients s)) as [client|] eqn:Hc;
    [|left; eexists; reflexivity].
  destruct (boundRoom (Some client)) as [rid|] eqn:Hb;
    [|left; eexists; reflexivity].
  destruct (storage.getGameByRoomId rid (db s)) as [game|] eqn:Hg; simpl;
    [|left; eexists; reflexivity].
  destruct (Status_eqb (Game.status game) active) eqn:Hst; simpl;
    [|left; eexists; reflexivity].
  destruct (color_is (color client) (Game.currentTurn game)) eqn:Hturn; simpl;
    [|left; eexists; reflexivity].
  destruct (loadFen (Game.boardState game)) as [chess|] eqn:Hload; simpl;
    [|left; eexists; reflexivity].
  destruct (get chess (msg_from message)) as [found|] eqn:Hget; simpl;
    [|left; eexists; reflexivity].
  destruct (Side_eqb (piece_color found) (side_of_color (Game.currentTurn game)))
    eqn:Hown; simpl; [|left; eexists; reflexivity].
  destruct (snd (tryMove chess message)) as [[m chess']|] eqn:Htry; simpl;
    [|left; eexists; reflexivity].
  right. exists client, rid, game, chess, m, chess'.
  split; [|split; [exact Htry | reflexivity]].
  split; [repeat split; assumption|].
  split; [now apply Status_eqb_eq|].
  split; [now apply color_is_eq|].
  split; [exact Hload|].
  exists found. split; [exact Hget | now apply Side_eqb_eq].
Qed.

(** X16. The [move_made] event of an accepted move goes to every open
    connection bound to the room, the mover included, and shows the game
    as it is stored afterwards; its [draw] and [stalemate] flags are
    always false and its [gameOver] flag is the engine's checkmate
    report.  Sessions, rooms and chat rows stay as they were, and so does
    every game row with another key. *)
Theorem make_move_broadcast (s : Server) (ws : WebSocket) (message : Message)
    (client : ClientConnection) (rid : Z) (game : Game.t)
    (chess chess' : Chess) (m : Move) :
  move_allowed s ws message client rid game chess ->
  snd (tryMove chess message) = Some (m, chess') ->
  let s' := fst (run (handleMakeMove ws message) s) in
  exists game',
    storage.getGameByRoomId rid (db s') = Some game' /\
    snd (run (handleMakeMove ws message) s) =
      map (fun x =>
             (x, move_made
                   (mkMoveInfo (msg_from message) (msg_to message)
                      (msg_promotion message) (san m) (piece m) (captured m))
                   (mkFull (Game.boardState game') (Game.currentTurn game')
                      (Game.moveHistory game') (Game.status game')
                      (Game.winner game') (inCheck chess')
                      (isCheckmate chess') false false (turn chess')
                      (isCheckmate chess'))))
          (recipients s rid None) /\
    clients s' = clients s /\ rooms (db s') = rooms (db s) /\
    chatMessages (db s') = chatMessages (db s) /\
    (forall g, In g (games (db s)) -> Game.id g <> Game.id game ->
               In g (games (db s'))).
Proof.
  intros ((Hc & Hb & Hg) & Hst & Hturn & Hload & found & Hget & Hown) Htry s'.
  subst s'.
  exists (set_position (fen chess') (color_of_side (turn chess'))
            (Game.moveHistory game ++ [san m])
            (if isCheckmate chess' then checkmate else active)
            (if isCheckmate chess' then Some (Game.currentTurn game) else None)
            game).
  unfold handleMakeMove, loadChess; unfold_effects.
  rewrite Hc, Hb, Hg, Hst. simpl.
  rewrite (proj2 (color_is_eq _ _) Hturn). simpl.
  rewrite Hload, Hget, Hown.
  rewrite (proj2 (Side_eqb_eq _ _) eq_refl). simpl.
  rewrite Htry. simpl.
  split; [|split; [|split; [reflexivity|split; [reflexivity|split;
                                                  [reflexivity|]]]]].
  - unfold storage.getGameByRoomId, storage.updateGame. simpl.
    rewrite find_map_keeps.
    + unfold storage.getGameByRoomId in Hg. rewrite Hg. simpl.
      rewrite Z.eqb_refl. reflexivity.
    + intros x. destruct (Z.eqb (Game.id x) (Game.id game)); reflexivity.
  - destruct (isCheckmate chess'); reflexivity.
  - intros g Hin Hid. apply in_map_iff. exists g. split; [|exact Hin].
    destruct (Z.eqb (Game.id g) (Game.id game)) eqn:Heq; [|reflexivity].
    apply Z.eqb_eq in Heq. contradiction.
Qed.

(** X17. A chat text the store takes, sent from a bound session, becomes
    the last message of the chat history of its room, which is what a
    later joiner of the room is shown; the history of every other room is
    unchanged.  A chat message the store does not take (no text, or the
    character U+0000 in the text or in the player name) leaves every
    history as it was. *)
Theorem send_chat_history (s : Server) (ws : WebSocket) (message : Message)
    (client : ClientConnection) (rid : Z) :
  clients_get ws (clients s) = Some client ->
  boundRoom (Some client) = Some rid ->
  let name := JS.or_else (playerName client) "Anonymous" in
  let s' := fst (run (handleSendChat ws message) s) in
  (forall text,
     msg_message message = Some text ->
     storage.accepts name = true ->
     storage.accepts text = true ->
     storage.getChatMessages rid (db s') =
       (storage.getChatMessages rid (db s) ++
        [ChatMessage.mk (chat_messages_id_seq (db s) + 1) rid
           (if JS.truthy_number (playerId client) then playerId client
            else None)
           name text])%list /\
     forall other, other <> rid ->
       storage.getChatMessages other (db s') =
       storage.getChatMessages other (db s)) /\
  (storable name (msg_message message) = false ->
   forall room,
     storage.getChatMessages room (db s') = storage.getChatMessages room (db s)).
Proof.
  intros Hc Hb name s'. subst s'.
  unfold handleSendChat, storage.addChatMessage; unfold_effects.
  rewrite Hc, Hb. fold name. split.
  - intros text Htext Hname Haccepts. rewrite Htext. simpl.
    rewrite Hname, Haccepts. simpl.
    unfold storage.getChatMessages. simpl. split.
    + rewrite filter_app. simpl. now rewrite Z.eqb_refl.
    + intros other Hother. rewrite filter_app. simpl.
      destruct (Z.eqb rid other) eqn:Heq.
      * apply Z.eqb_eq in Heq. subst other. contradiction.
      * apply app_nil_r.
  - unfold storable. intros Hnot room.
    destruct (msg_message message) as [text|]; simpl;
      [rewrite Hnot | destruct (storage.accepts name)]; reflexivity.
Qed.

(** *** The connection lifecycle *)

Lemma clients_get_set (ws x : WebSocket) (c : ClientConnection)
    (cs : list (WebSocket * ClientConnection)) :
  clients_get x (clients_set ws c cs) =
  if Nat.eqb ws x then Some c else clients_get x cs.
Proof.
  unfold clients_get. induction cs as [|[y cy] cs IH]; simpl.
  - destruct (Nat.eqb ws x); reflexivity.
  - destruct (Nat.eqb y ws) eqn:Hy; simpl.
    + apply Nat.eqb_eq in Hy. subst y. destruct (Nat.eqb ws x); reflexivity.
    + destruct (Nat.eqb y x) eqn:Hyx; simpl.
      * apply Nat.eqb_eq in Hyx. subst y. now rewrite Nat.eqb_sym, Hy.
      * exact IH.
Qed.

Lemma clients_get_delete (ws x : WebSocket)
    (cs : list (WebSocket * ClientConnection)) :
  clients_get x (clients_delete ws cs) =
  if Nat.eqb ws x then None else clients_get x cs.
Proof.
  unfold clients_get, clients_delete.
  induction cs as [|[y cy] cs IH]; simpl.
  - destruct (Nat.eqb ws x); reflexivity.
  - destruct (Nat.eqb y ws) eqn:Hy; simpl.
    + apply Nat.eqb_eq in Hy. subst y.
      destruct (Nat.eqb ws x); exact IH.
    + destruct (Nat.eqb y x) eqn:Hyx; simpl; [|exact IH].
      apply Nat.eqb_eq in Hyx. subst y. now rewrite Nat.eqb_sym, Hy.
Qed.

(** X18. A new connection is greeted with [connected] and gets a session
    of its own that is bound to no room, so that its game messages are
    answered by [Not in a room] until it creates or joins a room; the
    sessions of the other connections and the database stay as they
    were. *)
Theorem connection_registers (ws : WebSocket) (s : Server) (message : Message) :
  let s' := fst (run (onConnection ws) s) in
  snd (run (onConnection ws) s) = [(ws, connected)] /\
  clients_get ws (clients s') = Some freshClient /\
  (forall x, x <> ws -> clients_get x (clients s') = clients_get x (clients s)) /\
  db s' = db s /\
  run (handleMakeMove ws message) s' = (s', [(ws, error "Not in a room")]) /\
  run (handleResign ws) s' = (s', [(ws, error "Not in a room")]).
Proof.
  intros s'. subst s'.
  change (run (onConnection ws) s)
    with (mkServer (clients_set ws freshClient (clients s))
                   (ws :: openSockets s) (db s), [(ws, connected)]).
  cbn [fst snd clients db openSockets].
  assert (Hget : clients_get ws (clients_set ws freshClient (clients s)) =
                 Some freshClient).
  { rewrite clients_get_set. now rewrite Nat.eqb_refl. }
  split; [reflexivity|]. split; [exact Hget|]. split.
  - intros x Hx. rewrite clients_get_set.
    destruct (Nat.eqb ws x) eqn:Heq; [|reflexivity].
    apply Nat.eqb_eq in Heq. subst x. contradiction.
  - split; [reflexivity|].
    split; unfold handleMakeMove, handleResign; unfold_effects; simpl;
      rewrite Hget; reflexivity.
Qed.

(** X19. After a connection is closed its session is gone: nothing that
    still arrives on it is answered or changes anything, and no broadcast
    reaches it.  The database and the sessions of the other connections
    stay, so that the room and its game are still there for the other
    player. *)
Theorem closed_connection_is_silent (ws : WebSocket) (s : Server) :
  let s' := fst (run (onClose ws) s) in
  clients_get ws (clients s') = None /\
  db s' = db s /\
  (forall x, x <> ws -> clients_get x (clients s') = clients_get x (clients s)) /\
  (forall r data, run (onMessage r ws data) s' = (s', [])) /\
  (forall rid exclude, ~ In ws (recipients s' rid exclude)).
Proof.
  intros s'. subst s'.
  change (fst (run (onClose ws) s))
    with (mkServer (clients_delete ws (clients s))
                   (filter (fun x => negb (Nat.eqb x ws)) (openSockets s))
                   (db s)).
  cbn [clients db openSockets].
  assert (Hget : clients_get ws (clients_delete ws (clients s)) = None).
  { rewrite clients_get_delete. now rewrite Nat.eqb_refl. }
  assert (Hclosed : forall os, existsb (Nat.eqb ws)
             (filter (fun x => negb (Nat.eqb x ws)) os) = false).
  { induction os as [|y os IH]; simpl; [reflexivity|].
    destruct (Nat.eqb y ws) eqn:Hy; simpl; [exact IH|].
    rewrite Nat.eqb_sym, Hy. exact IH. }
  split; [exact Hget|]. split; [reflexivity|]. split.
  - intros x Hx. rewrite clients_get_delete.
    destruct (Nat.eqb ws x) eqn:Heq; [|reflexivity].
    apply Nat.eqb_eq in Heq. subst x. contradiction.
  - split.
    + intros r data. destruct data as [| |message].
      * unfold onMessage, invalidFormat, is_open; unfold_effects. simpl.
        now rewrite Hclosed.
      * unfold onMessage, invalidFormat, is_open; unfold_effects. simpl.
        now rewrite Hclosed.
      * rewrite run_onMessage, run_dispatch. simpl. now rewrite Hget.
    + intros rid exclude Hin. apply recipients_spec in Hin.
      destruct Hin as (_ & Hopen & _). unfold is_open in Hopen. simpl in Hopen.
      rewrite Hclosed in Hopen. discriminate Hopen.
Qed.

(** *** Tables only grow *)

Lemma Forall2_map_self {A} (R : A -> A -> Prop) (f : A -> A) (l : list A) :
  (forall x, In x l -> R x (f x)) -> Forall2 R l (map f l).
Proof.
  induction l as [|x l IH]; simpl; intros H; constructor.
  - apply H. now left.
  - apply IH. intros y Hy. apply H. now right.
Qed.

Lemma room_extends_refl (x : Room.t) : room_extends x x.
Proof. repeat split; auto. Qed.

Lemma game_extends_refl (g : Game.t) : game_extends g g.
Proof. split; reflexivity. Qed.

Lemma room_extends_trans (x y z : Room.t) :
  room_extends x y -> room_extends y z -> room_extends x z.
Proof.
  intros (Hi & Hc & H1 & H2) (Hi' & Hc' & H1' & H2').
  split; [congruence|]. split; [congruence|].
  split; [destruct H1' as [H|H]; [rewrite H; exact H1 | now right]
         |destruct H2' as [H|H]; [rewrite H; exact H2 | now right]].
Qed.

Lemma game_extends_trans (x y z : Game.t) :
  game_extends x y -> game_extends y z -> game_extends x z.
Proof. intros (Hi & Hr) (Hi' & Hr'). split; congruence. Qed.

Lemma Forall2_trans {A} (R : A -> A -> Prop) (l1 l2 l3 : list A) :
  (forall x y z, R x y -> R y z -> R x z) ->
  Forall2 R l1 l2 -> Forall2 R l2 l3 -> Forall2 R l1 l3.
Proof.
  intros HR H12. revert l3.
  induction H12 as [|x y l1 l2 Hxy H12 IH]; intros l3 H23;
    inversion H23; subst; constructor.
  - eapply HR; eassumption.
  - now apply IH.
Qed.

(** Rows in place up to [R], new rows at the end: a preorder when [R] is
    one. *)
Lemma grown_trans {A} (R : A -> A -> Prop) (l1 l2 l3 : list A) :
  (forall x y z, R x y -> R y z -> R x z) ->
  (exists rs new, l2 = (rs ++ new)%list /\ Forall2 R l1 rs) ->
  (exists rs new, l3 = (rs ++ new)%list /\ Forall2 R l2 rs) ->
  exists rs new, l3 = (rs ++ new)%list /\ Forall2 R l1 rs.
Proof.
  intros HR (rs & new & -> & H12) (rs' & new' & -> & H23).
  apply Forall2_app_inv_l in H23.
  destruct H23 as (rs1 & rs2 & Hrs1 & _ & ->).
  exists rs1, (rs2 ++ new')%list. split; [now rewrite app_assoc|].
  eapply Forall2_trans; eassumption.
Qed.

Lemma db_extends_refl (d : DB) : db_extends d d.
Proof.
  split; [|split].
  - exists (rooms d), []. split; [symmetry; apply app_nil_r|].
    rewrite <- (map_id (rooms d)) at 2. apply Forall2_map_self.
    intros x _. apply room_extends_refl.
  - exists (games d), []. split; [symmetry; apply app_nil_r|].
    rewrite <- (map_id (games d)) at 2. apply Forall2_map_self.
    intros x _. apply game_extends_refl.
  - exists []. symmetry. apply app_nil_r.
Qed.

Lemma db_extends_trans (d1 d2 d3 : DB) :
  db_extends d1 d2 -> db_extends d2 d3 -> db_extends d1 d3.
Proof.
  intros (Hr & Hg & new & Hc) (Hr' & Hg' & new' & Hc').
  split; [|split].
  - exact (grown_trans _ _ _ _ room_extends_trans Hr Hr').
  - exact (grown_trans _ _ _ _ game_extends_trans Hg Hg').
  - exists (new ++ new')%list. rewrite Hc', Hc. symmetry. apply app_assoc.
Qed.

Lemma rooms_grow_same (l : list Room.t) :
  exists rs new, l = (rs ++ new)%list /\ Forall2 room_extends l rs.
Proof.
  exists l, []. split; [symmetry; apply app_nil_r|].
  rewrite <- (map_id l) at 2. apply Forall2_map_self.
  intros x _. apply room_extends_refl.
Qed.

Lemma games_grow_same (l : list Game.t) :
  exists gs new, l = (gs ++ new)%list /\ Forall2 game_extends l gs.
Proof.
  exists l, []. split; [symmetry; apply app_nil_r|].
  rewrite <- (map_id l) at 2. apply Forall2_map_self.
  intros x _. apply game_extends_refl.
Qed.

Lemma rooms_grow_update (l extra : list Room.t) (test : Room.t -> bool)
    (f : Room.t -> Room.t) :
  (forall x, room_extends x (f x)) ->
  exists rs new,
    map (fun x => if test x then f x else x) (l ++ extra) = (rs ++ new)%list /\
    Forall2 room_extends l rs.
Proof.
  intros Hf. rewrite map_app. eexists. eexists. split; [reflexivity|].
  apply Forall2_map_self. intros x _.
  destruct (test x); [apply Hf | apply room_extends_refl].
Qed.

Lemma games_grow_update (l : list Game.t) (test : Game.t -> bool)
    (f : Game.t -> Game.t) :
  (forall x, game_extends x (f x)) ->
  exists gs new,
    map (fun x => if test x then f x else x) l = (gs ++ new)%list /\
    Forall2 game_extends l gs.
Proof.
  intros Hf. eexists. exists []. split; [symmetry; apply app_nil_r|].
  apply Forall2_map_self. intros x Hx.
  destruct (test x); [apply Hf | apply game_extends_refl].
Qed.

Lemma seat_taken_extends (x : Room.t) :
  room_extends x (set_player1Id 1 x) /\ room_extends x (set_player2Id 2 x).
Proof.
  split; (split; [reflexivity|]; split; [reflexivity|]; simpl;
          split; (now left) || (now right)).
Qed.

(** The updates of a game row keep its key and its room. *)
Lemma game_updates_extend (x : Game.t) :
  (forall st, game_extends x (set_status st x)) /\
  (forall st win, game_extends x (set_status_winner st win x)) /\
  (forall f t h st win, game_extends x (set_position f t h st win x)).
Proof. repeat split. Qed.

(** Each statement keeps the rows in place. *)
Lemma statement_grows (q : Statement) (d : DB) : db_extends d (perform q d).
Proof.
  pose proof (db_extends_refl d) as Hsame.
  destruct q as [code | id | id | rid next board history st | id st
                |id board next history st win | id st win
                |rid pid name message]; simpl.
  - unfold storage.createRoom.
    destruct (existsb _ (rooms d)); simpl; [exact Hsame|].
    split; simpl; [|split; [apply games_grow_same|]];
      [|exists []; symmetry; apply app_nil_r].
    exists (rooms d), [Room.mk (rooms_id_seq d + 1) code None None true].
    split; [reflexivity|]. destruct Hsame as ((rs & new & Hrs & Hall) & _).
    rewrite <- (map_id (rooms d)) at 2. apply Forall2_map_self.
    intros x _. apply room_extends_refl.
  - split; simpl; [|split; [apply games_grow_same|]];
      [|exists []; symmetry; apply app_nil_r].
    pose proof (rooms_grow_update (rooms d) []
                  (fun x => Z.eqb (Room.id x) id) (set_player1Id 1)) as Hgrow.
    rewrite app_nil_r in Hgrow. apply Hgrow.
    intros x. apply seat_taken_extends.
  - split; simpl; [|split; [apply games_grow_same|]];
      [|exists []; symmetry; apply app_nil_r].
    pose proof (rooms_grow_update (rooms d) []
                  (fun x => Z.eqb (Room.id x) id) (set_player2Id 2)) as Hgrow.
    rewrite app_nil_r in Hgrow. apply Hgrow.
    intros x. apply seat_taken_extends.
  - split; simpl; [apply rooms_grow_same|]. split.
    + eexists. eexists. split; [reflexivity|].
      rewrite <- (map_id (games d)) at 2. apply Forall2_map_self.
      intros x _. apply game_extends_refl.
    + exists []. symmetry. apply app_nil_r.
  - split; simpl; [apply rooms_grow_same|]. split.
    + apply games_grow_update. intros x. apply game_updates_extend.
    + exists []. symmetry. apply app_nil_r.
  - split; simpl; [apply rooms_grow_same|]. split.
    + apply games_grow_update. intros x. apply game_updates_extend.
    + exists []. symmetry. apply app_nil_r.
  - split; simpl; [apply rooms_grow_same|]. split.
    + apply games_grow_update. intros x. apply game_updates_extend.
    + exists []. symmetry. apply app_nil_r.
  - unfold storage.addChatMessage.
    destruct message as [text|];
      destruct (storage.accepts name && storage.accepts_field _);
      simpl; try exact Hsame.
    split; [apply rooms_grow_same|]. split; [apply games_grow_same|].
    eexists. reflexivity.
Qed.

Lemma statements_grow (qs : list Statement) (d : DB) :
  db_extends d (performAll qs d).
Proof.
  unfold performAll. revert d.
  induction qs as [|q qs IH]; intros d; simpl; [apply db_extends_refl|].
  eapply db_extends_trans; [apply statement_grows | apply IH].
Qed.

(** What a message does to the store is done by statements of this
    kind. *)
Lemma message_statements (r : string) (ws : WebSocket) (data : Inbound)
    (s : Server) :
  exists qs, db (fst (run (onMessage r ws data) s)) = performAll qs (db s).
Proof.
  assert (Hnone : exists qs, db s = performAll qs (db s))
    by (exists []; reflexivity).
  destruct data as [| |message].
  - unfold onMessage, invalidFormat; unfold_effects.
    destruct (is_open s ws); exact Hnone.
  - unfold onMessage, invalidFormat; unfold_effects.
    destruct (is_open s ws); exact Hnone.
  - rewrite run_onMessage, run_dispatch.
    destruct (clients_get ws (clients s)) as [c0|] eqn:Hc0; [|exact Hnone].
    destruct (type_is message "create_room").
    { unfold handleCreateRoom; unfold_effects. simpl.
      destruct (storage.createRoom (generateRoomCode r) (db s))
        as [[room|] d1] eqn:Hcreate; simpl.
      - rewrite Hc0. simpl.
        exists [InsertRoom (generateRoomCode r);
                InsertGame (Room.id room) white (fen newChess) [] waiting;
                SeatPlayer1 (Room.id room)].
        unfold performAll. simpl. rewrite Hcreate. reflexivity.
      - exists [InsertRoom (generateRoomCode r)].
        unfold performAll. simpl. rewrite Hcreate. reflexivity. }
    destruct (type_is message "join_room").
    { unfold handleJoinRoom; unfold_effects. simpl.
      destruct (storage.getRoomByCode _ (db s)) as [| |room]; simpl;
        [exact Hnone..|].
      destruct (JS.truthy_number (Room.player2Id room)); simpl; [exact Hnone|].
      rewrite Hc0. simpl.
      destruct (storage.getGameByRoomId (Room.id room) _) as [game|]; simpl.
      - exists [SeatPlayer2 (Room.id room); SetStatus (Game.id game) active].
        reflexivity.
      - exists [SeatPlayer2 (Room.id room)]. reflexivity. }
    destruct (type_is message "make_move").
    { unfold handleMakeMove, loadChess; unfold_effects. rewrite Hc0.
      destruct (boundRoom (Some c0)) as [rid|]; [|exact Hnone].
      destruct (storage.getGameByRoomId rid (db s)) as [game|] eqn:Hg; simpl;
        [|exact Hnone].
      destruct (Status_eqb (Game.status game) active); simpl; [|exact Hnone].
      destruct (color_is (color c0) (Game.currentTurn game)); simpl;
        [|exact Hnone].
      destruct (loadFen (Game.boardState game)) as [chess|]; simpl;
        [|exact Hnone].
      destruct (get chess (msg_from message)) as [found|]; simpl;
        [|exact Hnone].
      destruct (Side_eqb (piece_color found)
                         (side_of_color (Game.currentTurn game)));
        simpl; [|exact Hnone].
      destruct (snd (tryMove chess message)) as [[m chess']|]; simpl;
        [|exact Hnone].
      eexists [SetPosition (Game.id game) _ _ _ _ _]. reflexivity. }
    destruct (type_is message "send_chat").
    { unfold handleSendChat; unfold_effects.
      rewrite Hc0. destruct (boundRoom (Some c0)) as [rid|]; [|exact Hnone].
      match goal with
      | |- context [storage.addChatMessage ?a ?b ?c ?e (db s)] =>
          exists [InsertChat a b c e]; unfold performAll; simpl;
          destruct (storage.addChatMessage a b c e (db s)) as [[row|] d1]
      end; reflexivity. }
    destruct (type_is message "resign").
    { unfold handleResign; unfold_effects. rewrite Hc0.
      destruct (boundRoom (Some c0)) as [rid|]; [|exact Hnone].
      destruct (storage.getGameByRoomId rid (db s)) as [game|]; simpl;
        [|exact Hnone].
      eexists [SetResult (Game.id game) _ _]. reflexivity. }
    destruct (type_is message "offer_draw").
    { unfold handleOfferDraw; unfold_effects. rewrite Hc0.
      destruct (boundRoom (Some c0)) as [rid|]; exact Hnone. }
    exact Hnone.
Qed.

Lemma message_grows (r : string) (ws : WebSocket) (data : Inbound)
    (s : Server) :
  db_extends (db s) (db (fst (run (onMessage r ws data) s))).
Proof.
  destruct (message_statements r ws data s) as [qs ->].
  apply statements_grow.
Qed.

Lemma events_grow (events : list Event) (s : Server) :
  db_extends (db s) (db (continue s events)).
Proof.
  unfold continue. revert s.
  induction events as [|e events IH]; intros s; simpl;
    [apply db_extends_refl|].
  eapply db_extends_trans; [|apply IH].
  destruct e as [ws | r ws data | ws]; simpl;
    [apply db_extends_refl | apply message_grows | apply db_extends_refl].
Qed.

(** A room found by its code is found by it in every later state of the
    tables, in a later version. *)
Lemma found_room_stays (d d' : DB) (code : option string) (room : Room.t) :
  db_extends d d' ->
  storage.getRoomByCode code d = Found room ->
  exists room', storage.getRoomByCode code d' = Found room' /\
                room_extends room room'.
Proof.
  intros ((rs & new & Hrooms & Hrs) & _) Hfound.
  apply getRoomByCode_found in Hfound.
  destruct Hfound as (c & -> & Haccepts & Hfind).
  assert (Hfind' : exists room',
             find (fun r => String.eqb (Room.code r) c) (rs ++ new) =
               Some room' /\ room_extends room room').
  { clear Hrooms. induction Hrs as [|x y l l' Hxy Hrs IH]; simpl in *;
      [discriminate|].
    destruct Hxy as (Hid & Hcode & Hseats). rewrite Hcode.
    destruct (String.eqb (Room.code x) c).
    - inversion Hfind; subst x. exists y. split; [reflexivity|].
      split; [exact Hid|]. split; [exact Hcode | exact Hseats].
    - now apply IH. }
  destruct Hfind' as (room' & Hfind' & Hext).
  exists room'. split; [|exact Hext].
  apply getRoomByCode_found. exists c.
  split; [reflexivity|]. split; [exact Haccepts|]. now rewrite Hrooms.
Qed.

Lemma seat_stays_taken (room room' : Room.t) :
  room_extends room room' ->
  JS.truthy_number (Room.player2Id room) = true ->
  JS.truthy_number (Room.player2Id room') = true.
Proof.
  intros (_ & _ & _ & [H|H]) Htaken; rewrite H; [exact Htaken | reflexivity].
Qed.

(** X12. After a [join_room] has taken the second seat of a room, the seat
    stays taken: a [join_room] with that code, from any connection, is
    answered by [Room is full] and changes nothing in every state whose
    tables are later states of the tables the first join left, and so
    after every sequence of events handled after the first join. *)
Theorem second_join_rejected (s : Server) (ws ws2 : WebSocket)
    (message message2 : Message) (client : ClientConnection) (room : Room.t) :
  clients_get ws (clients s) = Some client ->
  storage.getRoomByCode (msg_roomCode message) (db s) = Found room ->
  JS.truthy_number (Room.player2Id room) = false ->
  msg_roomCode message2 = msg_roomCode message ->
  let s' := fst (run (handleJoinRoom ws message) s) in
  (forall later,
     db_extends (db s') (db later) ->
     run (handleJoinRoom ws2 message2) later =
       (later, [(ws2, error "Room is full")])) /\
  (forall events,
     run (handleJoinRoom ws2 message2) (continue s' events) =
       (continue s' events, [(ws2, error "Room is full")])).
Proof.
  intros Hc Hroom Hfree Hcode s'.
  assert (Hfull : storage.getRoomByCode (msg_roomCode message2) (db s') =
                  Found (set_player2Id 2 room)).
  { subst s'. rewrite Hcode.
    unfold handleJoinRoom; unfold_effects. simpl.
    rewrite Hroom. simpl. rewrite Hfree. simpl. rewrite Hc. simpl.
    assert (Hfind : storage.getRoomByCode (msg_roomCode message)
              (storage.updateRoom (Room.id room) (set_player2Id 2) (db s)) =
              Found (set_player2Id 2 room)).
    { apply getRoomByCode_found in Hroom.
      destruct Hroom as (code & Hmsg & Haccepts & Hroom).
      apply getRoomByCode_found. exists code.
      split; [exact Hmsg|]. split; [exact Haccepts|]. simpl.
      rewrite find_map_keeps.
      - rewrite Hroom. simpl. now rewrite Z.eqb_refl.
      - intros x. destruct (Z.eqb (Room.id x) (Room.id room)); reflexivity. }
    destruct (storage.getGameByRoomId (Room.id room) _); simpl; exact Hfind. }
  assert (Hlater : forall later,
             db_extends (db s') (db later) ->
             run (handleJoinRoom ws2 message2) later =
               (later, [(ws2, error "Room is full")])).
  { intros later Hext.
    destruct (found_room_stays _ _ _ _ Hext Hfull) as (room' & Hfound & Hroom').
    pose proof (seat_stays_taken _ _ Hroom' eq_refl) as Htaken.
    unfold handleJoinRoom; unfold_effects.
    rewrite Hfound. simpl. rewrite Htaken. reflexivity. }
  split; [exact Hlater|].
  intros events. apply Hlater. apply events_grow.
Qed.

(** X20. The statements by which the handlers change the store delete and
    reorder no row, in whatever order they are performed: rooms keep key
    and code and a taken seat stays taken, games keep key and room, chat
    rows are never changed, and new rows come after the old ones.  What a
    message does to the store is a sequence of such statements, so the
    same holds of every message and of every sequence of events, from
    whatever state.  The move history of a game is not among what is
    kept. *)
Theorem tables_only_grow :
  (forall qs d, db_extends d (performAll qs d)) /\
  (forall s r ws data,
     exists qs,
       db (fst (run (onMessage r ws data) s)) = performAll qs (db s)) /\
  (forall s events, db_extends (db s) (db (continue s events))).
Proof.
  split; [exact statements_grow|]. split.
  - intros s r ws data. apply message_statements.
  - intros s events. apply events_grow.
Qed.

End Coverage.

(** * Properties of the client *)

(** ** Room codes on the client *)

(** X21. A code the server generates from a random text with at least six
    digits after the point passes the client's [isValidRoomCode]. *)
Theorem server_code_is_valid (r : string) :
  is_unit_base36 r = true -> (8 <= String.length r)%nat ->
  Client.isValidRoomCode (generateRoomCode r) = true.
Proof.
  intros Hr Hlen. unfold Client.isValidRoomCode.
  rewrite (generateRoomCode_length r Hlen), (generateRoomCode_chars r Hr).
  reflexivity.
Qed.

Lemma upper_char_code_id (c : ascii) :
  is_code_char c = true -> JS.upper_char c = c.
Proof.
  destruct c as [[] [] [] [] [] [] [] []]; vm_compute; intros H;
    (reflexivity || discriminate H).
Qed.

Lemma toUpperCase_code_id (s : string) :
  JS.forallb_string is_code_char s = true -> JS.toUpperCase s = s.
Proof.
  induction s as [|c s IH]; simpl; [reflexivity|]. intros H.
  apply andb_prop in H. destruct H as [Hc Hs].
  now rewrite (upper_char_code_id c Hc), IH.
Qed.

Lemma keepCodeChars_code (s : string) :
  JS.forallb_string is_code_char (Client.keepCodeChars s) = true.
Proof.
  induction s as [|c s IH]; simpl; [reflexivity|].
  destruct (is_code_char c) eqn:Hc; simpl; [now rewrite Hc | exact IH].
Qed.

Lemma keepCodeChars_id (s : string) :
  JS.forallb_string is_code_char s = true -> Client.keepCodeChars s = s.
Proof.
  induction s as [|c s IH]; simpl; [reflexivity|]. intros H.
  apply andb_prop in H. destruct H as [Hc Hs]. now rewrite Hc, IH.
Qed.

Lemma substring0_length (n : nat) (s : string) :
  (String.length (String.substring 0 n s) <= n)%nat.
Proof.
  revert s. induction n as [|n IH]; intros [|c s]; simpl; try lia.
  specialize (IH s). lia.
Qed.

Lemma substring0_id (n : nat) (s : string) :
  (String.length s <= n)%nat -> String.substring 0 n s = s.
Proof.
  revert s. induction n as [|n IH]; intros [|c s]; simpl; intros H;
    try reflexivity; try lia.
  rewrite IH; [reflexivity | lia].
Qed.

Lemma handleRoomCodeChange_code (value : string) :
  JS.forallb_string is_code_char (Client.handleRoomCodeChange value) = true /\
  (String.length (Client.handleRoomCodeChange value) <= 6)%nat.
Proof.
  unfold Client.handleRoomCodeChange, JS.substring. split.
  - apply forallb_substring0, keepCodeChars_code.
  - apply substring0_length.
Qed.

Lemma handleRoomCodeChange_fixed (code : string) :
  JS.forallb_string is_code_char code = true ->
  (String.length code <= 6)%nat ->
  Client.handleRoomCodeChange code = code.
Proof.
  intros Hc Hlen. unfold Client.handleRoomCodeChange, JS.substring.
  rewrite (toUpperCase_code_id code Hc), (keepCodeChars_id code Hc).
  now apply substring0_id.
Qed.

(** X22. Whatever ASCII text is typed, the room code field holds at most
    six characters of [A-Z0-9]; it is a valid code exactly when it has six;
    passing it through the field again changes nothing; and a valid code,
    such as one the server generated, is kept as it is. *)
Theorem room_code_field (value code : string) :
  JS.forallb_string is_ascii value = true ->
  Client.isValidRoomCode code = true ->
  let field := Client.handleRoomCodeChange value in
  JS.forallb_string is_code_char field = true /\
  (String.length field <= 6)%nat /\
  (Client.isValidRoomCode field = true <-> String.length field = 6%nat) /\
  Client.handleRoomCodeChange field = field /\
  Client.handleRoomCodeChange code = code.
Proof.
  intros _ Hvalid field. subst field.
  destruct (handleRoomCodeChange_code value) as [Hc Hlen].
  split; [exact Hc|]. split; [exact Hlen|]. split; [|split].
  - unfold Client.isValidRoomCode. rewrite Hc, andb_true_r.
    apply Nat.eqb_eq.
  - now apply handleRoomCodeChange_fixed.
  - unfold Client.isValidRoomCode in Hvalid. apply andb_prop in Hvalid.
    destruct Hvalid as [Hl Hc']. apply Nat.eqb_eq in Hl.
    apply handleRoomCodeChange_fixed; [exact Hc' | lia].
Qed.

(** ** The clock text *)

Lemma toString_two_digits (n : N) :
  (n < 100)%N ->
  Client.padStart2 (Client.toString n) =
  String (Client.digit (n / 10)) (String (Client.digit (n mod 10)) EmptyString).
Proof.
  intros Hn. unfold Client.toString. cbn [Client.toStringFuel].
  destruct (n <? 10)%N eqn:Hlt.
  - apply N.ltb_lt in Hlt.
    rewrite (N.div_small n 10 Hlt), (N.mod_small n 10 Hlt). reflexivity.
  - apply N.ltb_ge in Hlt. destruct n as [|p]; [lia|].
    assert (Hfuel : exists f, N.size_nat (N.pos p) = S f).
    { simpl. destruct p; simpl; eauto. }
    destruct Hfuel as [f Hfuel]. rewrite Hfuel. cbn [Client.toStringFuel].
    assert (Hq : (N.pos p / 10 < 10)%N)
      by (apply N.Div0.div_lt_upper_bound; lia).
    apply N.ltb_lt in Hq. rewrite Hq. reflexivity.
Qed.

Lemma digit_inj (a c : N) :
  (a < 10)%N -> (c < 10)%N -> Client.digit a = Client.digit c -> a = c.
Proof.
  unfold Client.digit. intros Ha Hc H.
  apply (f_equal N_of_ascii) in H.
  rewrite !N_ascii_embedding in H by lia. lia.
Qed.

(** X23. For less than 100 minutes, [formatMoveTime] gives the five
    characters [MM:SS], two digits of minutes and two digits of seconds
    below 60, and two different durations never give the same text. *)
Theorem formatMoveTime_shape (seconds other : N) :
  (seconds < 6000)%N -> (other < 6000)%N ->
  let m := (seconds / 60)%N in
  let r := (seconds mod 60)%N in
  Client.formatMoveTime seconds =
    String (Client.digit (m / 10)) (String (Client.digit (m mod 10))
      (String ":" (String (Client.digit (r / 10))
         (String (Client.digit (r mod 10)) EmptyString)))) /\
  (r < 60)%N /\
  (Client.formatMoveTime seconds = Client.formatMoveTime other ->
   seconds = other).
Proof.
  intros Hs Ho m r. subst m r.
  assert (Hshape : forall n, (n < 6000)%N ->
            Client.formatMoveTime n =
            String (Client.digit (n / 60 / 10))
              (String (Client.digit ((n / 60) mod 10))
                 (String ":" (String (Client.digit ((n mod 60) / 10))
                    (String (Client.digit ((n mod 60) mod 10)) EmptyString))))).
  { intros n Hn. unfold Client.formatMoveTime.
    assert (Hm : (n / 60 < 100)%N)
      by (apply N.Div0.div_lt_upper_bound; lia).
    assert (Hr : (n mod 60 < 100)%N)
      by (pose proof (N.mod_upper_bound n 60); lia).
    rewrite (toString_two_digits _ Hm), (toString_two_digits _ Hr).
    reflexivity. }
  split; [now apply Hshape|].
  split; [apply N.mod_upper_bound; lia|].
  rewrite (Hshape _ Hs), (Hshape _ Ho). intros H.
  inversion H as [[H1 H2 H3 H4]].
  assert (Hm1 : (seconds / 60 < 100)%N)
    by (apply N.Div0.div_lt_upper_bound; lia).
  assert (Hm2 : (other / 60 < 100)%N)
    by (apply N.Div0.div_lt_upper_bound; lia).
  pose proof (N.mod_upper_bound seconds 60) as Hr1.
  pose proof (N.mod_upper_bound other 60) as Hr2.
  apply digit_inj in H1;
    [|apply N.Div0.div_lt_upper_bound; lia..].
  apply digit_inj in H2; [|apply N.mod_upper_bound; lia..].
  apply digit_inj in H3;
    [|apply N.Div0.div_lt_upper_bound; lia..].
  apply digit_inj in H4; [|apply N.mod_upper_bound; lia..].
  rewrite (N.div_mod seconds 60), (N.div_mod other 60) by lia.
  rewrite (N.div_mod (seconds / 60) 10), (N.div_mod (other / 60) 10) by lia.
  rewrite (N.div_mod (seconds mod 60) 10),
          (N.div_mod (other mod 60) 10) by lia.
  rewrite H1, H2, H3, H4. reflexivity.
Qed.

(** ** The move list *)

Lemma or_else_empty (c : string) : JS.or_else (Some c) "" = c.
Proof.
  unfold JS.or_else. destruct (String.eqb c "") eqn:H; [|reflexivity].
  apply String.eqb_eq in H. now subst c.
Qed.

Lemma skipn_cons_tail {A} (i : nat) (l rest : list A) (x : A) :
  skipn i l = x :: rest ->
  skipn (S i) l = rest /\ nth_error l (S i) = hd_error rest.
Proof.
  revert l. induction i as [|i IH]; intros [|y l] H; simpl in *;
    try discriminate.
  - inversion H; subst. split; [reflexivity|]. now destruct rest.
  - now apply IH.
Qed.

Lemma pairs_cons (m : string) (rest : list string) :
  Client.pairs (m :: rest) =
  (m, JS.or_else (hd_error rest) "") :: Client.pairs (tl rest).
Proof.
  destruct rest as [|c rest]; cbn [Client.pairs hd_error tl];
    [reflexivity|].
  now rewrite or_else_empty.
Qed.

Lemma reduceMoves_pairs (history : list string) (rest : list string) :
  forall index acc,
    skipn index history = rest ->
    Client.reduceMoves history index rest acc =
    (acc ++ Client.pairs (if Nat.even index then rest else tl rest))%list.
Proof.
  induction rest as [|m rest IH]; intros index acc Hskip.
  - simpl. destruct (Nat.even index); simpl; now rewrite app_nil_r.
  - destruct (skipn_cons_tail _ _ _ _ Hskip) as [Hnext Hnth].
    cbn [Client.reduceMoves]. rewrite (IH (S index) _ Hnext).
    rewrite Nat.even_succ, <- Nat.negb_even.
    destruct (Nat.even index); cbn [negb tl].
    + rewrite Hnth, <- app_assoc, (pairs_cons m rest). reflexivity.
    + reflexivity.
Qed.

Lemma pairs_facts (n : nat) :
  forall l, (List.length l <= n)%nat ->
    List.length (Client.pairs l) = ((List.length l + 1) / 2)%nat /\
    List.concat (map (fun p => [fst p; snd p]) (Client.pairs l)) =
    (l ++ if Nat.even (List.length l) then [] else [""])%list.
Proof.
  induction n as [|n IH]; intros l Hl.
  - destruct l; [split; reflexivity | simpl in Hl; lia].
  - destruct l as [|a [|c rest]]; [split; reflexivity..|].
    destruct (IH rest) as [Hlen Hflat]; [simpl in Hl; lia|].
    cbn [Client.pairs List.length map List.concat fst snd]. split.
    + rewrite Hlen.
      replace (S (S (List.length rest)) + 1)%nat
        with (List.length rest + 1 + 1 * 2)%nat by lia.
      rewrite Nat.div_add by lia. lia.
    + rewrite Hflat. cbn [Nat.even]. reflexivity.
Qed.

(** X24. The move list of the page has one row for every two moves: row
    [i] holds moves [2i] and [2i+1], the last row an empty second entry
    when the number of moves is odd.  The number of rows is the move
    counter shown above the board, and reading the rows in order gives
    back the move history. *)
Theorem move_rows (moveHistory : list string) :
  Client.moveRows moveHistory = Client.pairs moveHistory /\
  List.length (Client.moveRows moveHistory) = Client.moveCounter moveHistory /\
  List.concat (map (fun p => [fst p; snd p]) (Client.moveRows moveHistory)) =
    (moveHistory ++ if Nat.even (List.length moveHistory) then [] else [""])%list.
Proof.
  assert (H : Client.moveRows moveHistory = Client.pairs moveHistory).
  { unfold Client.moveRows.
    now rewrite (reduceMoves_pairs moveHistory moveHistory 0 [] eq_refl). }
  rewrite H. split; [reflexivity|].
  exact (pairs_facts _ moveHistory (Nat.le_refl _)).
Qed.

(** ** Reconnection *)

Lemma hookRun_no_open (events : list Client.HookEvent) :
  forall h,
    forallb (fun e => negb (Client.is_opened e)) events = true ->
    exists n,
      (n <= 3 - Client.reconnectAttempts h)%nat /\
      filter Client.is_reconnect (snd (Client.hookRun events h)) =
        map (fun k => Client.Reconnect (2000 + Z.of_nat k * 1000)%Z)
            (seq (S (Client.reconnectAttempts h)) n).
Proof.
  induction events as [|e events IH]; intros h Hno.
  - exists 0%nat. split; [lia | reflexivity].
  - cbn [forallb] in Hno. apply andb_prop in Hno. destruct Hno as [He Hno].
    cbn [Client.hookRun].
    destruct (Client.hookStep e h) as [h1 a1] eqn:Hstep.
    destruct (IH h1 Hno) as (n & Hbound & Hacts).
    destruct (Client.hookRun events h1) as [h2 a2].
    cbn [snd] in *. rewrite filter_app, Hacts.
    destruct e as [| |code|]; cbn [Client.hookStep] in Hstep;
      try discriminate He.
    + destruct (Client.isConnecting h); inversion Hstep; subst;
        cbn [filter Client.is_reconnect app Client.reconnectAttempts] in *;
        exists n; split; assumption || reflexivity.
    + unfold Client.maxReconnectAttempts in Hstep.
      destruct (negb (Z.eqb code 1000) &&
                (Client.reconnectAttempts h <? 3)%nat) eqn:Hc;
        inversion Hstep; subst;
        cbn [filter Client.is_reconnect app Client.reconnectAttempts] in *.
      * apply andb_prop in Hc. destruct Hc as [_ Hlt].
        apply Nat.ltb_lt in Hlt. exists (S n). split; [lia | reflexivity].
      * exists n. split; assumption || reflexivity.
    + inversion Hstep; subst.
      cbn [filter Client.is_reconnect app Client.reconnectAttempts] in *.
      exists n. split; assumption || reflexivity.
Qed.

(** X25. Between two successful openings the hook schedules at most three
    reconnections, whatever happens to the socket, and fewer when some
    were already counted; their delays are 3000, 4000 and 5000 ms, in this
    order; a close with code 1000 schedules none, and an opening resets
    the count. *)
Theorem reconnect_is_bounded (events : list Client.HookEvent) (h : Client.Hook) :
  forallb (fun e => negb (Client.is_opened e)) events = true ->
  let acts := filter Client.is_reconnect (snd (Client.hookRun events h)) in
  (List.length acts <= 3 - Client.reconnectAttempts h)%nat /\
  (exists n, acts = map (fun k => Client.Reconnect (2000 + Z.of_nat k * 1000)%Z)
                        (seq (S (Client.reconnectAttempts h)) n)) /\
  (forall delay, In (Client.Reconnect delay) acts ->
                 (3000 <= delay <= 5000)%Z) /\
  snd (Client.hookStep (Client.SocketClosed 1000) h) = [] /\
  Client.reconnectAttempts (fst (Client.hookStep Client.Opened h)) = 0%nat.
Proof.
  intros Hno acts.
  destruct (hookRun_no_open events h Hno) as (n & Hbound & Hacts).
  fold acts in Hacts.
  split; [|split; [|split; [|split]]].
  - rewrite Hacts, length_map, length_seq. lia.
  - now exists n.
  - intros delay Hin. rewrite Hacts in Hin. apply in_map_iff in Hin.
    destruct Hin as (k & Hk & Hin).
    assert (Hd : delay = (2000 + Z.of_nat k * 1000)%Z) by congruence.
    apply in_seq in Hin. lia.
  - reflexivity.
  - reflexivity.
Qed.

(** * Server and page together *)

Section EndToEnd.

Context {E : RulesEngine}.

(** The run of an accepted move, in full. *)
Lemma make_move_run (s : Server) (ws : WebSocket) (message : Message)
    (client : ClientConnection) (rid : Z) (game : Game.t)
    (chess chess' : Chess) (m : Move) :
  move_allowed s ws message client rid game chess ->
  snd (tryMove chess message) = Some (m, chess') ->
  let gameStatus := if isCheckmate chess' then checkmate else active in
  let won := if isCheckmate chess' then Some (Game.currentTurn game) else None in
  let history := (Game.moveHistory game ++ [san m])%list in
  let nextTurn := color_of_side (turn chess') in
  run (handleMakeMove ws message) s =
    (mkServer (clients s) (openSockets s)
       (storage.updateGame (Game.id game)
          (set_position (fen chess') nextTurn history gameStatus won) (db s)),
     map (fun x =>
            (x, move_made
                  (mkMoveInfo (msg_from message) (msg_to message)
                     (msg_promotion message) (san m) (piece m) (captured m))
                  (mkFull (fen chess') nextTurn history gameStatus won
                     (inCheck chess') (isCheckmate chess') false false
                     (turn chess') (negb (Status_eqb gameStatus active)))))
         (recipients s rid None)).
Proof.
  intros ((Hc & Hb & Hg) & Hst & Hturn & Hload & found & Hget & Hown) Htry.
  unfold handleMakeMove, loadChess; unfold_effects.
  rewrite Hc, Hb, Hg, Hst. simpl.
  rewrite (proj2 (color_is_eq _ _) Hturn). simpl.
  rewrite Hload, Hget, Hown.
  rewrite (proj2 (Side_eqb_eq _ _) eq_refl). simpl.
  rewrite Htry. reflexivity.
Qed.

(** X26. Every page that receives the [move_made] event of an accepted
    move shows the new board, turn and history; when the move mates it
    opens the game-over dialog with [Checkmate!] and the mover's colour as
    winner, and otherwise it leaves the dialog and the result as they
    were: no move ever makes a page announce a draw. *)
Theorem mate_is_shown (s : Server) (ws x : WebSocket) (message : Message)
    (client : ClientConnection) (rid : Z) (game : Game.t)
    (chess chess' : Chess) (m : Move) (e : ServerEvent) (p : Client.Page) :
  move_allowed s ws message client rid game chess ->
  snd (tryMove chess message) = Some (m, chess') ->
  In (x, e) (snd (run (handleMakeMove ws message) s)) ->
  let p' := Client.onMessage e p in
  Client.fen (Client.gameState p') = fen chess' /\
  Client.currentTurn (Client.gameState p') = color_of_side (turn chess') /\
  Client.moveHistory (Client.gameState p') =
    (Game.moveHistory game ++ [san m])%list /\
  (isCheckmate chess' = true ->
   Client.showGameOverModal p' = true /\
   Client.gameResult p' =
     Some ("Checkmate!",
           (Client.winnerName (color client) ++ " wins by checkmate")%string)) /\
  (isCheckmate chess' = false ->
   Client.showGameOverModal p' = Client.showGameOverModal p /\
   Client.gameResult p' = Client.gameResult p).
Proof.
  intros Hallowed Htry Hin p'. subst p'.
  rewrite (make_move_run s ws message client rid game chess chess' m
             Hallowed Htry) in Hin.
  cbn [snd] in Hin. apply in_map_iff in Hin.
  destruct Hin as (y & Heq & _). inversion Heq; subst y e. clear Heq.
  destruct Hallowed as (_ & _ & Hturn & _).
  unfold Client.onMessage, Client.handleGameEnd, Client.setGameState,
    Client.ofFull. cbn [gs_checkmate gs_draw gs_fen gs_currentTurn
                        gs_moveHistory gs_status gs_winner gs_check
                        Client.checkmate Client.draw Client.truthy].
  destruct (isCheckmate chess'); cbn;
    (split; [reflexivity|]; split; [reflexivity|]; split; [reflexivity|]);
    split; intros H; try discriminate H; split; try reflexivity.
  now rewrite Hturn.
Qed.

(** X27. Every page that receives the [game_ended] event of a resignation
    opens the game-over dialog with [Game Over!] and the colour opposite
    to the resigner's as winner by resignation; its game state, status
    included, is left as it was. *)
Theorem resignation_is_shown (s : Server) (ws x : WebSocket)
    (client : ClientConnection) (rid : Z) (game : Game.t) (e : ServerEvent)
    (p : Client.Page) :
  playing s ws client rid game ->
  In (x, e) (snd (run (handleResign ws) s)) ->
  let p' := Client.onMessage e p in
  Client.showGameOverModal p' = true /\
  Client.gameResult p' =
    Some ("Game Over!",
          (Client.winnerName
             (Some (if color_is (color client) white then black else white))
           ++ " wins by resignation")%string) /\
  Client.gameState p' = Client.gameState p.
Proof.
  intros (Hc & Hb & Hg) Hin p'. subst p'. revert Hin.
  unfold handleResign; unfold_effects. rewrite Hc, Hb, Hg. simpl.
  intros Hin. apply in_map_iff in Hin.
  destruct Hin as (y & Heq & _). inversion Heq; subst y e.
  repeat split.
Qed.

(** X28. A page that knows its colour and the turn as the server has
    them sends a move only when it is its turn, and a move it sends is
    never answered by [Not your turn]. *)
Theorem page_moves_in_turn (s : Server) (ws : WebSocket)
    (client : ClientConnection) (rid : Z) (game : Game.t) (p : Client.Page)
    (from to : string) (promotion : option string) :
  playing s ws client rid game ->
  Client.playerColor p = color client ->
  Client.currentTurn (Client.gameState p) = Game.currentTurn game ->
  match Client.handleMove from to promotion p with
  | None => color client <> Some (Game.currentTurn game)
  | Some message =>
      color client = Some (Game.currentTurn game) /\
      type_is message "make_move" = true /\
      forall x, ~ In (x, error "Not your turn")
                     (snd (run (handleMakeMove ws message) s))
  end.
Proof.
  intros (Hc & Hb & Hg) Hcolor Hturn. unfold Client.handleMove.
  rewrite Hcolor, Hturn.
  destruct (color_is (color client) (Game.currentTurn game)) eqn:Hmine.
  - split; [now apply color_is_eq|]. split; [reflexivity|].
    intros x. unfold handleMakeMove, loadChess; unfold_effects.
    rewrite Hc, Hb, Hg. cbn [msg_from msg_to msg_promotion].
    destruct (Status_eqb (Game.status game) active); simpl;
      [|intros H; destruct H as [H | []]; discriminate H].
    rewrite Hmine. simpl.
    destruct (loadFen (Game.boardState game)) as [chess|]; simpl;
      [|intros H; destruct H as [H | []]; discriminate H].
    destruct (get chess (Some from)) as [found|]; simpl;
      [|intros H; destruct H as [H | []]; discriminate H].
    destruct (Side_eqb (piece_color found)
                       (side_of_color (Game.currentTurn game)));
      simpl; [|intros H; destruct H as [H | []]; discriminate H].
    match goal with
    | |- context [snd (tryMove ?c ?msg)] =>
        destruct (snd (tryMove c msg)) as [[m chess']|]
    end; simpl.
    + intros H. apply in_map_iff in H. destruct H as (y & H & _).
      discriminate H.
    + intros H; destruct H as [H | []]; discriminate H.
  - intros H. apply color_is_eq in H. rewrite H in Hmine. discriminate Hmine.
Qed.

End EndToEnd.

(** * The further statements at concrete inputs *)

Section ConcreteCoverage.

Import Examples.

#[local] Existing Instance Mini.engine.

Lemma opening_reaches_started : after Scenario.opening = Scenario.started.
Proof. reflexivity. Qed.

Lemma errors_reach_sender_only_witness :
  In (2%nat, error "Not your turn")
     (snd (run (onMessage "0.x" 2%nat (Parsed (moveMsg "e7" "e5" None)))
               (seated active None))) /\
  2%nat = 2%nat.
Proof.
  assert (Hin : In (2%nat, error "Not your turn")
            (snd (run (onMessage "0.x" 2%nat (Parsed (moveMsg "e7" "e5" None)))
                      (seated active None)))) by (left; reflexivity).
  split; [exact Hin|].
  exact (errors_reach_sender_only "0.x" 2%nat 2%nat _ _ _ Hin).
Defined.

Lemma events_stay_in_room_witness :
  exists e,
    In (2%nat, e)
       (snd (run (onMessage "0.x" 1%nat (Parsed (moveMsg "e2" "e4" None)))
                 (seated active None))) /\
    is_open (seated active None) 2%nat = true /\
    same_room (fst (run (onMessage "0.x" 1%nat
                                   (Parsed (moveMsg "e2" "e4" None)))
                        (seated active None))) 1%nat 2%nat.
Proof.
  eexists. 
  assert (Hin : In (2%nat, _)
            (snd (run (onMessage "0.x" 1%nat (Parsed (moveMsg "e2" "e4" None)))
                      (seated active None)))) by (right; left; reflexivity).
  split; [exact Hin|].
  apply (events_stay_in_room "0.x" 1%nat 2%nat _ _ _ Hin). discriminate.
Defined.

Lemma error_reasons_by_type_witness :
  In (2%nat, error "Not your turn")
     (snd (run (onMessage "0.x" 2%nat (Parsed (moveMsg "e7" "e5" None)))
               (seated active None))) /\
  In "Not your turn" (error_reasons (moveMsg "e7" "e5" None)).
Proof.
  assert (Hin : In (2%nat, error "Not your turn")
            (snd (run (onMessage "0.x" 2%nat (Parsed (moveMsg "e7" "e5" None)))
                      (seated active None)))) by (left; reflexivity).
  split; [exact Hin|].
  exact (error_reasons_by_type "0.x" 2%nat 2%nat _ _ _ Hin).
Defined.

Lemma reachable_room_resolves_witness :
  In (Room.mk 1 "I5K9QZ" (Some 1%Z) (Some 2%Z) true)
     (rooms (db (after Scenario.opening))) /\
  storage.getRoomByCode (Some "I5K9QZ") (db (after Scenario.opening)) =
    Found (Room.mk 1 "I5K9QZ" (Some 1%Z) (Some 2%Z) true) /\
  exists game,
    storage.getGameByRoomId 1 (db (after Scenario.opening)) = Some game /\
    forall g, In g (games (db (after Scenario.opening))) ->
              Game.roomId g = 1%Z -> g = game.
Proof.
  assert (Hin : In (Room.mk 1 "I5K9QZ" (Some 1%Z) (Some 2%Z) true)
                   (rooms (db (after Scenario.opening))))
    by (left; reflexivity).
  split; [exact Hin|].
  exact (reachable_room_resolves Scenario.opening _ Hin).
Defined.

Lemma reachable_sessions_seated_witness :
  clients_get 2%nat (clients (after Scenario.opening)) =
    Some (mkClient (Some 1%Z) (Some 2%Z) (Some "Bob") (Some black)) /\
  In 1%Z (map Room.id (rooms (db (after Scenario.opening)))) /\
  ((Some 2%Z = Some 1%Z /\ Some black = Some white) \/
   (Some 2%Z = Some 2%Z /\ Some black = Some black)) /\
  JS.truthy_string (Some "Bob") = true.
Proof.
  split; [reflexivity|].
  exact (reachable_sessions_seated Scenario.opening 2%nat
           (mkClient (Some 1%Z) (Some 2%Z) (Some "Bob") (Some black)) eq_refl).
Defined.

Lemma reachable_status_witness :
  In (Game.mk 1 1 white "w" [] active None)
     (games (db (after Scenario.opening))) /\
  active <> draw /\
  (active = checkmate \/ active = resigned -> @None Color <> None).
Proof.
  assert (Hin : In (Game.mk 1 1 white "w" [] active None)
                   (games (db (after Scenario.opening))))
    by (left; reflexivity).
  split; [exact Hin|].
  exact (reachable_status Scenario.opening _ Hin).
Defined.

Lemma reachable_position_witness :
  In (Game.mk 1 1 white "w" [] active None)
     (games (db (after Scenario.opening))) /\
  turn_agrees (Game.mk 1 1 white "w" [] active None) /\
  consistent (Game.mk 1 1 white "w" [] active None).
Proof.
  assert (Hin : In (Game.mk 1 1 white "w" [] active None)
                   (games (db (after Scenario.opening))))
    by (left; reflexivity).
  split; [exact Hin|].
  exact (reachable_position Scenario.opening _ Hin).
Defined.

Lemma create_room_stores_witness :
  ~ In (generateRoomCode "0.abcdefgh") (room_codes (db (seated active None))) /\
  snd (run (handleCreateRoom "0.abcdefgh" 3%nat (Scenario.createMsg "Cy"))
           (seated active None)) =
    [(3%nat, room_created "ABCDEF" 2 white (mkBrief "w" white [] waiting))] /\
  storage.getRoomByCode (Some "ABCDEF")
    (db (fst (run (handleCreateRoom "0.abcdefgh" 3%nat
                                    (Scenario.createMsg "Cy"))
                  (seated active None)))) =
    Found (Room.mk 2 "ABCDEF" (Some 1%Z) None true).
Proof.
  assert (Hfresh : ~ In (generateRoomCode "0.abcdefgh")
                        (room_codes (db (seated active None)))).
  { simpl. intros [H | []]. discriminate H. }
  split; [exact Hfresh|].
  pose proof (create_room_stores "0.abcdefgh" 3%nat (Scenario.createMsg "Cy")
                (seated active None) Hfresh) as H.
  cbv zeta in H. destruct H as (Hout & Hroom & _).
  split; [exact Hout | exact Hroom].
Defined.

Lemma join_room_starts_witness :
  clients_get 3%nat (clients waitingRoom) = Some freshClient /\
  (let r := run (handleJoinRoom 3%nat (joinMsg "I5K9QZ")) waitingRoom in
   storage.getGameByRoomId 1 (db (fst r)) =
     Some (Game.mk 1 1 white "w" [] active None) /\
   snd r =
     [(3%nat, room_joined "I5K9QZ" 1 black (mkBrief "w" white [] active) []);
      (1%nat, game_started (mkBrief "w" white [] active));
      (3%nat, game_started (mkBrief "w" white [] active))]).
Proof.
  split; [reflexivity|].
  pose proof (join_room_starts waitingRoom 3%nat (joinMsg "I5K9QZ") freshClient
                (Room.mk 1 "I5K9QZ" (Some 1%Z) None true)
                (game1 waiting None) eq_refl eq_refl eq_refl eq_refl) as H.
  cbv zeta in H. destruct H as (_ & Hgame & Hout & _).
  split; [exact Hgame | exact Hout].
Defined.

Lemma second_join_rejected_witness :
  clients_get 3%nat (clients waitingRoom) = Some freshClient /\
  (let s' := fst (run (handleJoinRoom 3%nat (joinMsg "I5K9QZ")) waitingRoom) in
   let later :=
     continue s'
       [Received "0.x" 1%nat (Parsed (moveMsg "e2" "e4" None));
        Connection 4%nat;
        Received "0.x" 3%nat (Parsed (chatMsg (Some "hi")))] in
   run (handleJoinRoom 1%nat (joinMsg "I5K9QZ")) s' =
     (s', [(1%nat, error "Room is full")]) /\
   run (handleJoinRoom 4%nat (joinMsg "I5K9QZ")) later =
     (later, [(4%nat, error "Room is full")])).
Proof.
  split; [reflexivity|].
  pose proof (second_join_rejected waitingRoom 3%nat 1%nat (joinMsg "I5K9QZ")
                (joinMsg "I5K9QZ") freshClient
                (Room.mk 1 "I5K9QZ" (Some 1%Z) None true)
                eq_refl eq_refl eq_refl eq_refl) as H1.
  pose proof (second_join_rejected waitingRoom 3%nat 4%nat (joinMsg "I5K9QZ")
                (joinMsg "I5K9QZ") freshClient
                (Room.mk 1 "I5K9QZ" (Some 1%Z) None true)
                eq_refl eq_refl eq_refl eq_refl) as H4.
  cbv zeta in H1, H4. cbv zeta. split.
  - exact (proj2 H1 []).
  - exact (proj2 H4 _).
Defined.

Lemma unbound_session_rejected_witness :
  boundRoom (clients_get 3%nat (clients (seated active None))) = None /\
  run (handleResign 3%nat) (seated active None) =
    (seated active None, [(3%nat, error "Not in a room")]).
Proof.
  split; [reflexivity|].
  exact (proj1 (proj2 (proj2 (unbound_session_rejected (seated active None)
                                3%nat (msg "resign") eq_refl)))).
Defined.

Lemma resign_ends_game_witness :
  playing (seated active None) 2%nat blackClient 1 (game1 active None) /\
  (let r := run (handleResign 2%nat) (seated active None) in
   storage.getGameByRoomId 1 (db (fst r)) =
     Some (Game.mk 1 1 white "w" [] resigned (Some white)) /\
   snd r = [(1%nat, game_ended white (Some black));
            (2%nat, game_ended white (Some black))]).
Proof.
  assert (Hplay : playing (seated active None) 2%nat blackClient 1
                          (game1 active None)).
  { split; [reflexivity|]. split; reflexivity. }
  split; [exact Hplay|].
  pose proof (resign_ends_game (seated active None) 2%nat blackClient 1
                (game1 active None) Hplay eq_refl) as H.
  cbv zeta in H. destruct H as (Hgame & Hout & _).
  split; [exact Hgame | exact Hout].
Defined.

Lemma e2e4_allowed :
  move_allowed (seated active None) 1%nat (moveMsg "e2" "e4" None)
               whiteClient 1 (game1 active None) ("w" : Chess).
Proof.
  split; [split; [reflexivity | split; reflexivity]|].
  split; [reflexivity|]. split; [reflexivity|]. split; [reflexivity|].
  exists (Build_Piece "p" w). split; reflexivity.
Defined.

Lemma mate_allowed :
  move_allowed (seated active None) 1%nat (moveMsg "h5" "f7" None)
               whiteClient 1 (game1 active None) ("w" : Chess).
Proof.
  split; [split; [reflexivity | split; reflexivity]|].
  split; [reflexivity|]. split; [reflexivity|]. split; [reflexivity|].
  exists (Build_Piece "q" w). split; reflexivity.
Defined.

Lemma make_move_broadcast_witness :
  move_allowed (seated active None) 1%nat (moveMsg "e2" "e4" None)
               whiteClient 1 (game1 active None) ("w" : Chess) /\
  exists game',
    storage.getGameByRoomId 1
      (db (fst (run (handleMakeMove 1%nat (moveMsg "e2" "e4" None))
                    (seated active None)))) = Some game' /\
    map fst (snd (run (handleMakeMove 1%nat (moveMsg "e2" "e4" None))
                      (seated active None))) = [1%nat; 2%nat].
Proof.
  split; [exact e2e4_allowed|].
  pose proof (make_move_broadcast (E:=Mini.engine) (seated active None) 1%nat
                (moveMsg "e2" "e4" None) whiteClient 1 (game1 active None)
                "w" "be4" (Build_Move "e4" "p" None) e2e4_allowed eq_refl) as H.
  cbv zeta in H. destruct H as (game' & Hgame & Hout & _).
  exists game'. split; [exact Hgame|]. rewrite Hout. reflexivity.
Defined.

Lemma send_chat_history_witness :
  clients_get 2%nat (clients (seated active None)) = Some blackClient /\
  storage.getChatMessages 1
    (db (fst (run (handleSendChat 2%nat (chatMsg (Some "gl hf")))
                  (seated active None)))) =
    [ChatMessage.mk 1 1 (Some 2%Z) "Bob" "gl hf"].
Proof.
  split; [reflexivity|].
  pose proof (send_chat_history (seated active None) 2%nat
                (chatMsg (Some "gl hf")) blackClient 1 eq_refl eq_refl) as H.
  cbv zeta in H. destruct H as (Hstored & _).
  exact (proj1 (Hstored "gl hf" eq_refl eq_refl eq_refl)).
Defined.

Lemma server_code_is_valid_witness :
  is_unit_base36 "0.i5k9qzabc" = true /\
  Client.isValidRoomCode (generateRoomCode "0.i5k9qzabc") = true.
Proof.
  split; [reflexivity|].
  apply server_code_is_valid; [reflexivity | simpl; lia].
Defined.

Lemma room_code_field_witness :
  JS.forallb_string is_ascii " i5k9-qz abc" = true /\
  Client.isValidRoomCode "I5K9QZ" = true /\
  Client.handleRoomCodeChange " i5k9-qz abc" = "I5K9QZ" /\
  Client.handleRoomCodeChange "I5K9QZ" = "I5K9QZ".
Proof.
  split; [reflexivity|]. split; [reflexivity|]. split; [reflexivity|].
  pose proof (room_code_field " i5k9-qz abc" "I5K9QZ" eq_refl eq_refl) as H.
  cbv zeta in H. destruct H as (_ & _ & _ & _ & Hfixed). exact Hfixed.
Defined.

Lemma formatMoveTime_shape_witness :
  (125 < 6000)%N /\ Client.formatMoveTime 125 = "02:05".
Proof.
  split; [reflexivity|].
  pose proof (formatMoveTime_shape 125 0 eq_refl eq_refl) as H.
  cbv zeta in H. destruct H as (Hshape & _). exact Hshape.
Defined.

Lemma reconnect_is_bounded_witness :
  let events := [Client.SocketClosed 1006; Client.Connect;
                 Client.SocketClosed 1006; Client.Connect; Client.Failed;
                 Client.SocketClosed 1006; Client.Connect;
                 Client.SocketClosed 1006; Client.SocketClosed 1006] in
  filter Client.is_reconnect
    (snd (Client.hookRun events (Client.mkHook true true 0 false))) =
    [Client.Reconnect 3000; Client.Reconnect 4000; Client.Reconnect 5000] /\
  (List.length
     (filter Client.is_reconnect
        (snd (Client.hookRun events (Client.mkHook true true 0 false))))
   <= 3 - 0)%nat.
Proof.
  cbv zeta. split; [reflexivity|].
  exact (proj1 (reconnect_is_bounded
                  [Client.SocketClosed 1006; Client.Connect;
                   Client.SocketClosed 1006; Client.Connect; Client.Failed;
                   Client.SocketClosed 1006; Client.Connect;
                   Client.SocketClosed 1006; Client.SocketClosed 1006]
                  (Client.mkHook true true 0 false) eq_refl)).
Defined.

Lemma mate_is_shown_witness :
  move_allowed (seated active None) 1%nat (moveMsg "h5" "f7" None)
               whiteClient 1 (game1 active None) ("w" : Chess) /\
  exists e,
    In (2%nat, e)
       (snd (run (handleMakeMove 1%nat (moveMsg "h5" "f7" None))
                 (seated active None))) /\
    Client.showGameOverModal (Client.onMessage e Scenario.whitePage) = true /\
    Client.gameResult (Client.onMessage e Scenario.whitePage) =
      Some ("Checkmate!", "White wins by checkmate").
Proof.
  split; [exact mate_allowed|]. eexists.
  assert (Hin : In (2%nat, _)
            (snd (run (handleMakeMove 1%nat (moveMsg "h5" "f7" None))
                      (seated active None)))) by (right; left; reflexivity).
  split; [exact Hin|].
  pose proof (mate_is_shown (E:=Mini.engine) (seated active None) 1%nat 2%nat
                (moveMsg "h5" "f7" None) whiteClient 1 (game1 active None)
                "w" "bQxf7#" (Build_Move "Qxf7#" "q" (Some "p")) _
                Scenario.whitePage mate_allowed eq_refl Hin) as H.
  cbv zeta in H. destruct H as (_ & _ & _ & Hmate & _).
  exact (Hmate eq_refl).
Defined.

Lemma resignation_is_shown_witness :
  playing (seated active None) 2%nat blackClient 1 (game1 active None) /\
  Client.gameResult
    (Client.onMessage (game_ended white (Some black)) Scenario.whitePage) =
    Some ("Game Over!", "White wins by resignation").
Proof.
  assert (Hplay : playing (seated active None) 2%nat blackClient 1
                          (game1 active None)).
  { split; [reflexivity|]. split; reflexivity. }
  split; [exact Hplay|].
  assert (Hin : In (1%nat, game_ended white (Some black))
                   (snd (run (handleResign 2%nat) (seated active None))))
    by (left; reflexivity).
  pose proof (resignation_is_shown (seated active None) 2%nat 1%nat
                blackClient 1 (game1 active None) _ Scenario.whitePage
                Hplay Hin) as H.
  cbv zeta in H. destruct H as (_ & Hresult & _). exact Hresult.
Defined.

Lemma page_moves_in_turn_witness :
  playing (seated active None) 1%nat whiteClient 1 (game1 active None) /\
  Client.handleMove "e2" "e4" None Scenario.whitePage =
    Some (moveMsg "e2" "e4" None) /\
  ~ In (1%nat, error "Not your turn")
       (snd (run (handleMakeMove 1%nat (moveMsg "e2" "e4" None))
                 (seated active None))).
Proof.
  assert (Hplay : playing (seated active None) 1%nat whiteClient 1
                          (game1 active None)).
  { split; [reflexivity|]. split; reflexivity. }
  split; [exact Hplay|]. split; [reflexivity|].
  pose proof (page_moves_in_turn (E:=Mini.engine) (seated active None) 1%nat
                whiteClient 1 (game1 active None) Scenario.whitePage
                "e2" "e4" None Hplay eq_refl eq_refl) as H.
  cbn in H. destruct H as (_ & _ & Hnever). exact (Hnever 1%nat).
Defined.

End ConcreteCoverage.
